(** * Monkey: a shallow embedding of the parser, the object model and the
      tree-walking evaluator, with the properties of the specification.

    The development follows the Go packages of the repository, one Rocq
    module per package:

    - [go]        the parts of the Go runtime the code relies on (int64
                  wrap-around, panics, [fmt.Sprintf], [hash/fnv]);
    - [token]     token kinds;
    - [ast]       the syntax tree, as the parser builds it and the
                  evaluator reads it;
    - [object]    runtime values, hash keys, environments;
    - [parser]    the Pratt parser;
    - [evaluator] [Eval] and the built-in functions.

    Go code can fail to return in two ways that matter here: it can panic
    (nil dereference, failed type assertion, index out of range, division by
    zero) and it can loop.  Every modelled function that can do either
    returns a [go.Res]: [Ok], [Panic] or [OutOfFuel]. *)

From Stdlib Require Import ZArith String Ascii List Lia.
From stdpp Require Import base option list strings gmap pretty.

#[local] Set Warnings "-register-all".

(* ===================================================================== *)
(** ** The Go runtime                                                     *)
(* ===================================================================== *)

Module go.

(** Outcome of running a piece of Go code. *)
Inductive Res (A : Type) : Type :=
| Ok (a : A)
| Panic (why : string)
| OutOfFuel.
Arguments Ok {A} a.
Arguments Panic {A} why.
Arguments OutOfFuel {A}.

(** Code that reads and writes a state [S]. *)
Definition M (S A : Type) : Type := S -> Res (A * S).

Definition ret {S A} (a : A) : M S A := fun s => Ok (a, s).

Definition bind {S A B} (m : M S A) (k : A -> M S B) : M S B :=
  fun s =>
    match m s with
    | Ok (a, s') => k a s'
    | Panic why => Panic why
    | OutOfFuel => OutOfFuel
    end.

Definition panic {S A} (why : string) : M S A := fun _ => Panic why.
Definition outOfFuel {S A} : M S A := fun _ => OutOfFuel.
Definition get {S} : M S S := fun s => Ok (s, s).
Definition put {S} (s : S) : M S unit := fun _ => Ok (tt, s).
Definition lift {S A} (r : Res A) : M S A :=
  fun s => match r with
           | Ok a => Ok (a, s)
           | Panic why => Panic why
           | OutOfFuel => OutOfFuel
           end.

(** The value a computation returns, without the final state. *)
Definition value {S A} (r : Res (A * S)) : Res A :=
  match r with
  | Ok (a, _) => Ok a
  | Panic why => Panic why
  | OutOfFuel => OutOfFuel
  end.

(** [le r r']: [r'] is the outcome [r], or [r] ran out of fuel. *)
Definition le {A} (r r' : Res A) : Prop := r = OutOfFuel \/ r = r'.

(** The panics of the runtime that the modelled code can raise. *)
Definition nilDereference : string := "invalid memory address or nil pointer dereference".
Definition indexOutOfRange : string := "index out of range".
Definition interfaceConversion : string := "interface conversion".
Definition divideByZero : string := "integer divide by zero".

(** *** int64 and uint64 *)

Definition two63 : Z := 9223372036854775808.
Definition two64 : Z := 18446744073709551616.

Definition isInt64 (z : Z) : Prop := (- two63 <= z < two63)%Z.

(** Result of an int64 operation whose mathematical result is [z]. *)
Definition wrapInt64 (z : Z) : Z := ((z + two63) mod two64 - two63)%Z.

(** The conversion [uint64(i)] of an int64 [i]. *)
Definition uint64 (i : Z) : Z := (i mod two64)%Z.

(** [a / b] on int64: truncated towards zero, wrapping for
    [MinInt64 / -1], panicking for [b = 0]. *)
Definition divInt64 (a b : Z) : Res Z :=
  if (b =? 0)%Z then Panic divideByZero else Ok (wrapInt64 (Z.quot a b)).

(** *** fmt.Sprintf

    The fragment of [fmt] the sources use: the verbs [%s], [%d] and [%q]
    with operands of the matching type, [%%], and what [Sprintf] prints
    when the format has a verb and no operand is left.  Flags, widths and
    argument indexes occur in no format string of the sources and are not
    modelled. *)

Inductive Arg : Type :=
| ArgString (s : string)
| ArgInt (z : Z).

Definition quote : string := String (ascii_of_nat 34) EmptyString.

Definition formatArg (verb : ascii) (a : Arg) : string :=
  match a with
  | ArgString s =>
      if Ascii.eqb verb "s" then s
      else if Ascii.eqb verb "q" then quote +:+ s +:+ quote
      else "%!" +:+ String verb ("(string=" +:+ s +:+ ")")
  | ArgInt z =>
      if Ascii.eqb verb "d" then pretty z
      else "%!" +:+ String verb ("(int=" +:+ pretty z +:+ ")")
  end.

Fixpoint Sprintf (format : string) (args : list Arg) : string :=
  match format with
  | EmptyString => EmptyString
  | String c rest =>
      if Ascii.eqb c "%" then
        match rest with
        | EmptyString => "%!(NOVERB)"
        | String verb rest' =>
            if Ascii.eqb verb "%" then String "%" (Sprintf rest' args)
            else
              match args with
              | [] => "%!" +:+ String verb ("(MISSING)" +:+ Sprintf rest' [])
              | a :: args' => formatArg verb a +:+ Sprintf rest' args'
              end
        end
      else String c (Sprintf rest args)
  end.

(** *** hash/fnv: the 64-bit FNV-1 hash returned by [fnv.New64]

    [New64] starts from the offset basis; [Write] folds the bytes in with
    [hash *= prime64; hash ^= uint64(c)]; [Sum64] returns the state. *)

Definition offset64 : Z := 14695981039346656037.
Definition prime64 : Z := 1099511628211.

Definition New64 : Z := offset64.

Definition Write (hash : Z) (data : list Z) : Z :=
  fold_left (fun h c => Z.lxor ((h * prime64) mod two64) c) data hash.

Definition Sum64 (hash : Z) : Z := hash.

(** [strings.Join] *)
Fixpoint Join (elems : list string) (sep : string) : string :=
  match elems with
  | [] => EmptyString
  | [e] => e
  | e :: rest => e +:+ sep +:+ Join rest sep
  end.

Definition newline : string := String (ascii_of_nat 10) EmptyString.

(** [[]byte(s)]: the bytes of a string. *)
Definition bytes (s : string) : list Z :=
  map (fun c => Z.of_nat (nat_of_ascii c)) (list_ascii_of_string s).

(** [strconv.ParseInt(s, 0, 64)] on the literals the lexer produces for
    [INT] tokens, which are non-empty runs of decimal digits.  With base 0
    a literal that starts with [0] and has more digits is octal.  [None]
    is the error result (not a number of that base, or out of the int64
    range).  Other strings (signs, [0x], underscores) never reach the
    parser and are rejected here. *)
Definition digitValue (c : ascii) : option Z :=
  let n := nat_of_ascii c in
  if (48 <=? n)%nat && (n <=? 57)%nat then Some (Z.of_nat (n - 48)) else None.

Fixpoint digits (base : Z) (acc : Z) (s : string) : option Z :=
  match s with
  | EmptyString => Some acc
  | String c rest =>
      match digitValue c with
      | Some d => if (d <? base)%Z then digits base (acc * base + d)%Z rest else None
      | None => None
      end
  end.

Definition ParseInt (s : string) : option Z :=
  match s with
  | EmptyString => None
  | String c rest =>
      let r := if Ascii.eqb c "0" && negb (String.eqb rest "")
               then digits 8 0 rest else digits 10 0 s in
      match r with
      | Some z => if (z <? two63)%Z then Some z else None
      | None => None
      end
  end.

End go.

Notation "'let!' x ':=' m 'in' k" := (go.bind m (fun x => k))
  (at level 10, x name, m at level 100, k at level 200).
Notation "'run!' m 'in' k" := (go.bind m (fun _ => k))
  (at level 10, m at level 100, k at level 200).

(* ===================================================================== *)
(** ** package token                                                      *)
(* ===================================================================== *)

Module token.

(** [type TokenType string] *)
Definition TokenType : Type := string.

Record Token : Type := mkToken { Type_ : TokenType; Literal : string }.

Definition ILLEGAL : TokenType := "ILLEGAL".
Definition EOF : TokenType := "EOF".
Definition IDENT : TokenType := "IDENT".
Definition INT : TokenType := "INT".
Definition ASSIGN : TokenType := "ASSIGN".
Definition PLUS : TokenType := "PLUS".
Definition MINUS : TokenType := "MINUS".
Definition BANG : TokenType := "BANG".
Definition ASTERISK : TokenType := "ASTERISK".
Definition SLASH : TokenType := "SLASH".
Definition LT : TokenType := "LT".
Definition GT : TokenType := "GT".
Definition COLON : TokenType := "COLON".
Definition COMMA : TokenType := "COMMA".
Definition SEMICOLON : TokenType := "SEMICOLON".
Definition LPAREN : TokenType := "LPAREN".
Definition RPAREN : TokenType := "RPAREN".
Definition LBRACE : TokenType := "LBRACE".
Definition RBRACE : TokenType := "RBRACE".
Definition LBRACKET : TokenType := "LBRACKET".
Definition RBRACKET : TokenType := "RBRACKET".
Definition EQ : TokenType := "EQ".
Definition NOT_EQ : TokenType := "NOT_EQ".
Definition FUNCTION : TokenType := "FUNCTION".
Definition LET : TokenType := "LET".
Definition TRUE : TokenType := "TRUE".
Definition FALSE : TokenType := "FALSE".
Definition IF : TokenType := "IF".
Definition ELSE : TokenType := "ELSE".
Definition RETURN : TokenType := "RETURN".
Definition STRING : TokenType := "STRING".

Definition keywords : gmap string TokenType :=
  <["fn" := FUNCTION]> (<["let" := LET]> (<["true" := TRUE]> (<["false" := FALSE]>
  (<["if" := IF]> (<["else" := ELSE]> (<["return" := RETURN]> ∅)))))).

Definition LookupIdent (ident : string) : TokenType :=
  match keywords !! ident with
  | Some tok => tok
  | None => IDENT
  end.

End token.

(* ===================================================================== *)
(** ** package ast                                                        *)
(* ===================================================================== *)

(** Package [ast] is not among the sources.  Its node types are modelled
    from section 3 of the specification and from the fields that the parser
    sets and [Eval] reads. *)

Module ast.

(** Modelled from the spec: the AST nodes (package [ast] is missing).  The
    statements are [Let{name, value}], [Return{value}],
    [ExpressionStatement{expr}] and [Block{statements}]; the expressions are
    [Identifier{name}], [IntegerLiteral{i64}], [BooleanLiteral{bool}],
    [StringLiteral{string}], [Prefix{op, right}], [Infix{op, left, right}],
    [If{cond, consequence, alternative?}], [FunctionLiteral{params, body}],
    [Call{function, args}], [ArrayLiteral{elements}], [Index{left, index}],
    [HashLiteral{pairs}] and [Assignment{name, value}].  The constructors
    and fields have the names the Go sources use for them.  An
    [ast.Expression] is a Go interface and can be nil (the parselets return
    nil after a parse error), so a child expression is an
    [option Expression].  An [ast.Identifier] is modelled by its [Value].
    The [Token] field of the nodes is read only by the rendering methods and
    is left out. *)
Inductive Expression : Type :=
| Identifier (Value : string)
| IntegerLiteral (Value : Z)
| Boolean (Value : bool)
| StringLiteral (Value : string)
| PrefixExpression (Operator : string) (Right : option Expression)
| InfixExpression (Operator : string) (Left Right : option Expression)
| IfExpression (Condition : option Expression) (Consequence : BlockStatement)
               (Alternative : option BlockStatement)
| FunctionLiteral (Parameters : list string) (Body : BlockStatement)
| CallExpression (Function : option Expression) (Arguments : list (option Expression))
| ArrayLiteral (Elements : list (option Expression))
| IndexExpression (Left Index : option Expression)
| HashLiteral (Pairs : list (option Expression * option Expression))
| AssignmentExpression (Name : string) (Value : option Expression)
with Statement : Type :=
| LetStatement (Name : string) (Value : option Expression)
| NilLetStatement
| ReturnStatement (ReturnValue : option Expression)
| ExpressionStatement (Expression : option Expression)
with BlockStatement : Type :=
| Block (Statements : list Statement).

(** [NilLetStatement] is the nil [*ast.LetStatement] that
    [parseLetStatement] returns after a failed [expectPeek]: converted to
    the interface [ast.Statement] it is not equal to nil, and
    [ParseProgram] appends it to the program. *)

Record Program : Type := mkProgram { Statements : list Statement }.

(** [ast.Node]: what [Eval] is called on.  [NodeNil] is the nil
    interface. *)
Inductive Node : Type :=
| NodeNil
| NodeProgram (p : Program)
| NodeBlock (b : BlockStatement)
| NodeStatement (s : Statement)
| NodeExpression (e : Expression).

Definition ofExpression (e : option Expression) : Node :=
  match e with
  | Some e => NodeExpression e
  | None => NodeNil
  end.

(** [map[ast.Expression]ast.Expression]: keys are compared as
    interfaces, that is by node identity.  Every parsed key is a node of
    its own; only nil keys can coincide.  The pairs are kept in insertion
    order; the order in which Go ranges over them is chosen by the
    evaluator's [mapOrder]. *)
Fixpoint pairsInsert (k v : option Expression)
    (pairs : list (option Expression * option Expression))
    : list (option Expression * option Expression) :=
  match pairs with
  | [] => [(k, v)]
  | (k', v') :: rest =>
      match k, k' with
      | None, None => (k, v) :: rest
      | _, _ => (k', v') :: pairsInsert k v rest
      end
  end.

End ast.

(* ===================================================================== *)
(** ** package object                                                     *)
(* ===================================================================== *)

Module object.

(** [type ObjectType string] *)
Definition ObjectType : Type := string.

Definition INTEGER_OBJ : ObjectType := "INTEGER".
Definition BOOLEAN_OBJ : ObjectType := "BOOLEAN".
Definition NULL_OBJ : ObjectType := "NULL".
Definition RETURN_VALUE_OBJ : ObjectType := "RETURN_VALUE".
Definition ERROR_OBJ : ObjectType := "ERROR".
Definition FUNCTION_OBJ : ObjectType := "FUNCTION".
Definition STRING_OBJ : ObjectType := "STRING".
Definition BUILTIN_OBJ : ObjectType := "BUILTIN".
Definition ARRAY_OBJ : ObjectType := "ARRAY".
Definition HASH_OBJ : ObjectType := "HASH".

Record HashKey : Type := mkHashKey { Type_ : ObjectType; Value : Z }.

#[global] Instance HashKey_eq_dec : EqDecision HashKey.
Proof. solve_decision. Defined.

(** An [object.Object] is an interface holding a pointer to one of the
    structs below or nil; a possibly nil object is an [option Object].

    Objects are never written to after they are built (the evaluator and
    the built-ins only read [Elements], [Pairs] and the other fields), so an
    object is modelled by its contents.  What the contents do not determine
    is the identity of the pointer, which [==] and [!=] compare: the objects
    the evaluator can compare by pointer carry the address [addr] they were
    allocated at.  [Boolean] and [Null] have none because the evaluator only
    ever hands out the singletons [TRUE], [FALSE] and [NULL]; [Integer],
    [String] and [Error] have none because no comparison by pointer can
    observe theirs.  A [Builtin] is the entry of the built-ins table with
    that name (the table holds one [*object.Builtin] per name).  An
    [*object.Environment] is the address of the environment in the state.
    [Pairs] keeps one pair per hash key. *)
Inductive Object : Type :=
| Integer (Value : Z)
| Boolean (Value : bool)
| Null
| ReturnValue (addr : nat) (Value : option Object)
| Error (Message : string)
| Function (addr : nat) (Parameters : list string) (Body : ast.BlockStatement) (Env : nat)
| String (Value : string)
| Builtin (name : string)
| Array (addr : nat) (Elements : list (option Object))
| Hash (addr : nat) (Pairs : list (HashKey * (option Object * option Object))).

(** [HashPair{Key, Value}] *)
Definition HashPair : Type := (option Object * option Object)%type.
Definition Key (p : HashPair) : option Object := fst p.
Definition PairValue (p : HashPair) : option Object := snd p.

(** The method [Type()]. *)
Definition TypeOf (o : Object) : ObjectType :=
  match o with
  | Integer _ => INTEGER_OBJ
  | Boolean _ => BOOLEAN_OBJ
  | Null => NULL_OBJ
  | ReturnValue _ _ => RETURN_VALUE_OBJ
  | Error _ => ERROR_OBJ
  | Function _ _ _ _ => FUNCTION_OBJ
  | String _ => STRING_OBJ
  | Builtin _ => BUILTIN_OBJ
  | Array _ _ => ARRAY_OBJ
  | Hash _ _ => HASH_OBJ
  end.

(** *** The hashable-key protocol *)

Definition Integer_HashKey (value : Z) : HashKey :=
  {| Type_ := INTEGER_OBJ; Value := go.uint64 value |}.

Definition Boolean_HashKey (b : bool) : HashKey :=
  let value := if b then 1%Z else 0%Z in
  {| Type_ := BOOLEAN_OBJ; Value := value |}.

Definition String_HashKey (s : string) : HashKey :=
  let h := go.New64 in
  let h := go.Write h (go.bytes s) in
  {| Type_ := STRING_OBJ; Value := go.Sum64 h |}.

(** The type assertion [key.(object.Hashable)] followed by [HashKey()]:
    [None] when the object does not implement [Hashable] (or is nil). *)
Definition Hashable (o : option Object) : option HashKey :=
  match o with
  | Some (Integer v) => Some (Integer_HashKey v)
  | Some (Boolean b) => Some (Boolean_HashKey b)
  | Some (String s) => Some (String_HashKey s)
  | _ => None
  end.

(** [pairs[k]], and [pairs[k] = p] on a [map[HashKey]HashPair]. *)
Fixpoint pairsLookup (k : HashKey) (pairs : list (HashKey * HashPair)) : option HashPair :=
  match pairs with
  | [] => None
  | (k', p) :: rest => if decide (k = k') then Some p else pairsLookup k rest
  end.

Fixpoint pairsInsert (k : HashKey) (p : HashPair) (pairs : list (HashKey * HashPair))
    : list (HashKey * HashPair) :=
  match pairs with
  | [] => [(k, p)]
  | (k', p') :: rest =>
      if decide (k = k') then (k, p) :: rest else (k', p') :: pairsInsert k p rest
  end.

(** *** Inspect *)

Fixpoint sequence {A} (l : list (go.Res A)) : go.Res (list A) :=
  match l with
  | [] => go.Ok []
  | r :: rest =>
      match r with
      | go.Ok a =>
          match sequence rest with
          | go.Ok l' => go.Ok (a :: l')
          | go.Panic why => go.Panic why
          | go.OutOfFuel => go.OutOfFuel
          end
      | go.Panic why => go.Panic why
      | go.OutOfFuel => go.OutOfFuel
      end
  end.

Section Inspect.

(** The method [String] of [ast.BlockStatement], of the package that is not among the
    sources. *)
Variable BlockStatement_String : ast.BlockStatement -> string.

(** The order in which [range] visits the entries of a map, which Go
    leaves unspecified. *)
Variable order : forall X : Type, list X -> list X.

(** Calling [Inspect] through a nil interface panics; so does a
    [ReturnValue], an [Array] or a [Hash] that holds a nil object. *)
Fixpoint Inspect (o : Object) : go.Res string :=
  match o with
  | Integer v => go.Ok (go.Sprintf "%d" [go.ArgInt v])
  | Boolean b => go.Ok (if b then "true" else "false")
  | Null => go.Ok "null"
  | ReturnValue _ v =>
      match v with
      | Some v => Inspect v
      | None => go.Panic go.nilDereference
      end
  | Error m => go.Ok ("ERROR: " +:+ m)
  | Function _ params body _ =>
      go.Ok ("fn" +:+ "(" +:+ go.Join params ", " +:+ ")" +:+ " {" +:+ go.newline
             +:+ BlockStatement_String body +:+ go.newline +:+ "}")
  | String v => go.Ok v
  | Builtin _ => go.Ok "builtin function"
  | Array _ elements =>
      let rendered :=
        (fix each (l : list (option Object)) : list (go.Res string) :=
           match l with
           | [] => []
           | Some e :: l' => Inspect e :: each l'
           | None :: l' => go.Panic go.nilDereference :: each l'
           end) elements in
      match sequence rendered with
      | go.Ok elements => go.Ok ("[" +:+ go.Join elements ", " +:+ "]")
      | go.Panic why => go.Panic why
      | go.OutOfFuel => go.OutOfFuel
      end
  | Hash _ pairs =>
      let rendered :=
        (fix each (l : list (HashKey * HashPair)) : list (go.Res string) :=
           match l with
           | [] => []
           | (_, (Some k, Some v)) :: l' =>
               match Inspect k, Inspect v with
               | go.Ok sk, go.Ok sv => go.Ok (sk +:+ ":" +:+ sv)
               | go.Panic why, _ => go.Panic why
               | _, go.Panic why => go.Panic why
               | _, _ => go.OutOfFuel
               end :: each l'
           | _ :: l' => go.Panic go.nilDereference :: each l'
           end) pairs in
      match sequence (order _ rendered) with
      | go.Ok pairs => go.Ok ("{" +:+ go.Join pairs ", " +:+ "}")
      | go.Panic why => go.Panic why
      | go.OutOfFuel => go.OutOfFuel
      end
  end.

End Inspect.

(** *** Environments and the state of the interpreter *)

Record Environment : Type := mkEnvironment {
  store : gmap string (option Object);
  outer : option nat
}.

(** What the evaluator allocates, reads and writes: the environments (an
    [*Environment] is an index in [envs]), the next free address for
    objects, the number of [range] loops over maps run so far, and the
    lines written to standard output. *)
Record State : Type := mkState {
  envs : list Environment;
  nextAddr : nat;
  ranges : nat;
  stdout : list string
}.

Definition emptyState : State :=
  {| envs := []; nextAddr := 0; ranges := 0; stdout := [] |}.

Definition setEnvs (st : State) (envs' : list Environment) : State :=
  {| envs := envs'; nextAddr := nextAddr st; ranges := ranges st; stdout := stdout st |}.

(** [&object.T{...}]: a fresh address. *)
Definition alloc : go.M State nat :=
  fun st => go.Ok (nextAddr st,
    {| envs := envs st; nextAddr := S (nextAddr st); ranges := ranges st; stdout := stdout st |}).

(** A [range] over a map is about to run: its number. *)
Definition nextRange : go.M State nat :=
  fun st => go.Ok (ranges st,
    {| envs := envs st; nextAddr := nextAddr st; ranges := S (ranges st); stdout := stdout st |}).

Definition Println (line : string) : go.M State unit :=
  fun st => go.Ok (tt,
    {| envs := envs st; nextAddr := nextAddr st; ranges := ranges st;
       stdout := stdout st ++ [line] |}).

Definition NewEnvironment : go.M State nat :=
  fun st =>
    let s : gmap string (option Object) := ∅ in
    go.Ok (length (envs st), setEnvs st (envs st ++ [{| store := s; outer := None |}])).

Definition setOuter (e : nat) (outerEnv : option nat) : go.M State unit :=
  fun st =>
    match envs st !! e with
    | Some env =>
        go.Ok (tt, setEnvs st (<[e := {| store := store env; outer := outerEnv |}]> (envs st)))
    | None => go.Panic go.nilDereference
    end.

Definition NewEnclosedEnvironment (outerEnv : option nat) : go.M State nat :=
  let! env := NewEnvironment in
  run! setOuter env outerEnv in
  go.ret env.

(** [obj, ok := m[key]] *)
Definition storeLookup (m : gmap string (option Object)) (key : string) : option Object * bool :=
  match m !! key with
  | Some obj => (obj, true)
  | None => (None, false)
  end.

(** [Get] follows the [outer] pointers; [fuel] bounds the number of
    environments it may visit. *)
Fixpoint Get (fuel : nat) (h : list Environment) (e : nat) (key : string)
    : go.Res (option Object * bool) :=
  match fuel with
  | O => go.OutOfFuel
  | S fuel' =>
      match h !! e with
      | None => go.Panic go.nilDereference
      | Some env =>
          let '(obj, ok) := storeLookup (store env) key in
          match negb ok, outer env with
          | true, Some o => Get fuel' h o key
          | _, _ => go.Ok (obj, ok)
          end
      end
  end.

Definition Set_ (e : nat) (key : string) (val : option Object) : go.M State (option Object) :=
  fun st =>
    match envs st !! e with
    | Some env =>
        go.Ok (val, setEnvs st
          (<[e := {| store := <[key := val]> (store env); outer := outer env |}]> (envs st)))
    | None => go.Panic go.nilDereference
    end.

Definition IsKey (fuel : nat) (h : list Environment) (e : nat) (key : string) : go.Res bool :=
  match h !! e with
  | None => go.Panic go.nilDereference
  | Some env =>
      let '(_, ok) := storeLookup (store env) key in
      match negb ok, outer env with
      | true, Some o =>
          match Get fuel h o key with
          | go.Ok (_, ok) => go.Ok ok
          | go.Panic why => go.Panic why
          | go.OutOfFuel => go.OutOfFuel
          end
      | _, _ => go.Ok ok
      end
  end.

End object.

(* ===================================================================== *)
(** ** package parser                                                     *)
(* ===================================================================== *)

Module parser.

Definition LOWEST : Z := 1.
Definition EQUALS : Z := 2.
Definition LESSGREATER : Z := 3.
Definition SUM : Z := 4.
Definition PRODUCT : Z := 5.
Definition PREFIX : Z := 6.
Definition CALL : Z := 7.
Definition INDEX : Z := 8.

Definition precedences : gmap token.TokenType Z :=
  <[token.ASSIGN := EQUALS]> (<[token.EQ := EQUALS]> (<[token.NOT_EQ := EQUALS]>
  (<[token.LT := LESSGREATER]> (<[token.GT := LESSGREATER]>
  (<[token.PLUS := SUM]> (<[token.MINUS := SUM]>
  (<[token.SLASH := PRODUCT]> (<[token.ASTERISK := PRODUCT]>
  (<[token.LPAREN := CALL]> (<[token.LBRACKET := INDEX]> ∅)))))))))).

(** Modelled from the spec: the lexer, whose package is not among the
    sources.  The parser only calls [NextToken]; the lexer is the stream of
    tokens still to be delivered, and at the end of the input [NextToken]
    answers [EOF], repeatedly. *)
Definition Lexer : Type := list token.Token.

Definition NextToken (l : Lexer) : token.Token * Lexer :=
  match l with
  | [] => ({| token.Type_ := token.EOF; token.Literal := "" |}, [])
  | t :: l' => (t, l')
  end.

(** The struct [Parser] without its two tables of parselets, which are
    [prefixParseFns] and [infixParseFns] below. *)
Record Parser : Type := mkParser {
  lex : Lexer;
  currToken : token.Token;
  peekToken : token.Token;
  errors : list string
}.

Definition P (A : Type) : Type := go.M Parser A.

Definition appendError (msg : string) : P unit :=
  fun p => go.Ok (tt,
    {| lex := lex p; currToken := currToken p; peekToken := peekToken p;
       errors := errors p ++ [msg] |}).

Definition Errors (p : Parser) : list string := errors p.

Definition peekTokenIs (t : token.TokenType) : P bool :=
  fun p => go.Ok (bool_decide (token.Type_ (peekToken p) = t), p).

Definition curTokenIs (t : token.TokenType) : P bool :=
  fun p => go.Ok (bool_decide (token.Type_ (currToken p) = t), p).

Definition nextToken : P unit :=
  fun p =>
    let '(tok, lex') := NextToken (lex p) in
    go.Ok (tt, {| lex := lex'; currToken := peekToken p; peekToken := tok;
                  errors := errors p |}).

Definition peekError (t : token.TokenType) : P unit :=
  let! p := go.get in
  appendError (go.Sprintf "Expected next token to be %s, but got %s instead"
                 [go.ArgString t; go.ArgString (token.Type_ (peekToken p))]).

Definition expectPeek (t : token.TokenType) : P bool :=
  let! found := peekTokenIs t in
  if found then
    run! nextToken in
    go.ret true
  else
    run! peekError t in
    go.ret false.

Definition noPrefixParseFnError (t : token.Token) : P unit :=
  appendError (go.Sprintf "no prefix parse function for token %s `%s` found"
                 [go.ArgString (token.Type_ t); go.ArgString (token.Literal t)]).

Definition peekPrecedence : P Z :=
  let! p := go.get in
  match precedences !! token.Type_ (peekToken p) with
  | Some prec => go.ret prec
  | None => go.ret LOWEST
  end.

Definition currPrecedence : P Z :=
  let! p := go.get in
  match precedences !! token.Type_ (currToken p) with
  | Some prec => go.ret prec
  | None => go.ret LOWEST
  end.

Definition currLiteral : P string :=
  let! p := go.get in go.ret (token.Literal (currToken p)).

Definition prefixParseFn : Type := P (option ast.Expression).
Definition infixParseFn : Type := option ast.Expression -> P (option ast.Expression).

Definition registerPrefix (tok : token.TokenType) (fn : prefixParseFn)
    (fns : gmap token.TokenType prefixParseFn) : gmap token.TokenType prefixParseFn :=
  <[tok := fn]> fns.

Definition registerInfix (tok : token.TokenType) (fn : infixParseFn)
    (fns : gmap token.TokenType infixParseFn) : gmap token.TokenType infixParseFn :=
  <[tok := fn]> fns.

(** The parselets call [parseExpression] and [parseStatement], which call
    the parselets.  In this section both are given; [fuel] bounds the
    number of iterations of each [for] loop. *)
Section Parselets.

Variable fuel : nat.
Variable parseExpression : Z -> P (option ast.Expression).
Variable parseStatement : P (option ast.Statement).

Definition parseLetStatement : P ast.Statement :=
  let! ok := expectPeek token.IDENT in
  if negb ok then go.ret ast.NilLetStatement else
  let! name := currLiteral in
  let! ok := expectPeek token.ASSIGN in
  if negb ok then go.ret ast.NilLetStatement else
  run! nextToken in
  let! value := parseExpression LOWEST in
  let! semi := peekTokenIs token.SEMICOLON in
  run! (if semi then nextToken else go.ret tt) in
  go.ret (ast.LetStatement name value).

Definition parseReturnStatement : P ast.Statement :=
  run! nextToken in
  let! value := parseExpression LOWEST in
  let! semi := peekTokenIs token.SEMICOLON in
  run! (if semi then nextToken else go.ret tt) in
  go.ret (ast.ReturnStatement value).

Definition parseExpressionStatement : P ast.Statement :=
  let! expression := parseExpression LOWEST in
  let! semi := peekTokenIs token.SEMICOLON in
  run! (if semi then nextToken else go.ret tt) in
  go.ret (ast.ExpressionStatement expression).

Definition parseStatement_body : P (option ast.Statement) :=
  let! p := go.get in
  let t := token.Type_ (currToken p) in
  if bool_decide (t = token.LET) then
    let! s := parseLetStatement in go.ret (Some s)
  else if bool_decide (t = token.RETURN) then
    let! s := parseReturnStatement in go.ret (Some s)
  else
    let! s := parseExpressionStatement in go.ret (Some s).

Definition parseInfixExpression (left : option ast.Expression) : P (option ast.Expression) :=
  let! operator := currLiteral in
  let! precedence := currPrecedence in
  run! nextToken in
  let! right := parseExpression precedence in
  go.ret (Some (ast.InfixExpression operator left right)).

Definition parseIdentifier : P (option ast.Expression) :=
  let! value := currLiteral in
  go.ret (Some (ast.Identifier value)).

Definition parseIntegerLiteral : P (option ast.Expression) :=
  let! literal := currLiteral in
  match go.ParseInt literal with
  | None =>
      run! appendError (go.Sprintf "Could not parse %q as integer" [go.ArgString literal]) in
      go.ret None
  | Some value => go.ret (Some (ast.IntegerLiteral value))
  end.

Definition parsePrefixExpression : P (option ast.Expression) :=
  let! operator := currLiteral in
  run! nextToken in
  let! right := parseExpression PREFIX in
  go.ret (Some (ast.PrefixExpression operator right)).

Definition parseBoolean : P (option ast.Expression) :=
  let! value := curTokenIs token.TRUE in
  go.ret (Some (ast.Boolean value)).

Definition parseGroupedExpression : P (option ast.Expression) :=
  run! nextToken in
  let! expression := parseExpression LOWEST in
  let! ok := expectPeek token.RPAREN in
  if negb ok then go.ret None else
  go.ret expression.

Fixpoint parseBlockStatement_loop (n : nat) (statements : list ast.Statement)
    : P (list ast.Statement) :=
  match n with
  | O => go.outOfFuel
  | S n' =>
      let! rbrace := curTokenIs token.RBRACE in
      let! eof := curTokenIs token.EOF in
      if negb rbrace && negb eof then
        let! stmt := parseStatement in
        let statements :=
          match stmt with
          | Some stmt => statements ++ [stmt]
          | None => statements
          end in
        run! nextToken in
        parseBlockStatement_loop n' statements
      else go.ret statements
  end.

Definition parseBlockStatement : P ast.BlockStatement :=
  run! nextToken in
  let! statements := parseBlockStatement_loop fuel [] in
  go.ret (ast.Block statements).

Definition parseIfExpression : P (option ast.Expression) :=
  let! ok := expectPeek token.LPAREN in
  if negb ok then go.ret None else
  run! nextToken in
  let! condition := parseExpression LOWEST in
  let! ok := expectPeek token.RPAREN in
  if negb ok then go.ret None else
  let! ok := expectPeek token.LBRACE in
  if negb ok then go.ret None else
  let! consequence := parseBlockStatement in
  let! els := peekTokenIs token.ELSE in
  if els then
    run! nextToken in
    let! ok := expectPeek token.LBRACE in
    if negb ok then go.ret None else
    let! alternative := parseBlockStatement in
    go.ret (Some (ast.IfExpression condition consequence (Some alternative)))
  else
    go.ret (Some (ast.IfExpression condition consequence None)).

Fixpoint parseFunctionParameters_loop (n : nat) (idents : list string) : P (list string) :=
  match n with
  | O => go.outOfFuel
  | S n' =>
      let! comma := peekTokenIs token.COMMA in
      if comma then
        run! nextToken in
        run! nextToken in
        let! ident := currLiteral in
        parseFunctionParameters_loop n' (idents ++ [ident])
      else go.ret idents
  end.

(** The result is a slice; the nil slice returned after a failed
    [expectPeek] is the empty list. *)
Definition parseFunctionParameters : P (list string) :=
  let! rparen := peekTokenIs token.RPAREN in
  if rparen then
    run! nextToken in
    go.ret []
  else
    run! nextToken in
    let! ident := currLiteral in
    let! idents := parseFunctionParameters_loop fuel [ident] in
    let! ok := expectPeek token.RPAREN in
    if negb ok then go.ret [] else
    go.ret idents.

Definition parseFunctionLiteral : P (option ast.Expression) :=
  let! ok := expectPeek token.LPAREN in
  if negb ok then go.ret None else
  let! parameters := parseFunctionParameters in
  let! ok := expectPeek token.LBRACE in
  if negb ok then go.ret None else
  let! body := parseBlockStatement in
  go.ret (Some (ast.FunctionLiteral parameters body)).

Fixpoint parseExpressionList_loop (n : nat) (elements : list (option ast.Expression))
    : P (list (option ast.Expression)) :=
  match n with
  | O => go.outOfFuel
  | S n' =>
      let! comma := peekTokenIs token.COMMA in
      if comma then
        run! nextToken in
        run! nextToken in
        let! e := parseExpression LOWEST in
        parseExpressionList_loop n' (elements ++ [e])
      else go.ret elements
  end.

Definition parseExpressionList (endToken : token.TokenType) : P (list (option ast.Expression)) :=
  let! isEnd := peekTokenIs endToken in
  if isEnd then
    run! nextToken in
    go.ret []
  else
    run! nextToken in
    let! e := parseExpression LOWEST in
    let! elements := parseExpressionList_loop fuel [e] in
    let! ok := expectPeek endToken in
    if negb ok then go.ret [] else
    go.ret elements.

Definition parseCallExpression (fn : option ast.Expression) : P (option ast.Expression) :=
  let! arguments := parseExpressionList token.RPAREN in
  go.ret (Some (ast.CallExpression fn arguments)).

Definition parseStringLiteral : P (option ast.Expression) :=
  let! value := currLiteral in
  go.ret (Some (ast.StringLiteral value)).

Definition parseArrayLiteral : P (option ast.Expression) :=
  let! elements := parseExpressionList token.RBRACKET in
  go.ret (Some (ast.ArrayLiteral elements)).

Definition parseIndexExpression (left : option ast.Expression) : P (option ast.Expression) :=
  run! nextToken in
  let! index := parseExpression LOWEST in
  let! ok := expectPeek token.RBRACKET in
  if negb ok then go.ret None else
  go.ret (Some (ast.IndexExpression left index)).

(** The type assertion of [left] to a pointer to [ast.Identifier] is the
    form without the [ok] result: it panics when [left] is nil or any other
    kind of node. *)
Definition parseAssignExpression (left : option ast.Expression) : P (option ast.Expression) :=
  match left with
  | Some (ast.Identifier ident) =>
      run! nextToken in
      let! value := parseExpression LOWEST in
      go.ret (Some (ast.AssignmentExpression ident value))
  | _ => go.panic go.interfaceConversion
  end.

Fixpoint parseHashLiteral_loop (n : nat) (pairs : list (option ast.Expression * option ast.Expression))
    : P (option (list (option ast.Expression * option ast.Expression))) :=
  match n with
  | O => go.outOfFuel
  | S n' =>
      let! rbrace := peekTokenIs token.RBRACE in
      if negb rbrace then
        run! nextToken in
        let! hashKey := parseExpression LOWEST in
        let! ok := expectPeek token.COLON in
        if negb ok then go.ret None else
        run! nextToken in
        let! hashVal := parseExpression LOWEST in
        let pairs := ast.pairsInsert hashKey hashVal pairs in
        let! rbrace := peekTokenIs token.RBRACE in
        let! ok := (if negb rbrace then expectPeek token.COMMA else go.ret true) in
        if negb ok then go.ret None else
        parseHashLiteral_loop n' pairs
      else go.ret (Some pairs)
  end.

Definition parseHashLiteral : P (option ast.Expression) :=
  let! pairs := parseHashLiteral_loop fuel [] in
  match pairs with
  | None => go.ret None
  | Some pairs =>
      let! ok := expectPeek token.RBRACE in
      if negb ok then go.ret None else
      go.ret (Some (ast.HashLiteral pairs))
  end.

(** The two tables [New] fills. *)
Definition prefixParseFns : gmap token.TokenType prefixParseFn :=
  registerPrefix token.LBRACE parseHashLiteral
  (registerPrefix token.LBRACKET parseArrayLiteral
  (registerPrefix token.STRING parseStringLiteral
  (registerPrefix token.FUNCTION parseFunctionLiteral
  (registerPrefix token.IF parseIfExpression
  (registerPrefix token.LPAREN parseGroupedExpression
  (registerPrefix token.FALSE parseBoolean
  (registerPrefix token.TRUE parseBoolean
  (registerPrefix token.MINUS parsePrefixExpression
  (registerPrefix token.BANG parsePrefixExpression
  (registerPrefix token.INT parseIntegerLiteral
  (registerPrefix token.IDENT parseIdentifier ∅))))))))))).

Definition infixParseFns : gmap token.TokenType infixParseFn :=
  registerInfix token.LBRACKET parseIndexExpression
  (registerInfix token.LPAREN parseCallExpression
  (registerInfix token.GT parseInfixExpression
  (registerInfix token.LT parseInfixExpression
  (registerInfix token.NOT_EQ parseInfixExpression
  (registerInfix token.ASSIGN parseAssignExpression
  (registerInfix token.EQ parseInfixExpression
  (registerInfix token.ASTERISK parseInfixExpression
  (registerInfix token.SLASH parseInfixExpression
  (registerInfix token.MINUS parseInfixExpression
  (registerInfix token.PLUS parseInfixExpression ∅)))))))))).

Fixpoint parseExpression_loop (n : nat) (precedence : Z) (leftExp : option ast.Expression)
    : P (option ast.Expression) :=
  match n with
  | O => go.outOfFuel
  | S n' =>
      let! semi := peekTokenIs token.SEMICOLON in
      let! peekPrec := peekPrecedence in
      if negb semi && (precedence <? peekPrec)%Z then
        let! p := go.get in
        match infixParseFns !! token.Type_ (peekToken p) with
        | None => go.ret leftExp
        | Some infix =>
            run! nextToken in
            let! leftExp := infix leftExp in
            parseExpression_loop n' precedence leftExp
        end
      else go.ret leftExp
  end.

Definition parseExpression_body (precedence : Z) : P (option ast.Expression) :=
  let! p := go.get in
  match prefixParseFns !! token.Type_ (currToken p) with
  | None =>
      run! noPrefixParseFnError (currToken p) in
      go.ret None
  | Some prefix =>
      let! leftExp := prefix in
      parseExpression_loop fuel precedence leftExp
  end.

End Parselets.

Fixpoint parseExpression (fuel : nat) (precedence : Z) : P (option ast.Expression) :=
  match fuel with
  | O => go.outOfFuel
  | S fuel' =>
      parseExpression_body fuel' (parseExpression fuel')
        (parseStatement_body (parseExpression fuel')) precedence
  end.

Definition parseStatement (fuel : nat) : P (option ast.Statement) :=
  parseStatement_body (parseExpression fuel).

Fixpoint ParseProgram_loop (fuel n : nat) (statements : list ast.Statement)
    : P (list ast.Statement) :=
  match n with
  | O => go.outOfFuel
  | S n' =>
      let! eof := curTokenIs token.EOF in
      if negb eof then
        let! stmt := parseStatement fuel in
        let statements :=
          match stmt with
          | Some stmt => statements ++ [stmt]
          | None => statements
          end in
        run! nextToken in
        ParseProgram_loop fuel n' statements
      else go.ret statements
  end.

Definition ParseProgram (fuel : nat) : P ast.Program :=
  let! statements := ParseProgram_loop fuel fuel [] in
  go.ret (ast.mkProgram statements).

(** [New]: the zero parser on [lex], primed by reading two tokens. *)
Definition New (lex : Lexer) : go.Res Parser :=
  let zero := {| token.Type_ := ""; token.Literal := "" |} in
  let parser := {| lex := lex; currToken := zero; peekToken := zero; errors := [] |} in
  match (run! nextToken in nextToken) parser with
  | go.Ok (_, parser) => go.Ok parser
  | go.Panic why => go.Panic why
  | go.OutOfFuel => go.OutOfFuel
  end.

(** What the tests and the REPL do with a token stream: [New], then
    [ParseProgram]; the result is the program and the parser's errors. *)
Definition parse (fuel : nat) (lex : Lexer) : go.Res (ast.Program * list string) :=
  match New lex with
  | go.Ok parser =>
      match ParseProgram fuel parser with
      | go.Ok (program, parser) => go.Ok (program, Errors parser)
      | go.Panic why => go.Panic why
      | go.OutOfFuel => go.OutOfFuel
      end
  | go.Panic why => go.Panic why
  | go.OutOfFuel => go.OutOfFuel
  end.

End parser.

(* ===================================================================== *)
(** ** package evaluator                                                  *)
(* ===================================================================== *)

Module evaluator.

Definition NULL : object.Object := object.Null.
Definition TRUE : object.Object := object.Boolean true.
Definition FALSE : object.Object := object.Boolean false.

(** Code of the evaluator: it runs on the state of the interpreter. *)
Definition E (A : Type) : Type := go.M object.State A.

Definition newError (format : string) (a : list go.Arg) : object.Object :=
  object.Error (go.Sprintf format a).

Definition isError (obj : option object.Object) : bool :=
  match obj with
  | Some o => bool_decide (object.TypeOf o = object.ERROR_OBJ)
  | None => false
  end.

(** [obj.Type()] on an interface value: a nil interface panics. *)
Definition typeOf (obj : option object.Object) : E object.ObjectType :=
  match obj with
  | Some o => go.ret (object.TypeOf o)
  | None => go.panic go.nilDereference
  end.

Definition nativeBoolToBooleanObject (input : bool) : object.Object :=
  if input then TRUE else FALSE.

(** [left == right] on two interface values: same dynamic type and same
    pointer.  Where the model records no address ([Integer], [String],
    [Error]) the answer is [false]; [evalInfixExpression] compares by
    pointer only operands that are not both [Integer] and not both
    [String], and never an [Error]. *)
Definition sameObject (left right : option object.Object) : bool :=
  match left, right with
  | None, None => true
  | Some (object.Boolean a), Some (object.Boolean b) => bool_decide (a = b)
  | Some object.Null, Some object.Null => true
  | Some (object.ReturnValue a _), Some (object.ReturnValue b _) => bool_decide (a = b)
  | Some (object.Function a _ _ _), Some (object.Function b _ _ _) => bool_decide (a = b)
  | Some (object.Builtin a), Some (object.Builtin b) => bool_decide (a = b)
  | Some (object.Array a _), Some (object.Array b _) => bool_decide (a = b)
  | Some (object.Hash a _), Some (object.Hash b _) => bool_decide (a = b)
  | _, _ => false
  end.

Definition evalBangOperatorExpression (right : option object.Object) : object.Object :=
  match right with
  | Some (object.Boolean true) => FALSE
  | Some (object.Boolean false) => TRUE
  | Some object.Null => TRUE
  | _ => FALSE
  end.

Definition evalMinusPrefixOperator (right : option object.Object) : E (option object.Object) :=
  let! t := typeOf right in
  if negb (bool_decide (t = object.INTEGER_OBJ)) then
    go.ret (Some (newError "unknown operator: -%s" [go.ArgString t]))
  else
    match right with
    | Some (object.Integer value) => go.ret (Some (object.Integer (go.wrapInt64 (- value))))
    | _ => go.panic go.interfaceConversion
    end.

Definition evalPrefixExpression (operator : string) (right : option object.Object)
    : E (option object.Object) :=
  if bool_decide (operator = "!") then go.ret (Some (evalBangOperatorExpression right))
  else if bool_decide (operator = "-") then evalMinusPrefixOperator right
  else
    let! t := typeOf right in
    go.ret (Some (newError "unknown operator: %s%s" [go.ArgString operator; go.ArgString t])).

Definition unknownOperator (operator : string) (left right : option object.Object)
    : E (option object.Object) :=
  let! lt := typeOf left in
  let! rt := typeOf right in
  go.ret (Some (newError "unknown operator: %s %s %s"
                  [go.ArgString lt; go.ArgString operator; go.ArgString rt])).

Definition evalIntegerInfixExpression (operator : string) (left right : option object.Object)
    : E (option object.Object) :=
  match left, right with
  | Some (object.Integer leftVal), Some (object.Integer rightVal) =>
      if bool_decide (operator = "+") then
        go.ret (Some (object.Integer (go.wrapInt64 (leftVal + rightVal))))
      else if bool_decide (operator = "-") then
        go.ret (Some (object.Integer (go.wrapInt64 (leftVal - rightVal))))
      else if bool_decide (operator = "*") then
        go.ret (Some (object.Integer (go.wrapInt64 (leftVal * rightVal))))
      else if bool_decide (operator = "/") then
        let! q := go.lift (go.divInt64 leftVal rightVal) in
        go.ret (Some (object.Integer q))
      else if bool_decide (operator = ">") then
        go.ret (Some (nativeBoolToBooleanObject (rightVal <? leftVal)%Z))
      else if bool_decide (operator = "<") then
        go.ret (Some (nativeBoolToBooleanObject (leftVal <? rightVal)%Z))
      else if bool_decide (operator = "==") then
        go.ret (Some (nativeBoolToBooleanObject (leftVal =? rightVal)%Z))
      else if bool_decide (operator = "!=") then
        go.ret (Some (nativeBoolToBooleanObject (negb (leftVal =? rightVal)%Z)))
      else unknownOperator operator left right
  | _, _ => go.panic go.interfaceConversion
  end.

Definition evalStringInfixExpression (operator : string) (left right : option object.Object)
    : E (option object.Object) :=
  if negb (bool_decide (operator = "+")) then unknownOperator operator left right
  else
    match left, right with
    | Some (object.String leftStr), Some (object.String rightStr) =>
        go.ret (Some (object.String (leftStr +:+ rightStr)))
    | _, _ => go.panic go.interfaceConversion
    end.

(** [left.Type() == t && right.Type() == t], with Go's short circuit. *)
Definition bothOfType (t : object.ObjectType) (left right : option object.Object) : E bool :=
  let! lt := typeOf left in
  if bool_decide (lt = t) then
    let! rt := typeOf right in
    go.ret (bool_decide (rt = t))
  else go.ret false.

Definition evalInfixExpression (operator : string) (left right : option object.Object)
    : E (option object.Object) :=
  let! integers := bothOfType object.INTEGER_OBJ left right in
  if integers then evalIntegerInfixExpression operator left right else
  let! strings := bothOfType object.STRING_OBJ left right in
  if strings then evalStringInfixExpression operator left right else
  if bool_decide (operator = "==") then
    go.ret (Some (nativeBoolToBooleanObject (sameObject left right)))
  else if bool_decide (operator = "!=") then
    go.ret (Some (nativeBoolToBooleanObject (negb (sameObject left right))))
  else
    let! lt := typeOf left in
    let! rt := typeOf right in
    if negb (bool_decide (lt = rt)) then
      go.ret (Some (newError "type mismatch: %s %s %s"
                      [go.ArgString lt; go.ArgString operator; go.ArgString rt]))
    else
      go.ret (Some (newError "unknown operator: %s %s %s"
                      [go.ArgString lt; go.ArgString operator; go.ArgString rt])).

Definition isTruthy (obj : option object.Object) : bool :=
  match obj with
  | Some object.Null => false
  | Some (object.Boolean true) => true
  | Some (object.Boolean false) => false
  | _ => true
  end.

Definition unwrapReturnValue (obj : option object.Object) : option object.Object :=
  match obj with
  | Some (object.ReturnValue _ value) => value
  | _ => obj
  end.

(** [int] has 64 bits, so [int(idx)] is [idx]. *)
Definition evalArrayIndexExpression (left index : option object.Object)
    : E (option object.Object) :=
  match left, index with
  | Some (object.Array _ arr), Some (object.Integer idx) =>
      let max := (Z.of_nat (length arr) - 1)%Z in
      if (idx <? 0)%Z || (max <? idx)%Z then go.ret (Some NULL)
      else
        match arr !! Z.to_nat idx with
        | Some element => go.ret element
        | None => go.panic go.indexOutOfRange
        end
  | _, _ => go.panic go.interfaceConversion
  end.

Definition evalHashIndexExpression (left index : option object.Object)
    : E (option object.Object) :=
  match left with
  | Some (object.Hash _ pairs) =>
      match object.Hashable index with
      | None =>
          let! t := typeOf index in
          go.ret (Some (newError "unusable as hash key: %s" [go.ArgString t]))
      | Some key =>
          match object.pairsLookup key pairs with
          | None => go.ret (Some NULL)
          | Some hashPair => go.ret (object.PairValue hashPair)
          end
      end
  | _ => go.panic go.interfaceConversion
  end.

Definition evalIndexExpression (left index : option object.Object)
    : E (option object.Object) :=
  let! lt := typeOf left in
  let! arrayAtInteger :=
    (if bool_decide (lt = object.ARRAY_OBJ) then
       let! it := typeOf index in go.ret (bool_decide (it = object.INTEGER_OBJ))
     else go.ret false) in
  if arrayAtInteger then evalArrayIndexExpression left index
  else if bool_decide (lt = object.HASH_OBJ) then evalHashIndexExpression left index
  else go.ret (Some (newError "index operator not supported: %s" [go.ArgString lt])).

Section Eval.

(** The method [String] of [ast.BlockStatement] (package [ast] is not among
    the sources), which [Function.Inspect] calls. *)
Variable BlockStatement_String : ast.BlockStatement -> string.

(** Go does not specify the order in which [range] visits a map:
    [mapOrder n] is the order of the [n]-th such loop of the run. *)
Variable mapOrder : nat -> forall X : Type, list X -> list X.

(** *** builtins.go *)

Definition wrongNumberOfArguments (got want : nat) : object.Object :=
  newError "wrong number of arguments. got=%d, want=%d"
    [go.ArgInt (Z.of_nat got); go.ArgInt (Z.of_nat want)].

Definition builtin_len (args : list (option object.Object)) : E (option object.Object) :=
  if negb (bool_decide (length args = 1)) then
    go.ret (Some (wrongNumberOfArguments (length args) 1))
  else
    match args with
    | Some (object.Array _ elements) :: _ =>
        go.ret (Some (object.Integer (Z.of_nat (length elements))))
    | Some (object.String value) :: _ =>
        go.ret (Some (object.Integer (Z.of_nat (String.length value))))
    | arg :: _ =>
        let! t := typeOf arg in
        go.ret (Some (newError "argument to `len` not supported, got=%s" [go.ArgString t]))
    | [] => go.panic go.indexOutOfRange
    end.

Definition builtin_first (args : list (option object.Object)) : E (option object.Object) :=
  if negb (bool_decide (length args = 1)) then
    go.ret (Some (wrongNumberOfArguments (length args) 1))
  else
    match args with
    | arg :: _ =>
        let! t := typeOf arg in
        if negb (bool_decide (t = object.ARRAY_OBJ)) then
          go.ret (Some (newError "argument to `first` must be an ARRAY, got=%s" [go.ArgString t]))
        else
          match arg with
          | Some (object.Array _ elements) =>
              match elements with
              | e :: _ => go.ret e
              | [] => go.ret (Some NULL)
              end
          | _ => go.panic go.interfaceConversion
          end
    | [] => go.panic go.indexOutOfRange
    end.

Definition builtin_last (args : list (option object.Object)) : E (option object.Object) :=
  if negb (bool_decide (length args = 1)) then
    go.ret (Some (wrongNumberOfArguments (length args) 1))
  else
    match args with
    | arg :: _ =>
        let! t := typeOf arg in
        if negb (bool_decide (t = object.ARRAY_OBJ)) then
          go.ret (Some (newError "argument to `last` must be an ARRAY, got=%s" [go.ArgString t]))
        else
          match arg with
          | Some (object.Array _ elements) =>
              let length := length elements in
              if bool_decide (0 < length) then
                match elements !! (length - 1) with
                | Some e => go.ret e
                | None => go.panic go.indexOutOfRange
                end
              else go.ret (Some NULL)
          | _ => go.panic go.interfaceConversion
          end
    | [] => go.panic go.indexOutOfRange
    end.

(** [make([]object.Object, n)]: [n] nil objects. *)
Definition make (n : nat) : list (option object.Object) := replicate n None.

(** [copy(dst, src)]: the first [min(len(dst), len(src))] elements of
    [dst] become those of [src]. *)
Definition copy (dst src : list (option object.Object)) : list (option object.Object) :=
  take (length dst) src ++ drop (length src) dst.

Definition builtin_rest (args : list (option object.Object)) : E (option object.Object) :=
  if negb (bool_decide (length args = 1)) then
    go.ret (Some (wrongNumberOfArguments (length args) 1))
  else
    match args with
    | arg :: _ =>
        let! t := typeOf arg in
        if negb (bool_decide (t = object.ARRAY_OBJ)) then
          go.ret (Some (newError "argument to `rest` must be an ARRAY, got=%s" [go.ArgString t]))
        else
          match arg with
          | Some (object.Array _ elements) =>
              let length := length elements in
              if bool_decide (0 < length) then
                let newArr := make (length - 1) in
                let newArr := copy newArr (drop 1 elements) in
                let! addr := object.alloc in
                go.ret (Some (object.Array addr newArr))
              else go.ret (Some NULL)
          | _ => go.panic go.interfaceConversion
          end
    | [] => go.panic go.indexOutOfRange
    end.

Definition builtin_push (args : list (option object.Object)) : E (option object.Object) :=
  if negb (bool_decide (length args = 2)) then
    go.ret (Some (newError "argument to push should be 2" []))
  else
    match args with
    | arg :: x :: _ =>
        let! t := typeOf arg in
        if negb (bool_decide (t = object.ARRAY_OBJ)) then
          go.ret (Some (newError "first argument to `push` must be an ARRAY, got=%s"
                          [go.ArgString t]))
        else
          match arg with
          | Some (object.Array _ elements) =>
              let length := length elements in
              let newArr := make (length + 1) in
              let newArr := copy newArr elements in
              let newArr := <[length := x]> newArr in
              let! addr := object.alloc in
              go.ret (Some (object.Array addr newArr))
          | _ => go.panic go.interfaceConversion
          end
    | _ => go.panic go.indexOutOfRange
    end.

Fixpoint builtin_puts_loop (args : list (option object.Object)) : E unit :=
  match args with
  | [] => go.ret tt
  | arg :: rest =>
      match arg with
      | None => go.panic go.nilDereference
      | Some o =>
          let! n := object.nextRange in
          let! line := go.lift (object.Inspect BlockStatement_String (mapOrder n) o) in
          run! object.Println line in
          builtin_puts_loop rest
      end
  end.

Definition builtin_puts (args : list (option object.Object)) : E (option object.Object) :=
  run! builtin_puts_loop args in
  go.ret (Some NULL).

(** The table [builtins]: the [Fn] of each entry.  The [*object.Builtin]
    stored under [name] is [object.Builtin name]. *)
Definition builtins : gmap string (list (option object.Object) -> E (option object.Object)) :=
  <["len" := builtin_len]> (<["first" := builtin_first]> (<["last" := builtin_last]>
  (<["rest" := builtin_rest]> (<["push" := builtin_push]> (<["puts" := builtin_puts]> ∅))))).

(** *** evaluator.go

    [Eval] and the functions it calls are mutually recursive.  Below,
    [Eval] stands for the recursive calls; [fuel] bounds the number of
    environments a lookup may visit. *)

Variable fuel : nat.
Variable Eval : ast.Node -> nat -> E (option object.Object).

Fixpoint evalProgram_loop (result : option object.Object) (statements : list ast.Statement)
    (env : nat) : E (option object.Object) :=
  match statements with
  | [] => go.ret result
  | stmt :: rest =>
      let! result := Eval (ast.NodeStatement stmt) env in
      match result with
      | Some (object.ReturnValue _ value) => go.ret value
      | Some (object.Error _) => go.ret result
      | _ => evalProgram_loop result rest env
      end
  end.

Definition evalProgram (statements : list ast.Statement) (env : nat) : E (option object.Object) :=
  evalProgram_loop None statements env.

Fixpoint evalStatements_loop (result : option object.Object) (statements : list ast.Statement)
    (env : nat) : E (option object.Object) :=
  match statements with
  | [] => go.ret result
  | stmt :: rest =>
      let! result := Eval (ast.NodeStatement stmt) env in
      match result with
      | Some r =>
          let resultType := object.TypeOf r in
          if bool_decide (resultType = object.RETURN_VALUE_OBJ)
             || bool_decide (resultType = object.ERROR_OBJ)
          then go.ret result
          else evalStatements_loop result rest env
      | None => evalStatements_loop result rest env
      end
  end.

Definition evalStatements (statements : list ast.Statement) (env : nat)
    : E (option object.Object) :=
  evalStatements_loop None statements env.

Definition evalIfExpression (condition : option ast.Expression)
    (consequence : ast.BlockStatement) (alternative : option ast.BlockStatement) (env : nat)
    : E (option object.Object) :=
  let! condition := Eval (ast.ofExpression condition) env in
  if isError condition then go.ret condition else
  if isTruthy condition then Eval (ast.NodeBlock consequence) env
  else
    match alternative with
    | Some alternative => Eval (ast.NodeBlock alternative) env
    | None => go.ret (Some NULL)
    end.

Definition evalIdentifier (name : string) (env : nat) : E (option object.Object) :=
  let! st := go.get in
  let! found := go.lift (object.Get fuel (object.envs st) env name) in
  if snd found then go.ret (fst found) else
  match builtins !! name with
  | Some _ => go.ret (Some (object.Builtin name))
  | None => go.ret (Some (newError ("identifier not found: " +:+ name) []))
  end.

Fixpoint evalExpressions_loop (args : list (option object.Object))
    (exps : list (option ast.Expression)) (env : nat) : E (list (option object.Object)) :=
  match exps with
  | [] => go.ret args
  | arg :: rest =>
      let! evaluated := Eval (ast.ofExpression arg) env in
      if isError evaluated then go.ret (args ++ [evaluated])
      else evalExpressions_loop (args ++ [evaluated]) rest env
  end.

Definition evalExpressions (exps : list (option ast.Expression)) (env : nat)
    : E (list (option object.Object)) :=
  evalExpressions_loop [] exps env.

Fixpoint extendedFunctionEnv_loop (env : nat) (i : nat) (parameters : list string)
    (args : list (option object.Object)) : E unit :=
  match parameters with
  | [] => go.ret tt
  | param :: rest =>
      match args !! i with
      | None => go.panic go.indexOutOfRange
      | Some arg =>
          run! object.Set_ env param arg in
          extendedFunctionEnv_loop env (S i) rest args
      end
  end.

Definition extendedFunctionEnv (parameters : list string) (fnEnv : nat)
    (args : list (option object.Object)) : E nat :=
  let! env := object.NewEnclosedEnvironment (Some fnEnv) in
  run! extendedFunctionEnv_loop env 0 parameters args in
  go.ret env.

Definition applyFunction (fn : option object.Object) (args : list (option object.Object))
    : E (option object.Object) :=
  match fn with
  | Some (object.Function _ parameters body fnEnv) =>
      let! extendedEnv := extendedFunctionEnv parameters fnEnv args in
      let! evaluated := Eval (ast.NodeBlock body) extendedEnv in
      go.ret (unwrapReturnValue evaluated)
  | Some (object.Builtin name) =>
      match builtins !! name with
      | Some Fn => Fn args
      | None => go.panic go.nilDereference
      end
  | _ =>
      let! t := typeOf fn in
      go.ret (Some (newError "not a function: %s" [go.ArgString t]))
  end.

Fixpoint evalHashLiteral_loop (pairs : list (object.HashKey * object.HashPair))
    (nodePairs : list (option ast.Expression * option ast.Expression)) (env : nat)
    : E (option object.Object + list (object.HashKey * object.HashPair)) :=
  match nodePairs with
  | [] => go.ret (inr pairs)
  | (k, v) :: rest =>
      let! key := Eval (ast.ofExpression k) env in
      if isError key then go.ret (inl key) else
      match object.Hashable key with
      | None =>
          let! t := typeOf key in
          go.ret (inl (Some (newError "unusable as hash key %s" [go.ArgString t])))
      | Some hashKey =>
          let! val := Eval (ast.ofExpression v) env in
          if isError val then go.ret (inl val) else
          evalHashLiteral_loop (object.pairsInsert hashKey (key, val) pairs) rest env
      end
  end.

Definition evalHashLiteral (nodePairs : list (option ast.Expression * option ast.Expression))
    (env : nat) : E (option object.Object) :=
  let! hash := object.alloc in
  let! n := object.nextRange in
  let! r := evalHashLiteral_loop [] (mapOrder n _ nodePairs) env in
  match r with
  | inl early => go.ret early
  | inr pairs => go.ret (Some (object.Hash hash pairs))
  end.

Definition Eval_body (node : ast.Node) (env : nat) : E (option object.Object) :=
  match node with
  | ast.NodeNil => go.ret None
  | ast.NodeProgram p => evalProgram (ast.Statements p) env
  | ast.NodeBlock (ast.Block statements) => evalStatements statements env
  | ast.NodeStatement (ast.ExpressionStatement expression) =>
      Eval (ast.ofExpression expression) env
  | ast.NodeStatement (ast.ReturnStatement returnValue) =>
      let! val := Eval (ast.ofExpression returnValue) env in
      if isError val then go.ret val else
      let! addr := object.alloc in
      go.ret (Some (object.ReturnValue addr val))
  | ast.NodeStatement (ast.LetStatement name value) =>
      let! val := Eval (ast.ofExpression value) env in
      if isError val then go.ret val else
      run! object.Set_ env name val in
      go.ret None
  | ast.NodeStatement ast.NilLetStatement => go.panic go.nilDereference
  | ast.NodeExpression (ast.IntegerLiteral value) => go.ret (Some (object.Integer value))
  | ast.NodeExpression (ast.Boolean value) => go.ret (Some (nativeBoolToBooleanObject value))
  | ast.NodeExpression (ast.PrefixExpression operator rightNode) =>
      let! right := Eval (ast.ofExpression rightNode) env in
      if isError right then go.ret right else
      evalPrefixExpression operator right
  | ast.NodeExpression (ast.InfixExpression operator leftNode rightNode) =>
      let! left := Eval (ast.ofExpression leftNode) env in
      if isError left then go.ret left else
      let! right := Eval (ast.ofExpression rightNode) env in
      if isError right then go.ret right else
      evalInfixExpression operator left right
  | ast.NodeExpression (ast.IfExpression condition consequence alternative) =>
      evalIfExpression condition consequence alternative env
  | ast.NodeExpression (ast.Identifier name) => evalIdentifier name env
  | ast.NodeExpression (ast.FunctionLiteral params body) =>
      let! addr := object.alloc in
      go.ret (Some (object.Function addr params body env))
  | ast.NodeExpression (ast.CallExpression function arguments) =>
      let! fn := Eval (ast.ofExpression function) env in
      if isError fn then go.ret fn else
      let! args := evalExpressions arguments env in
      match args with
      | [arg] => if isError arg then go.ret arg else applyFunction fn args
      | _ => applyFunction fn args
      end
  | ast.NodeExpression (ast.StringLiteral value) => go.ret (Some (object.String value))
  | ast.NodeExpression (ast.ArrayLiteral elements) =>
      let! elements := evalExpressions elements env in
      match elements with
      | [element] =>
          if isError element then go.ret element else
          let! addr := object.alloc in
          go.ret (Some (object.Array addr elements))
      | _ =>
          let! addr := object.alloc in
          go.ret (Some (object.Array addr elements))
      end
  | ast.NodeExpression (ast.IndexExpression leftNode indexNode) =>
      let! left := Eval (ast.ofExpression leftNode) env in
      if isError left then go.ret left else
      let! index := Eval (ast.ofExpression indexNode) env in
      if isError index then go.ret index else
      evalIndexExpression left index
  | ast.NodeExpression (ast.AssignmentExpression name value) =>
      let! val := Eval (ast.ofExpression value) env in
      if isError val then go.ret val else
      let! st := go.get in
      let! isKey := go.lift (object.IsKey fuel (object.envs st) env name) in
      if negb isKey then
        go.ret (Some (newError "identifier not found `%s`" [go.ArgString name]))
      else
        run! object.Set_ env name val in
        go.ret None
  | ast.NodeExpression (ast.HashLiteral pairs) => evalHashLiteral pairs env
  end.

End Eval.

Fixpoint Eval (BlockStatement_String : ast.BlockStatement -> string)
    (mapOrder : nat -> forall X : Type, list X -> list X)
    (fuel : nat) (node : ast.Node) (env : nat) : E (option object.Object) :=
  match fuel with
  | O => go.outOfFuel
  | S fuel' =>
      Eval_body BlockStatement_String mapOrder fuel'
        (Eval BlockStatement_String mapOrder fuel') node env
  end.

End evaluator.

(* ===================================================================== *)
(** ** Definitions used to state the properties                           *)
(* ===================================================================== *)

(** One way for Go to range over maps: in insertion order, every time. *)
Definition insertionOrder : nat -> forall X : Type, list X -> list X :=
  fun _ _ l => l.

(** One rendering of blocks: the empty string. *)
Definition noRendering : ast.BlockStatement -> string := fun _ => "".

(** A token. *)
Definition T (t : token.TokenType) (literal : string) : token.Token :=
  {| token.Type_ := t; token.Literal := literal |}.

(** What the REPL does with the tokens of one line: it parses them; if the
    parser reports errors it prints them and evaluates nothing; otherwise it
    evaluates the program in a new environment. *)
Inductive Outcome : Type :=
| ParseErrors (errors : list string)
| Result (value : option object.Object).

Definition evalTokens (BlockStatement_String : ast.BlockStatement -> string)
    (mapOrder : nat -> forall X : Type, list X -> list X)
    (fuel : nat) (tokens : list token.Token) : go.Res Outcome :=
  match parser.parse fuel tokens with
  | go.Ok (program, []) =>
      match (let! env := object.NewEnvironment in
             evaluator.Eval BlockStatement_String mapOrder fuel (ast.NodeProgram program) env)
              object.emptyState with
      | go.Ok (value, _) => go.Ok (Result value)
      | go.Panic why => go.Panic why
      | go.OutOfFuel => go.OutOfFuel
      end
  | go.Ok (_, errors) => go.Ok (ParseErrors errors)
  | go.Panic why => go.Panic why
  | go.OutOfFuel => go.OutOfFuel
  end.

(** The tokens have this outcome: [evalTokens] returns it with some amount
    of fuel and with every larger amount. *)
Definition evaluatesTo (BlockStatement_String : ast.BlockStatement -> string)
    (mapOrder : nat -> forall X : Type, list X -> list X)
    (tokens : list token.Token) (outcome : Outcome) : Prop :=
  exists n : nat, forall m : nat, n <= m ->
    evalTokens BlockStatement_String mapOrder m tokens = go.Ok outcome.

(** The 64-bit FNV-1 hash as its definition gives it: the hash of the
    empty sequence is the offset basis, and appending a byte multiplies the
    hash by the FNV prime (modulo 2^64) and then xors the byte in. *)
Definition fnv1_64 (data : list Z) : Z :=
  fold_right (fun c h => Z.lxor ((h * go.prime64) mod go.two64) c) go.offset64 (rev data).

(** The 64-bit FNV-1a hash: the same with the two steps swapped, the byte
    is xored in first and the result is multiplied by the prime. *)
Definition fnv1a_64 (data : list Z) : Z :=
  fold_right (fun c h => (Z.lxor h c * go.prime64) mod go.two64)%Z go.offset64 (rev data).

(** The values the hashable-key protocol is defined for: the integers of
    int64, the booleans, the strings. *)
Definition hashableValue (v : object.Object) : Prop :=
  match v with
  | object.Integer i => go.isInt64 i
  | object.Boolean _ => True
  | object.String _ => True
  | _ => False
  end.

(** The state of a run that has created its root environment, at address
    0, and nothing else. *)
Definition rootOnly : object.State :=
  {| object.envs := [{| object.store := ∅; object.outer := None |}];
     object.nextAddr := 0; object.ranges := 0; object.stdout := [] |}.

(** The names of the built-in functions. *)
Definition builtinNames : list string := ["len"; "first"; "last"; "rest"; "push"; "puts"].

(** A state with two scopes: the root environment, at address 0, binds
    [x] to 1; the environment at address 1 is enclosed in it and binds
    nothing.  This is the state in which the body of [f] runs in
    [let x = 1; let f = fn() { ... }; f()], up to the binding of [f]. *)
Definition twoScopes : object.State :=
  {| object.envs :=
       [{| object.store := <["x" := Some (object.Integer 1)]> ∅; object.outer := None |};
        {| object.store := ∅; object.outer := Some 0 |}];
     object.nextAddr := 0; object.ranges := 0; object.stdout := [] |}.

(** The same with [x] bound to 5 in the enclosed environment. *)
Definition twoScopesShadowed : object.State :=
  {| object.envs :=
       [{| object.store := <["x" := Some (object.Integer 1)]> ∅; object.outer := None |};
        {| object.store := <["x" := Some (object.Integer 5)]> ∅; object.outer := Some 0 |}];
     object.nextAddr := 0; object.ranges := 0; object.stdout := [] |}.

(** The expression [x = 5]. *)
Definition assignX5 : ast.Expression :=
  ast.AssignmentExpression "x" (Some (ast.IntegerLiteral 5)).

(** The root environment alone, binding [x] to an integer. *)
Definition rootX (v : Z) : object.State :=
  {| object.envs :=
       [{| object.store := <["x" := Some (object.Integer v)]> ∅; object.outer := None |}];
     object.nextAddr := 0; object.ranges := 0; object.stdout := [] |}.

(** A format string without verbs. *)
Fixpoint percentFree (s : string) : bool :=
  match s with
  | EmptyString => true
  | String c rest => negb (Ascii.eqb c "%") && percentFree rest
  end.

(** A result that lets a program or a block go on with its next
    statement: anything but a [ReturnValue] or an [Error]. *)
Definition ordinary (r : option object.Object) : Prop :=
  match r with
  | Some (object.ReturnValue _ _) => False
  | Some (object.Error _) => False
  | _ => True
  end.

(** [runs Eval env r0 statements st r st']: evaluated in this order in
    [env] from the state [st], the statements all have ordinary results and
    leave the state [st']; [r] is the result of the last one ([r0] if there
    is none). *)
Inductive runs (Eval : ast.Node -> nat -> evaluator.E (option object.Object)) (env : nat)
    : option object.Object -> list ast.Statement -> object.State
      -> option object.Object -> object.State -> Prop :=
| runs_nil (r0 : option object.Object) (st : object.State) : runs Eval env r0 [] st r0 st
| runs_cons (r0 r1 r : option object.Object) (stmt : ast.Statement) (rest : list ast.Statement)
    (st st1 st' : object.State) :
    Eval (ast.NodeStatement stmt) env st = go.Ok (r1, st1) ->
    ordinary r1 ->
    runs Eval env r1 rest st1 r st' ->
    runs Eval env r0 (stmt :: rest) st r st'.

(** The state after [env.Set(key, val)] on the environment [e] stored at
    [env]: only that environment changes, and only at [key]. *)
Definition afterSet (st : object.State) (env : nat) (e : object.Environment)
    (key : string) (val : option object.Object) : object.State :=
  object.setEnvs st
    (<[env := {| object.store := <[key := val]> (object.store e);
                 object.outer := object.outer e |}]> (object.envs st)).

(** The store of a call's environment: the parameters bound to the
    arguments at the same positions, a later parameter of the same name
    overwriting an earlier one. *)
Definition bindings (parameters : list string) (args : list (option object.Object))
    (store : gmap string (option object.Object)) : gmap string (option object.Object) :=
  foldl (fun m pa => <[fst pa := snd pa]> m) store (zip parameters args).



(** The parser that [New] returns for the tokens of an identifier or a
    literal followed by the end of the input. *)
Definition atToken (t : token.TokenType) (literal : string) : parser.Parser :=
  {| parser.lex := []; parser.currToken := T t literal; parser.peekToken := T token.EOF "";
     parser.errors := [] |}.

(** The tokens of the binary operators, each with its precedence. *)
Definition binaryOperators : list (token.TokenType * Z) :=
  [(token.EQ, parser.EQUALS); (token.NOT_EQ, parser.EQUALS);
   (token.LT, parser.LESSGREATER); (token.GT, parser.LESSGREATER);
   (token.PLUS, parser.SUM); (token.MINUS, parser.SUM);
   (token.SLASH, parser.PRODUCT); (token.ASTERISK, parser.PRODUCT)].

(** The keys of the table [keywords]. *)
Definition keywordList : list string := ["fn"; "let"; "true"; "false"; "if"; "else"; "return"].

(** A tree without nil nodes: every child expression is present and no
    statement is the nil [LetStatement]. *)
Fixpoint completeExpression (e : ast.Expression) : Prop :=
  let child (c : option ast.Expression) : Prop :=
    match c with Some c => completeExpression c | None => False end in
  match e with
  | ast.Identifier _ | ast.IntegerLiteral _ | ast.Boolean _ | ast.StringLiteral _ => True
  | ast.PrefixExpression _ rightNode => child rightNode
  | ast.InfixExpression _ leftNode rightNode => child leftNode /\ child rightNode
  | ast.IfExpression condition consequence alternative =>
      child condition /\ completeBlock consequence
      /\ match alternative with Some b => completeBlock b | None => True end
  | ast.FunctionLiteral _ body => completeBlock body
  | ast.CallExpression function arguments =>
      child function
      /\ (fix all (l : list (option ast.Expression)) : Prop :=
            match l with
            | [] => True
            | c :: l' => child c /\ all l'
            end) arguments
  | ast.ArrayLiteral elements =>
      (fix all (l : list (option ast.Expression)) : Prop :=
         match l with
         | [] => True
         | c :: l' => child c /\ all l'
         end) elements
  | ast.IndexExpression leftNode indexNode => child leftNode /\ child indexNode
  | ast.HashLiteral pairs =>
      (fix all (l : list (option ast.Expression * option ast.Expression)) : Prop :=
         match l with
         | [] => True
         | (k, v) :: l' => child k /\ child v /\ all l'
         end) pairs
  | ast.AssignmentExpression _ value => child value
  end
with completeStatement (s : ast.Statement) : Prop :=
  let child (c : option ast.Expression) : Prop :=
    match c with Some c => completeExpression c | None => False end in
  match s with
  | ast.LetStatement _ value => child value
  | ast.NilLetStatement => False
  | ast.ReturnStatement value => child value
  | ast.ExpressionStatement expression => child expression
  end
with completeBlock (b : ast.BlockStatement) : Prop :=
  match b with
  | ast.Block statements =>
      (fix all (l : list ast.Statement) : Prop :=
         match l with
         | [] => True
         | s :: l' => completeStatement s /\ all l'
         end) statements
  end.

(** An expression that is there (not nil) and complete. *)
Definition present (c : option ast.Expression) : Prop :=
  match c with Some c => completeExpression c | None => False end.

Definition presentPair (kv : option ast.Expression * option ast.Expression) : Prop :=
  present (fst kv) /\ present (snd kv).

(** [keeps m R]: a run of the parsing function [m] only appends to the
    parser's errors, and if it appends nothing its result satisfies [R]. *)
Definition keeps {A : Type} (m : parser.P A) (R : A -> Prop) : Prop :=
  forall (p : parser.Parser) (a : A) (p' : parser.Parser),
    m p = go.Ok (a, p') ->
    parser.errors p `prefix_of` parser.errors p'
    /\ (parser.errors p' = parser.errors p -> R a).

(** Another way for Go to range over maps: in the reverse of the insertion
    order, every time. *)
Definition reverseOrder : nat -> forall X : Type, list X -> list X :=
  fun _ _ l => rev l.

(** [pairsRun ev env nodePairs st entries st']: evaluated in this order in
    [env] from the state [st], every key and value of [nodePairs] evaluates
    to something that is not an error, every key is hashable, and the
    state left is [st']; [entries] are the hash keys with their pairs, in
    the same order. *)
Inductive pairsRun (ev : ast.Node -> nat -> evaluator.E (option object.Object)) (env : nat)
    : list (option ast.Expression * option ast.Expression) -> object.State
      -> list (object.HashKey * object.HashPair) -> object.State -> Prop :=
| pairsRun_nil (st : object.State) : pairsRun ev env [] st [] st
| pairsRun_cons (k v : option ast.Expression)
    (rest : list (option ast.Expression * option ast.Expression))
    (st st1 st2 st' : object.State) (key val : option object.Object)
    (hashKey : object.HashKey) (entries : list (object.HashKey * object.HashPair)) :
    ev (ast.ofExpression k) env st = go.Ok (key, st1) ->
    evaluator.isError key = false ->
    object.Hashable key = Some hashKey ->
    ev (ast.ofExpression v) env st1 = go.Ok (val, st2) ->
    evaluator.isError val = false ->
    pairsRun ev env rest st2 entries st' ->
    pairsRun ev env ((k, v) :: rest) st ((hashKey, (key, val)) :: entries) st'.

(** The pair of the last entry under the hash key [k], if there is one. *)
Fixpoint lastStored (k : object.HashKey) (entries : list (object.HashKey * object.HashPair))
    : option object.HashPair :=
  match entries with
  | [] => None
  | (k', p) :: rest =>
      match lastStored k rest with
      | Some q => Some q
      | None => if decide (k = k') then Some p else None
      end
  end.

(** [pairs[k] = p] for each entry in turn. *)
Definition storeAll (pairs entries : list (object.HashKey * object.HashPair))
    : list (object.HashKey * object.HashPair) :=
  foldl (fun acc e => object.pairsInsert (fst e) (snd e) acc) pairs entries.

(* ===================================================================== *)
(** ** Hash keys                                                          *)
(* ===================================================================== *)

Lemma uint64_int64 (i : Z) :
  go.isInt64 i -> go.uint64 i = if (i <? 0)%Z then (i + go.two64)%Z else i.
Proof.
  unfold go.isInt64, go.uint64, go.two63, go.two64. intros Hi.
  destruct (Z.ltb_spec i 0); symmetry.
  - apply (Z.mod_unique _ _ (-1)); lia.
  - apply (Z.mod_unique _ _ 0); lia.
Qed.

Lemma uint64_inj (i j : Z) :
  go.isInt64 i -> go.isInt64 j -> go.uint64 i = go.uint64 j -> i = j.
Proof.
  intros Hi Hj. rewrite !uint64_int64 by assumption.
  unfold go.isInt64, go.two63, go.two64 in *.
  destruct (Z.ltb_spec i 0), (Z.ltb_spec j 0); lia.
Qed.

Lemma lxor_below (n a b : Z) :
  (0 <= n)%Z -> (0 <= a < 2 ^ n)%Z -> (0 <= b < 2 ^ n)%Z -> (0 <= Z.lxor a b < 2 ^ n)%Z.
Proof.
  intros Hn Ha Hb. split; [apply Z.lxor_nonneg; lia|].
  destruct (Z.eq_dec n 0%Z) as [->|Hn0].
  { assert (a = 0%Z) as -> by (change (2 ^ 0)%Z with 1%Z in Ha; lia).
    assert (b = 0%Z) as -> by (change (2 ^ 0)%Z with 1%Z in Hb; lia).
    reflexivity. }
  destruct (Z.eq_dec (Z.lxor a b) 0%Z) as [->|Hne]; [lia|].
  assert (0 < Z.lxor a b)%Z by (pose proof (proj2 (Z.lxor_nonneg a b)); lia).
  apply Z.log2_lt_pow2; [assumption|].
  pose proof (Z.log2_lxor a b ltac:(lia) ltac:(lia)) as Hl.
  assert (Z.log2 a < n)%Z.
  { destruct (Z.eq_dec a 0%Z) as [->|]; [simpl; lia|]. apply Z.log2_lt_pow2; lia. }
  assert (Z.log2 b < n)%Z.
  { destruct (Z.eq_dec b 0%Z) as [->|]; [simpl; lia|]. apply Z.log2_lt_pow2; lia. }
  lia.
Qed.

Lemma bytes_below (s : string) : Forall (fun c => 0 <= c < 2 ^ 64)%Z (go.bytes s).
Proof.
  unfold go.bytes. apply Forall_forall. intros c Hc.
  apply list_elem_of_In, in_map_iff in Hc. destruct Hc as (a & <- & _).
  pose proof (nat_ascii_bounded a). lia.
Qed.

Lemma Write_below (data : list Z) (h : Z) :
  Forall (fun c => 0 <= c < 2 ^ 64)%Z data -> (0 <= h < 2 ^ 64)%Z ->
  (0 <= go.Write h data < 2 ^ 64)%Z.
Proof.
  unfold go.Write. intros Hd. revert h.
  induction Hd as [|c data Hc _ IH]; intros h Hh; simpl; [assumption|].
  apply IH. apply lxor_below; [lia| |assumption].
  change go.two64 with (2 ^ 64)%Z. apply Z.mod_pos_bound. lia.
Qed.

(** The loop of [Write] computes the FNV-1 hash of the definition. *)
Lemma Write_fnv1_64 (data : list Z) : go.Sum64 (go.Write go.New64 data) = fnv1_64 data.
Proof.
  unfold go.Sum64, go.Write, go.New64, fnv1_64.
  rewrite <- fold_left_rev_right. reflexivity.
Qed.

(** C4 (as the code has it): the hash key of a String is the pair of
    STRING and the 64-bit FNV-1 digest of its bytes (multiply by the prime,
    then xor the byte), a number below 2^64; the hash key of an Integer is
    the pair of INTEGER and its int64 value read as an unsigned number (a
    negative value [i] becomes [i + 2^64]); the hash key of a Boolean is the
    pair of BOOLEAN and 1 for true, 0 for false. *)
Theorem C4_hash_key (s : string) (i : Z) (b : bool) :
  go.isInt64 i ->
  object.Hashable (Some (object.String s))
    = Some {| object.Type_ := object.STRING_OBJ; object.Value := fnv1_64 (go.bytes s) |}
  /\ (0 <= fnv1_64 (go.bytes s) < 2 ^ 64)%Z
  /\ object.Hashable (Some (object.Integer i))
    = Some {| object.Type_ := object.INTEGER_OBJ;
              object.Value := if (i <? 0)%Z then (i + 2 ^ 64)%Z else i |}
  /\ object.Hashable (Some (object.Boolean b))
    = Some {| object.Type_ := object.BOOLEAN_OBJ;
              object.Value := if b then 1%Z else 0%Z |}.
Proof.
  intros Hi. repeat split.
  - simpl. unfold object.String_HashKey. rewrite Write_fnv1_64. reflexivity.
  - rewrite <- Write_fnv1_64. unfold go.Sum64.
    apply Write_below; [apply bytes_below|]. unfold go.New64, go.offset64. lia.
  - rewrite <- Write_fnv1_64. unfold go.Sum64.
    apply Write_below; [apply bytes_below|]. unfold go.New64, go.offset64. lia.
  - simpl. unfold object.Integer_HashKey. rewrite uint64_int64 by assumption. reflexivity.
Qed.

Lemma C4_hash_key_witness :
  object.Hashable (Some (object.String "a"))
    = Some {| object.Type_ := object.STRING_OBJ; object.Value := fnv1_64 (go.bytes "a") |}
  /\ (0 <= fnv1_64 (go.bytes "a") < 2 ^ 64)%Z
  /\ object.Hashable (Some (object.Integer (-1)))
    = Some {| object.Type_ := object.INTEGER_OBJ;
              object.Value := if (-1 <? 0)%Z then (-1 + 2 ^ 64)%Z else (-1)%Z |}
  /\ object.Hashable (Some (object.Boolean true))
    = Some {| object.Type_ := object.BOOLEAN_OBJ; object.Value := 1%Z |}.
Proof.
  apply (C4_hash_key "a" (-1) true). unfold go.isInt64, go.two63. lia.
Defined.

(** The hash key of the string ["a"] is not the pair of STRING and the
    FNV-1a digest of its bytes: the code computes af63bd4c8601b7be (FNV-1),
    the FNV-1a digest is af63dc4c8601ec8c. *)
Lemma C4_counterexample :
  object.String_HashKey "a"
    = {| object.Type_ := object.STRING_OBJ; object.Value := 12638153115695167422 |}
  /\ fnv1a_64 (go.bytes "a") = 12638187200555641996%Z
  /\ object.Hashable (Some (object.String "a"))
     <> Some {| object.Type_ := object.STRING_OBJ; object.Value := fnv1a_64 (go.bytes "a") |}.
Proof.
  split; [vm_compute; reflexivity|]. split; [vm_compute; reflexivity|].
  vm_compute. intros H. discriminate H.
Qed.

(** C5 (as the code has it): for hashable values [v] and [v'], equal
    values have equal hash keys; equal hash keys belong to values of the
    same kind, and for Integers and Booleans to equal values.  (Two
    different Strings can have the same hash key.) *)
Theorem C5_hash_key_equality (v v' : object.Object) (k k' : object.HashKey) :
  hashableValue v -> hashableValue v' ->
  object.Hashable (Some v) = Some k -> object.Hashable (Some v') = Some k' ->
  (v = v' -> k = k')
  /\ (k = k' ->
      object.TypeOf v = object.TypeOf v'
      /\ (object.TypeOf v <> object.STRING_OBJ -> v = v')).
Proof.
  intros Hv Hv' Hk Hk'. split.
  - intros <-. congruence.
  - intros <-.
    destruct v as [i|b| | | | |s| | |]; simpl in Hv; try contradiction;
      destruct v' as [i'|b'| | | | |s'| | |]; simpl in Hv'; try contradiction;
      simpl in Hk, Hk';
      unfold object.Integer_HashKey, object.Boolean_HashKey, object.String_HashKey in *;
      injection Hk as <-; injection Hk' as Hk'; try discriminate Hk';
      (split; [reflexivity|]); intros Hs.
    + f_equal. symmetry. apply uint64_inj; assumption.
    + destruct b, b'; try discriminate Hk'; reflexivity.
    + contradiction Hs. reflexivity.
Qed.

Lemma C5_hash_key_equality_witness :
  (object.Integer 7 = object.Integer 7 -> object.Integer_HashKey 7 = object.Integer_HashKey 7)
  /\ (object.Integer_HashKey 7 = object.Integer_HashKey 7 ->
      object.TypeOf (object.Integer 7) = object.TypeOf (object.Integer 7)
      /\ (object.TypeOf (object.Integer 7) <> object.STRING_OBJ ->
          object.Integer 7 = object.Integer 7)).
Proof.
  apply (C5_hash_key_equality (object.Integer 7) (object.Integer 7));
    solve [ unfold hashableValue, go.isInt64, go.two63; lia | reflexivity ].
Defined.

(** Two different strings with the same hash key. *)
Lemma C5_counterexample :
  object.Hashable (Some (object.String "aaade0bb0xad"))
    = object.Hashable (Some (object.String "dnwZwdWjoxvY"))
  /\ object.String "aaade0bb0xad" <> object.String "dnwZwdWjoxvY".
Proof.
  split; [vm_compute; reflexivity|]. intros H. discriminate H.
Qed.

(* ===================================================================== *)
(** ** The parser                                                         *)
(* ===================================================================== *)

(** C3 (what the code does): the token stream of [5 = 3] makes
    [ParseProgram] panic, and so does every token stream that starts with
    [5 =].  [parseExpression] parses [5], finds [=] with the precedence
    EQUALS above LOWEST and calls [parseAssignExpression] on the integer
    literal, whose type assertion to an identifier fails.  No program and no
    error list are returned, whatever the fuel. *)
Theorem C3_assignment_to_non_identifier_panics (fuel : nat) (rest : list token.Token) :
  parser.parse (S (S fuel)) [T token.INT "5"; T token.ASSIGN "="; T token.INT "3"]
  = go.Panic go.interfaceConversion
  /\ parser.parse (S (S fuel)) (T token.INT "5" :: T token.ASSIGN "=" :: rest)
     = go.Panic go.interfaceConversion.
Proof. split; [reflexivity|]. destruct rest; reflexivity. Qed.

(** With an identifier on the left the same parselet builds the
    assignment. *)
Lemma parse_assignment_to_identifier (fuel : nat) :
  parser.parse (S (S (S fuel))) [T token.IDENT "x"; T token.ASSIGN "="; T token.INT "3"]
  = go.Ok ({| ast.Statements :=
               [ast.ExpressionStatement
                  (Some (ast.AssignmentExpression "x" (Some (ast.IntegerLiteral 3))))] |},
           []).
Proof. reflexivity. Qed.

(** The programs of the examples below, as the parser reads them. *)
Lemma parse_array_with_unbound_name :
  parser.parse 10
    [T token.LBRACKET "["; T token.INT "1"; T token.COMMA ","; T token.IDENT "foobar";
     T token.RBRACKET "]"]
  = go.Ok ({| ast.Statements :=
               [ast.ExpressionStatement
                  (Some (ast.ArrayLiteral
                           [Some (ast.IntegerLiteral 1); Some (ast.Identifier "foobar")]))] |},
           []).
Proof. vm_compute. reflexivity. Qed.

Lemma parse_nested_if_with_returns :
  parser.parse 20
    [T token.IF "if"; T token.LPAREN "("; T token.INT "10"; T token.GT ">";
     T token.INT "1"; T token.RPAREN ")"; T token.LBRACE "{";
     T token.IF "if"; T token.LPAREN "("; T token.INT "10"; T token.GT ">";
     T token.INT "1"; T token.RPAREN ")"; T token.LBRACE "{";
     T token.RETURN "return"; T token.INT "10"; T token.SEMICOLON ";";
     T token.RBRACE "}";
     T token.RETURN "return"; T token.INT "1"; T token.SEMICOLON ";";
     T token.RBRACE "}"]
  = go.Ok ({| ast.Statements :=
               [ast.ExpressionStatement
                  (Some (ast.IfExpression
                     (Some (ast.InfixExpression ">" (Some (ast.IntegerLiteral 10))
                              (Some (ast.IntegerLiteral 1))))
                     (ast.Block
                        [ast.ExpressionStatement
                           (Some (ast.IfExpression
                              (Some (ast.InfixExpression ">" (Some (ast.IntegerLiteral 10))
                                       (Some (ast.IntegerLiteral 1))))
                              (ast.Block [ast.ReturnStatement (Some (ast.IntegerLiteral 10))])
                              None));
                         ast.ReturnStatement (Some (ast.IntegerLiteral 1))])
                     None))] |},
           []).
Proof. vm_compute. reflexivity. Qed.

Lemma parse_assignment_in_function :
  parser.parse 20
    [T token.LET "let"; T token.IDENT "x"; T token.ASSIGN "="; T token.INT "1";
     T token.SEMICOLON ";";
     T token.LET "let"; T token.IDENT "f"; T token.ASSIGN "="; T token.FUNCTION "fn";
     T token.LPAREN "("; T token.RPAREN ")"; T token.LBRACE "{";
     T token.IDENT "x"; T token.ASSIGN "="; T token.INT "2"; T token.SEMICOLON ";";
     T token.IDENT "x"; T token.RBRACE "}"; T token.SEMICOLON ";";
     T token.IDENT "f"; T token.LPAREN "("; T token.RPAREN ")"; T token.PLUS "+";
     T token.IDENT "x"]
  = go.Ok ({| ast.Statements :=
               [ast.LetStatement "x" (Some (ast.IntegerLiteral 1));
                ast.LetStatement "f"
                  (Some (ast.FunctionLiteral []
                     (ast.Block
                        [ast.ExpressionStatement
                           (Some (ast.AssignmentExpression "x" (Some (ast.IntegerLiteral 2))));
                         ast.ExpressionStatement (Some (ast.Identifier "x"))])));
                ast.ExpressionStatement
                  (Some (ast.InfixExpression "+"
                     (Some (ast.CallExpression (Some (ast.Identifier "f")) []))
                     (Some (ast.Identifier "x"))))] |},
           []).
Proof. vm_compute. reflexivity. Qed.

(* ===================================================================== *)
(** ** Fuel                                                               *)
(* ===================================================================== *)

(** More fuel never changes an outcome: it only turns [OutOfFuel] into
    one.  This holds of the parser and of the evaluator, so a result
    obtained with some fuel is the result of the run. *)

Lemma le_refl {A : Type} (r : go.Res A) : go.le r r.
Proof. right; reflexivity. Qed.

Lemma bind_le {S A B : Type} (m m' : go.M S A) (k k' : A -> go.M S B) (s : S) :
  go.le (m s) (m' s) -> (forall (a : A) (s1 : S), go.le (k a s1) (k' a s1)) ->
  go.le (go.bind m k s) (go.bind m' k' s).
Proof.
  intros [H|H] Hk; unfold go.bind.
  - rewrite H. left; reflexivity.
  - rewrite H. destruct (m' s) as [[a s1]| |]; [apply Hk|right; reflexivity|left; reflexivity].
Qed.

Lemma lift_le {S A : Type} (r r' : go.Res A) (s : S) :
  go.le r r' -> go.le (go.lift r s) (go.lift r' s).
Proof. intros [->| ->]; [left|right]; reflexivity. Qed.

Lemma Get_le (n m : nat) (h : list object.Environment) (c : nat) (key : string) :
  n <= m -> go.le (object.Get n h c key) (object.Get m h c key).
Proof.
  revert m c. induction n as [|n IH]; intros m c Hle; [left; reflexivity|].
  destruct m as [|m]; [lia|]. simpl.
  destruct (h !! c) as [ec|]; [|right; reflexivity].
  destruct (object.storeLookup (object.store ec) key) as [obj ok].
  destruct (negb ok), (object.outer ec); try (right; reflexivity).
  apply IH. lia.
Qed.

Lemma IsKey_le (n m : nat) (h : list object.Environment) (c : nat) (key : string) :
  n <= m -> go.le (object.IsKey n h c key) (object.IsKey m h c key).
Proof.
  intros Hle. unfold object.IsKey.
  destruct (h !! c) as [ec|]; [|right; reflexivity].
  destruct (object.storeLookup (object.store ec) key) as [obj ok].
  destruct (negb ok), (object.outer ec) as [o|]; try (right; reflexivity).
  destruct (Get_le n m h o key Hle) as [-> | ->]; [left|right]; reflexivity.
Qed.

(** Two runs of the same code that differ in the fuel of their calls:
    compare them call by call. *)
Ltac same_code :=
  repeat first
    [ apply le_refl
    | apply bind_le; [|intros ? ?]
    | apply lift_le
    | apply Get_le; lia
    | apply IsKey_le; lia
    | match goal with
      | H : forall x y z, go.le (?ev x y z) (?ev' x y z) |- go.le (?ev _ _ _) (?ev' _ _ _) =>
          apply H
      | H : forall x y, go.le (?ev x y) (?ev' x y) |- go.le (?ev _ _) (?ev' _ _) => apply H
      | H : forall x, go.le (?ev x) (?ev' x) |- go.le (?ev _) (?ev' _) => apply H
      | |- go.le (match ?x with _ => _ end _) (match ?x with _ => _ end _) => destruct x
      | |- go.le (match ?x with _ => _ end) (match ?x with _ => _ end) => destruct x
      | |- go.le ((if ?x then _ else _) _) ((if ?x then _ else _) _) => destruct x
      end ].

Section EvalFuel.

Variable BlockStatement_String : ast.BlockStatement -> string.
Variable mapOrder : nat -> forall X : Type, list X -> list X.
Variables ev ev' : ast.Node -> nat -> evaluator.E (option object.Object).
Hypothesis Hev : forall (node : ast.Node) (env : nat) (st : object.State),
  go.le (ev node env st) (ev' node env st).
Variables f f' : nat.
Hypothesis Hf : f <= f'.

Lemma evalProgram_loop_le (stmts : list ast.Statement) :
  forall (r : option object.Object) (env : nat) (st : object.State),
    go.le (evaluator.evalProgram_loop ev r stmts env st)
          (evaluator.evalProgram_loop ev' r stmts env st).
Proof. induction stmts as [|s stmts IH]; intros r env st; simpl; same_code; apply IH. Qed.

Lemma evalStatements_loop_le (stmts : list ast.Statement) :
  forall (r : option object.Object) (env : nat) (st : object.State),
    go.le (evaluator.evalStatements_loop ev r stmts env st)
          (evaluator.evalStatements_loop ev' r stmts env st).
Proof. induction stmts as [|s stmts IH]; intros r env st; simpl; same_code; apply IH. Qed.

Lemma evalExpressions_loop_le (exps : list (option ast.Expression)) :
  forall (args : list (option object.Object)) (env : nat) (st : object.State),
    go.le (evaluator.evalExpressions_loop ev args exps env st)
          (evaluator.evalExpressions_loop ev' args exps env st).
Proof. induction exps as [|e exps IH]; intros args env st; simpl; same_code; apply IH. Qed.

Lemma evalHashLiteral_loop_le (nodePairs : list (option ast.Expression * option ast.Expression)) :
  forall (pairs : list (object.HashKey * object.HashPair)) (env : nat) (st : object.State),
    go.le (evaluator.evalHashLiteral_loop ev pairs nodePairs env st)
          (evaluator.evalHashLiteral_loop ev' pairs nodePairs env st).
Proof.
  induction nodePairs as [|[k v] nodePairs IH]; intros pairs env st; simpl; same_code; apply IH.
Qed.

Lemma applyFunction_le (fn : option object.Object) (args : list (option object.Object))
    (st : object.State) :
  go.le (evaluator.applyFunction BlockStatement_String mapOrder ev fn args st)
        (evaluator.applyFunction BlockStatement_String mapOrder ev' fn args st).
Proof. unfold evaluator.applyFunction. same_code. Qed.

Lemma Eval_body_le (node : ast.Node) (env : nat) (st : object.State) :
  go.le (evaluator.Eval_body BlockStatement_String mapOrder f ev node env st)
        (evaluator.Eval_body BlockStatement_String mapOrder f' ev' node env st).
Proof.
  destruct node as [|p|[stmts]|[]|[]]; simpl.
  all: unfold evaluator.evalProgram, evaluator.evalStatements, evaluator.evalIfExpression,
         evaluator.evalIdentifier, evaluator.evalExpressions, evaluator.evalHashLiteral.
  all: same_code.
  all: first [ apply evalProgram_loop_le | apply evalStatements_loop_le
             | apply evalExpressions_loop_le | apply evalHashLiteral_loop_le
             | apply applyFunction_le ].
Qed.

End EvalFuel.

Lemma Eval_le (BlockStatement_String : ast.BlockStatement -> string)
    (mapOrder : nat -> forall X : Type, list X -> list X) (n m : nat) :
  n <= m ->
  forall (node : ast.Node) (env : nat) (st : object.State),
    go.le (evaluator.Eval BlockStatement_String mapOrder n node env st)
          (evaluator.Eval BlockStatement_String mapOrder m node env st).
Proof.
  revert m. induction n as [|n IH]; intros m Hle node env st; [left; reflexivity|].
  destruct m as [|m]; [lia|]. simpl.
  apply Eval_body_le; [|lia]. apply IH. lia.
Qed.

Section ParseFuel.

Variables pe pe' : Z -> parser.P (option ast.Expression).
Variables ps ps' : parser.P (option ast.Statement).
Hypothesis Hpe : forall (prec : Z) (p : parser.Parser), go.le (pe prec p) (pe' prec p).
Hypothesis Hps : forall p : parser.Parser, go.le (ps p) (ps' p).
Variables f f' : nat.
Hypothesis Hf : f <= f'.

Lemma parseBlockStatement_loop_le (n : nat) :
  forall (n' : nat) (stmts : list ast.Statement) (p : parser.Parser), n <= n' ->
    go.le (parser.parseBlockStatement_loop ps n stmts p)
          (parser.parseBlockStatement_loop ps' n' stmts p).
Proof.
  induction n as [|n IH]; intros n' stmts p Hle; [left; reflexivity|].
  destruct n' as [|n']; [lia|]. simpl. same_code; apply IH; lia.
Qed.

Lemma parseFunctionParameters_loop_le (n : nat) :
  forall (n' : nat) (idents : list string) (p : parser.Parser), n <= n' ->
    go.le (parser.parseFunctionParameters_loop n idents p)
          (parser.parseFunctionParameters_loop n' idents p).
Proof.
  induction n as [|n IH]; intros n' idents p Hle; [left; reflexivity|].
  destruct n' as [|n']; [lia|]. simpl. same_code; apply IH; lia.
Qed.

Lemma parseExpressionList_loop_le (n : nat) :
  forall (n' : nat) (els : list (option ast.Expression)) (p : parser.Parser), n <= n' ->
    go.le (parser.parseExpressionList_loop pe n els p)
          (parser.parseExpressionList_loop pe' n' els p).
Proof.
  induction n as [|n IH]; intros n' els p Hle; [left; reflexivity|].
  destruct n' as [|n']; [lia|]. simpl. same_code; apply IH; lia.
Qed.

Lemma parseHashLiteral_loop_le (n : nat) :
  forall (n' : nat) (pairs : list (option ast.Expression * option ast.Expression))
         (p : parser.Parser), n <= n' ->
    go.le (parser.parseHashLiteral_loop pe n pairs p)
          (parser.parseHashLiteral_loop pe' n' pairs p).
Proof.
  induction n as [|n IH]; intros n' pairs p Hle; [left; reflexivity|].
  destruct n' as [|n']; [lia|]. simpl. same_code; apply IH; lia.
Qed.

(** The same entries in the two tables, parselet by parselet. *)
Lemma prefixParseFns_le (t : token.TokenType) :
  match parser.prefixParseFns f pe ps !! t, parser.prefixParseFns f' pe' ps' !! t with
  | Some a, Some b => forall p : parser.Parser, go.le (a p) (b p)
  | None, None => True
  | _, _ => False
  end.
Proof.
  unfold parser.prefixParseFns, parser.registerPrefix.
  rewrite !lookup_insert. repeat case_decide; simpl; try rewrite !lookup_empty; simpl;
    try exact I; intros p.
  all: unfold parser.parseHashLiteral, parser.parseArrayLiteral, parser.parseStringLiteral,
    parser.parseFunctionLiteral, parser.parseIfExpression, parser.parseGroupedExpression,
    parser.parseBoolean, parser.parsePrefixExpression, parser.parseIntegerLiteral,
    parser.parseIdentifier, parser.parseFunctionParameters, parser.parseExpressionList,
    parser.parseBlockStatement.
  all: same_code.
  all: first [ apply parseHashLiteral_loop_le, Hf | apply parseExpressionList_loop_le, Hf
             | apply parseBlockStatement_loop_le, Hf
             | apply parseFunctionParameters_loop_le, Hf ].
Qed.

Lemma infixParseFns_le (t : token.TokenType) :
  match parser.infixParseFns f pe !! t, parser.infixParseFns f' pe' !! t with
  | Some a, Some b =>
      forall (leftExp : option ast.Expression) (p : parser.Parser),
        go.le (a leftExp p) (b leftExp p)
  | None, None => True
  | _, _ => False
  end.
Proof.
  unfold parser.infixParseFns, parser.registerInfix.
  rewrite !lookup_insert. repeat case_decide; simpl; try rewrite !lookup_empty; simpl;
    try exact I; intros leftExp p.
  all: unfold parser.parseIndexExpression, parser.parseCallExpression,
    parser.parseInfixExpression, parser.parseAssignExpression, parser.parseExpressionList.
  all: same_code.
  all: apply parseExpressionList_loop_le, Hf.
Qed.

Lemma parseExpression_loop_le (n : nat) :
  forall (n' : nat) (prec : Z) (leftExp : option ast.Expression) (p : parser.Parser),
    n <= n' ->
    go.le (parser.parseExpression_loop f pe n prec leftExp p)
          (parser.parseExpression_loop f' pe' n' prec leftExp p).
Proof.
  induction n as [|n IH]; intros n' prec leftExp p Hle; [left; reflexivity|].
  destruct n' as [|n']; [lia|]. simpl.
  apply bind_le; [apply le_refl|intros semi p1].
  apply bind_le; [apply le_refl|intros peekPrec p2].
  destruct (negb semi && (prec <? peekPrec)%Z); [|apply le_refl].
  apply bind_le; [apply le_refl|intros q p3].
  pose proof (infixParseFns_le (token.Type_ (parser.peekToken q))) as Hi.
  destruct (parser.infixParseFns f pe !! token.Type_ (parser.peekToken q)),
           (parser.infixParseFns f' pe' !! token.Type_ (parser.peekToken q));
    try contradiction; [|apply le_refl].
  apply bind_le; [apply le_refl|intros u p4].
  apply bind_le; [apply Hi|intros leftExp' p5]. apply IH. lia.
Qed.

Lemma parseExpression_body_le (prec : Z) (p : parser.Parser) :
  go.le (parser.parseExpression_body f pe ps prec p)
        (parser.parseExpression_body f' pe' ps' prec p).
Proof.
  unfold parser.parseExpression_body.
  apply bind_le; [apply le_refl|intros q p1].
  pose proof (prefixParseFns_le (token.Type_ (parser.currToken q))) as Hp.
  destruct (parser.prefixParseFns f pe ps !! token.Type_ (parser.currToken q)),
           (parser.prefixParseFns f' pe' ps' !! token.Type_ (parser.currToken q));
    try contradiction; [|apply le_refl].
  apply bind_le; [apply Hp|intros leftExp p2]. apply parseExpression_loop_le, Hf.
Qed.

Lemma parseStatement_body_le (p : parser.Parser) :
  go.le (parser.parseStatement_body pe p) (parser.parseStatement_body pe' p).
Proof.
  unfold parser.parseStatement_body, parser.parseLetStatement, parser.parseReturnStatement,
    parser.parseExpressionStatement. same_code.
Qed.

End ParseFuel.

Lemma parseExpression_le (n m : nat) :
  n <= m ->
  forall (prec : Z) (p : parser.Parser),
    go.le (parser.parseExpression n prec p) (parser.parseExpression m prec p).
Proof.
  revert m. induction n as [|n IH]; intros m Hle prec p; [left; reflexivity|].
  destruct m as [|m]; [lia|]. simpl.
  apply parseExpression_body_le; [| |lia].
  - apply IH. lia.
  - intros q. apply parseStatement_body_le. apply IH. lia.
Qed.

Lemma parseStatement_le (n m : nat) :
  n <= m ->
  forall p : parser.Parser, go.le (parser.parseStatement n p) (parser.parseStatement m p).
Proof.
  intros Hle p. apply parseStatement_body_le. apply parseExpression_le, Hle.
Qed.

Lemma ParseProgram_loop_le (f f' n : nat) :
  f <= f' ->
  forall (n' : nat) (stmts : list ast.Statement) (p : parser.Parser), n <= n' ->
    go.le (parser.ParseProgram_loop f n stmts p) (parser.ParseProgram_loop f' n' stmts p).
Proof.
  intros Hf. induction n as [|n IH]; intros n' stmts p Hle; [left; reflexivity|].
  destruct n' as [|n']; [lia|]. cbn [parser.ParseProgram_loop].
  apply bind_le; [apply le_refl|intros eof p1].
  destruct (negb eof); [|apply le_refl].
  apply bind_le; [apply parseStatement_le, Hf|intros stmt p2].
  apply bind_le; [apply le_refl|intros u p3]. apply IH. lia.
Qed.

Lemma parse_le (n m : nat) (tokens : list token.Token) :
  n <= m -> go.le (parser.parse n tokens) (parser.parse m tokens).
Proof.
  intros Hle. unfold parser.parse. destruct (parser.New tokens) as [p| |]; try apply le_refl.
  unfold parser.ParseProgram.
  pose proof (ParseProgram_loop_le n m n Hle m [] p Hle) as [H|H];
    unfold go.bind; rewrite H; [left; reflexivity|].
  right. reflexivity.
Qed.

Lemma evalTokens_le (BlockStatement_String : ast.BlockStatement -> string)
    (mapOrder : nat -> forall X : Type, list X -> list X)
    (n m : nat) (tokens : list token.Token) :
  n <= m ->
  go.le (evalTokens BlockStatement_String mapOrder n tokens)
        (evalTokens BlockStatement_String mapOrder m tokens).
Proof.
  intros Hle. unfold evalTokens.
  destruct (parse_le n m tokens Hle) as [-> | ->]; [left; reflexivity|].
  destruct (parser.parse m tokens) as [[program [|e errs]]| |]; try apply le_refl.
  unfold go.bind. destruct (object.NewEnvironment object.emptyState) as [[env st]| |];
    try apply le_refl.
  destruct (Eval_le BlockStatement_String mapOrder n m Hle (ast.NodeProgram program) env st)
    as [-> | ->]; [left; reflexivity|apply le_refl].
Qed.

(** A result of [Eval] with some fuel is its result with any larger
    amount of fuel. *)
Lemma Eval_fuel (BlockStatement_String : ast.BlockStatement -> string)
    (mapOrder : nat -> forall X : Type, list X -> list X) (n m : nat)
    (node : ast.Node) (env : nat) (st : object.State)
    (r : option object.Object * object.State) :
  evaluator.Eval BlockStatement_String mapOrder n node env st = go.Ok r ->
  n <= m ->
  evaluator.Eval BlockStatement_String mapOrder m node env st = go.Ok r.
Proof.
  intros H Hle.
  destruct (Eval_le BlockStatement_String mapOrder n m Hle node env st) as [H'|H'];
    congruence.
Qed.

(** The outcome that [evalTokens] has with some amount of fuel is the
    outcome of the tokens. *)
Lemma evaluatesTo_intro (BlockStatement_String : ast.BlockStatement -> string)
    (mapOrder : nat -> forall X : Type, list X -> list X) (n : nat)
    (tokens : list token.Token) (outcome : Outcome) :
  evalTokens BlockStatement_String mapOrder n tokens = go.Ok outcome ->
  evaluatesTo BlockStatement_String mapOrder tokens outcome.
Proof.
  intros H. exists n. intros m Hle.
  destruct (evalTokens_le BlockStatement_String mapOrder n m tokens Hle) as [H'|H'];
    congruence.
Qed.

(** The tokens have at most one outcome. *)
Lemma evaluatesTo_unique (BlockStatement_String : ast.BlockStatement -> string)
    (mapOrder : nat -> forall X : Type, list X -> list X)
    (tokens : list token.Token) (o1 o2 : Outcome) :
  evaluatesTo BlockStatement_String mapOrder tokens o1 ->
  evaluatesTo BlockStatement_String mapOrder tokens o2 -> o1 = o2.
Proof.
  intros [n1 H1] [n2 H2].
  pose proof (H1 (max n1 n2) (Nat.le_max_l _ _)) as E1.
  pose proof (H2 (max n1 n2) (Nat.le_max_r _ _)) as E2. congruence.
Qed.

(** Running the model with [n] units of fuel settles an outcome. *)
Ltac evaluates n := apply (evaluatesTo_intro _ _ n); vm_compute; reflexivity.

(* ===================================================================== *)
(** ** The evaluator                                                      *)
(* ===================================================================== *)

Section Properties.

Variable BlockStatement_String : ast.BlockStatement -> string.
Variable mapOrder : nat -> forall X : Type, list X -> list X.

#[local] Abbreviation Eval := (evaluator.Eval BlockStatement_String mapOrder).
#[local] Abbreviation Eval_body := (evaluator.Eval_body BlockStatement_String mapOrder).

Lemma Eval_S (fuel : nat) (node : ast.Node) (env : nat) :
  Eval (S fuel) node env = Eval_body fuel (Eval fuel) node env.
Proof. reflexivity. Qed.

(** *** Programs and blocks *)

Lemma evalProgram_loop_runs (ev : ast.Node -> nat -> evaluator.E (option object.Object))
    (env : nat) (pre rest : list ast.Statement) (st st1 : object.State)
    (r0 r : option object.Object) :
  runs ev env r0 pre st r st1 ->
  evaluator.evalProgram_loop ev r0 (pre ++ rest) env st
  = evaluator.evalProgram_loop ev r rest env st1.
Proof.
  induction 1 as [|r0 r1 r stmt pre st st1 st' Hev Hord _ IH]; [reflexivity|].
  simpl. unfold go.bind at 1. rewrite Hev.
  destruct r1 as [[]|]; simpl in Hord; try contradiction; apply IH.
Qed.

Lemma evalStatements_loop_runs (ev : ast.Node -> nat -> evaluator.E (option object.Object))
    (env : nat) (pre rest : list ast.Statement) (st st1 : object.State)
    (r0 r : option object.Object) :
  runs ev env r0 pre st r st1 ->
  evaluator.evalStatements_loop ev r0 (pre ++ rest) env st
  = evaluator.evalStatements_loop ev r rest env st1.
Proof.
  induction 1 as [|r0 r1 r stmt pre st st1 st' Hev Hord _ IH]; [reflexivity|].
  simpl. unfold go.bind at 1. rewrite Hev.
  destruct r1 as [[]|]; simpl in Hord; try contradiction; apply IH.
Qed.

(** C6: a program and a block run their statements in order, each in the
    state the previous one left.  When all of [pre] have ordinary results,
    both return the last result.  When the next statement yields
    [ReturnValue(v)], the program stops and returns [v], the block stops and
    returns the [ReturnValue] itself; when it yields an [Error], both stop
    and return the error.  The statements after it are not evaluated (the
    final state is the one that statement left).  The program
    [if (10 > 1) { if (10 > 1) { return 10; } return 1; }] evaluates to 10. *)
Theorem C6_program_unwraps_block_propagates (fuel env : nat)
    (pre rest : list ast.Statement) (stmt : ast.Statement)
    (st st1 st2 : object.State) (r res : option object.Object) :
  runs (Eval fuel) env None pre st r st1 ->
  Eval fuel (ast.NodeStatement stmt) env st1 = go.Ok (res, st2) ->
  (Eval (S fuel) (ast.NodeProgram {| ast.Statements := pre |}) env st = go.Ok (r, st1)
   /\ Eval (S fuel) (ast.NodeBlock (ast.Block pre)) env st = go.Ok (r, st1))
  /\ match res with
     | Some (object.ReturnValue _ v) =>
         Eval (S fuel) (ast.NodeProgram {| ast.Statements := pre ++ stmt :: rest |}) env st
         = go.Ok (v, st2)
         /\ Eval (S fuel) (ast.NodeBlock (ast.Block (pre ++ stmt :: rest))) env st
            = go.Ok (res, st2)
     | Some (object.Error _) =>
         Eval (S fuel) (ast.NodeProgram {| ast.Statements := pre ++ stmt :: rest |}) env st
         = go.Ok (res, st2)
         /\ Eval (S fuel) (ast.NodeBlock (ast.Block (pre ++ stmt :: rest))) env st
            = go.Ok (res, st2)
     | _ => True
     end
  /\ evaluatesTo BlockStatement_String mapOrder
       [T token.IF "if"; T token.LPAREN "("; T token.INT "10"; T token.GT ">";
        T token.INT "1"; T token.RPAREN ")"; T token.LBRACE "{";
        T token.IF "if"; T token.LPAREN "("; T token.INT "10"; T token.GT ">";
        T token.INT "1"; T token.RPAREN ")"; T token.LBRACE "{";
        T token.RETURN "return"; T token.INT "10"; T token.SEMICOLON ";";
        T token.RBRACE "}";
        T token.RETURN "return"; T token.INT "1"; T token.SEMICOLON ";";
        T token.RBRACE "}"]
     (Result (Some (object.Integer 10))).
Proof.
  intros Hpre Hstmt. split; [|split].
  - rewrite !Eval_S. simpl.
    unfold evaluator.evalProgram, evaluator.evalStatements.
    rewrite <- (app_nil_r pre).
    rewrite (evalProgram_loop_runs _ _ _ _ _ _ _ _ Hpre).
    rewrite (evalStatements_loop_runs _ _ _ _ _ _ _ _ Hpre). split; reflexivity.
  - destruct res as [[]|]; try exact I;
      rewrite !Eval_S; simpl;
      unfold evaluator.evalProgram, evaluator.evalStatements;
      rewrite (evalProgram_loop_runs _ _ _ _ _ _ _ _ Hpre);
      rewrite (evalStatements_loop_runs _ _ _ _ _ _ _ _ Hpre);
      simpl; unfold go.bind; rewrite Hstmt; split; reflexivity.
  - evaluates 20.
Qed.

(** *** push and len *)

(** What [make], [copy] and the indexed write of [push] build. *)
Lemma push_elements (elements : list (option object.Object)) (x : option object.Object) :
  <[length elements := x]>
    (evaluator.copy (evaluator.make (length elements + 1)) elements)
  = elements ++ [x].
Proof.
  unfold evaluator.copy, evaluator.make.
  rewrite length_replicate, take_ge by lia.
  rewrite drop_replicate.
  replace (length elements + 1 - length elements) with 1 by lia. simpl.
  rewrite insert_app_r_alt by lia.
  replace (length elements - length elements) with 0 by lia. reflexivity.
Qed.

(** C7: [push(a, x)] returns an array at an address no object has yet,
    whose elements are those of [a] followed by [x]; no environment changes,
    so every name bound to [a] is still bound to the same array, and
    [len(a)] is the same number before and after.  The program
    [let a = [1, 2, 3, 4]; let b = push(a, 5); len(a) + len(b);] evaluates
    to 9. *)
Theorem C7_push_allocates_and_preserves (a : nat) (elements : list (option object.Object))
    (x : option object.Object) (st : object.State) :
  a < object.nextAddr st ->
  evaluator.builtins BlockStatement_String mapOrder !! "push" = Some evaluator.builtin_push
  /\ (exists (b : nat) (st' : object.State),
        evaluator.builtin_push [Some (object.Array a elements); x] st
        = go.Ok (Some (object.Array b (elements ++ [x])), st')
        /\ b <> a
        /\ object.envs st' = object.envs st
        /\ object.stdout st' = object.stdout st
        /\ go.value (evaluator.builtin_len [Some (object.Array a elements)] st)
           = go.Ok (Some (object.Integer (Z.of_nat (length elements))))
        /\ go.value (evaluator.builtin_len [Some (object.Array a elements)] st')
           = go.Ok (Some (object.Integer (Z.of_nat (length elements))))
        /\ go.value (evaluator.builtin_len [Some (object.Array b (elements ++ [x]))] st')
           = go.Ok (Some (object.Integer (Z.of_nat (length elements) + 1))))
  /\ evaluatesTo BlockStatement_String mapOrder
       [T token.LET "let"; T token.IDENT "a"; T token.ASSIGN "="; T token.LBRACKET "[";
        T token.INT "1"; T token.COMMA ","; T token.INT "2"; T token.COMMA ",";
        T token.INT "3"; T token.COMMA ","; T token.INT "4"; T token.RBRACKET "]";
        T token.SEMICOLON ";";
        T token.LET "let"; T token.IDENT "b"; T token.ASSIGN "="; T token.IDENT "push";
        T token.LPAREN "("; T token.IDENT "a"; T token.COMMA ","; T token.INT "5";
        T token.RPAREN ")"; T token.SEMICOLON ";";
        T token.IDENT "len"; T token.LPAREN "("; T token.IDENT "a"; T token.RPAREN ")";
        T token.PLUS "+";
        T token.IDENT "len"; T token.LPAREN "("; T token.IDENT "b"; T token.RPAREN ")";
        T token.SEMICOLON ";"]
     (Result (Some (object.Integer 9))).
Proof.
  intros Ha. split; [reflexivity|]. split; [|evaluates 20].
  exists (object.nextAddr st).
  exists {| object.envs := object.envs st; object.nextAddr := S (object.nextAddr st);
            object.ranges := object.ranges st; object.stdout := object.stdout st |}.
  split; [|split; [lia|split; [reflexivity|split; [reflexivity|split; [reflexivity|split;
    [reflexivity|]]]]]].
  - unfold evaluator.builtin_push. cbn. unfold go.bind, object.alloc, go.ret.
    rewrite push_elements. reflexivity.
  - unfold evaluator.builtin_len, go.value, go.ret. simpl.
    rewrite length_app, Nat2Z.inj_add. reflexivity.
Qed.

(** *** Index expressions *)

(** C9: on an Array and an Integer index [i], an index expression yields
    NULL when [i] is negative or at least the length, and the element at
    position [i] otherwise; on an Array and an index object of any other
    kind it yields an error.  So [[1, 2, 3][3]] and [[1, 2, 3][-1]] are
    NULL, [[1, 2, 3][1]] is 2 and [[1, 2, 3][true]] is an error. *)
Theorem C9_array_index (a : nat) (elements : list (option object.Object)) (i : Z)
    (index : object.Object) (st : object.State) :
  ((i < 0 \/ Z.of_nat (length elements) <= i)%Z ->
     evaluator.evalIndexExpression
       (Some (object.Array a elements)) (Some (object.Integer i)) st
     = go.Ok (Some evaluator.NULL, st))
  /\ ((0 <= i < Z.of_nat (length elements))%Z ->
      exists v : option object.Object,
        elements !! Z.to_nat i = Some v
        /\ evaluator.evalIndexExpression
             (Some (object.Array a elements)) (Some (object.Integer i)) st
           = go.Ok (v, st))
  /\ (object.TypeOf index <> object.INTEGER_OBJ ->
      evaluator.evalIndexExpression (Some (object.Array a elements)) (Some index) st
      = go.Ok (Some (object.Error "index operator not supported: ARRAY"), st))
  /\ evaluatesTo BlockStatement_String mapOrder
       [T token.LBRACKET "["; T token.INT "1"; T token.COMMA ","; T token.INT "2";
        T token.COMMA ","; T token.INT "3"; T token.RBRACKET "]";
        T token.LBRACKET "["; T token.INT "3"; T token.RBRACKET "]"]
     (Result (Some object.Null))
  /\ evaluatesTo BlockStatement_String mapOrder
       [T token.LBRACKET "["; T token.INT "1"; T token.COMMA ","; T token.INT "2";
        T token.COMMA ","; T token.INT "3"; T token.RBRACKET "]";
        T token.LBRACKET "["; T token.MINUS "-"; T token.INT "1"; T token.RBRACKET "]"]
     (Result (Some object.Null))
  /\ evaluatesTo BlockStatement_String mapOrder
       [T token.LBRACKET "["; T token.INT "1"; T token.COMMA ","; T token.INT "2";
        T token.COMMA ","; T token.INT "3"; T token.RBRACKET "]";
        T token.LBRACKET "["; T token.INT "1"; T token.RBRACKET "]"]
     (Result (Some (object.Integer 2)))
  /\ evaluatesTo BlockStatement_String mapOrder
       [T token.LBRACKET "["; T token.INT "1"; T token.COMMA ","; T token.INT "2";
        T token.COMMA ","; T token.INT "3"; T token.RBRACKET "]";
        T token.LBRACKET "["; T token.TRUE "true"; T token.RBRACKET "]"]
     (Result (Some (object.Error "index operator not supported: ARRAY"))).
Proof.
  split; [|split; [|split; [|repeat (split; [evaluates 10|]); evaluates 10]]].
  - intros Hout. unfold evaluator.evalIndexExpression. cbn.
    unfold evaluator.evalArrayIndexExpression.
    destruct (Z.ltb_spec i 0); [reflexivity|].
    destruct (Z.ltb_spec (Z.of_nat (length elements) - 1) i); [reflexivity|]. lia.
  - intros Hin. unfold evaluator.evalIndexExpression. cbn.
    unfold evaluator.evalArrayIndexExpression.
    destruct (Z.ltb_spec i 0); [lia|].
    destruct (Z.ltb_spec (Z.of_nat (length elements) - 1) i); [lia|]. cbn.
    destruct (elements !! Z.to_nat i) as [v|] eqn:Hv.
    + exists v. split; reflexivity.
    + apply lookup_ge_None in Hv. lia.
  - intros Hkind. destruct index; try reflexivity. contradiction Hkind. reflexivity.
Qed.

(** *** Identifiers *)

Lemma Sprintf_percentFree (s : string) : percentFree s = true -> go.Sprintf s [] = s.
Proof.
  induction s as [|c s IH]; simpl; [reflexivity|].
  destruct (Ascii.eqb c "%"); simpl; [discriminate|].
  intros H. rewrite IH by assumption. reflexivity.
Qed.

Lemma percentFree_app (a b : string) :
  percentFree (a +:+ b) = percentFree a && percentFree b.
Proof.
  induction a as [|c a IH]; simpl; [reflexivity|].
  rewrite IH. destruct (Ascii.eqb c "%"); reflexivity.
Qed.

Lemma builtins_names (name : string) :
  is_Some (evaluator.builtins BlockStatement_String mapOrder !! name)
  <-> name ∈ builtinNames.
Proof.
  unfold evaluator.builtins, builtinNames.
  rewrite !lookup_insert_is_Some', lookup_empty, !elem_of_cons, elem_of_nil.
  split; intros H; repeat destruct H as [H|H]; subst; auto 10.
  - destruct H as [? H]; discriminate H.
  - contradiction H.
Qed.

(** One step of [Get]: the store of the environment itself first, then
    the outer environment. *)
Lemma Get_S (fuel : nat) (h : list object.Environment) (env : nat) (key : string)
    (e : object.Environment) :
  h !! env = Some e ->
  object.Get (S fuel) h env key
  = match object.store e !! key with
    | Some v => go.Ok (v, true)
    | None =>
        match object.outer e with
        | Some o => object.Get fuel h o key
        | None => go.Ok (None, false)
        end
    end.
Proof.
  intros He. simpl. rewrite He. unfold object.storeLookup.
  destruct (object.store e !! key); simpl; [reflexivity|].
  destruct (object.outer e); reflexivity.
Qed.

(** C8: an identifier is looked up in the environment chain, innermost
    scope first; a name found there is the result, whether or not a
    built-in has that name.  A name not found in the chain is looked up in
    the built-ins table.  A name found in neither yields the error
    [identifier not found: ] followed by the name (names are runs of
    letters and underscores; what is used here is that they hold no [%]).
    [foobar] in a new environment yields [identifier not found: foobar];
    after [let len = 3;], [len] is 3. *)
Theorem C8_identifier_resolution (fuel env : nat) (name : string) (st : object.State)
    (e : object.Environment) (obj : option object.Object) (ok : bool) :
  percentFree name = true ->
  object.envs st !! env = Some e ->
  object.Get fuel (object.envs st) env name = go.Ok (obj, ok) ->
  object.Get (S fuel) (object.envs st) env name
  = match object.store e !! name with
    | Some v => go.Ok (v, true)
    | None =>
        match object.outer e with
        | Some o => object.Get fuel (object.envs st) o name
        | None => go.Ok (None, false)
        end
    end
  /\ Eval (S fuel) (ast.NodeExpression (ast.Identifier name)) env st
     = go.Ok (if ok then obj
              else if bool_decide (name ∈ builtinNames)
                   then Some (object.Builtin name)
                   else Some (object.Error ("identifier not found: " +:+ name)), st)
  /\ evaluatesTo BlockStatement_String mapOrder [T token.IDENT "foobar"]
     (Result (Some (object.Error "identifier not found: foobar")))
  /\ evaluatesTo BlockStatement_String mapOrder
       [T token.LET "let"; T token.IDENT "len"; T token.ASSIGN "="; T token.INT "3";
        T token.SEMICOLON ";"; T token.IDENT "len"]
     (Result (Some (object.Integer 3))).
Proof.
  intros Hname He Hget.
  split; [apply Get_S; assumption|].
  split; [|split; evaluates 10].
  rewrite Eval_S. simpl. unfold evaluator.evalIdentifier.
  unfold go.bind, go.get, go.lift. rewrite Hget. simpl.
  destruct ok; [reflexivity|].
  destruct (evaluator.builtins BlockStatement_String mapOrder !! name) as [fn|] eqn:Hb.
  - rewrite bool_decide_eq_true_2; [reflexivity|].
    apply builtins_names. rewrite Hb. eexists; reflexivity.
  - rewrite bool_decide_eq_false_2.
    + unfold evaluator.newError, go.ret.
      rewrite Sprintf_percentFree; [reflexivity|].
      rewrite percentFree_app, Hname. reflexivity.
    + intros Hin. apply builtins_names in Hin. rewrite Hb in Hin.
      destruct Hin as [? Hin]; discriminate Hin.
Qed.

(** *** Environments: let and assignment *)

Lemma Get_mono (n m : nat) (h : list object.Environment) (c : nat) (key : string)
    (r : option object.Object * bool) :
  object.Get n h c key = go.Ok r -> n <= m -> object.Get m h c key = go.Ok r.
Proof.
  revert m c. induction n as [|n IH]; intros m c H Hle; [discriminate H|].
  destruct m as [|m]; [lia|]. simpl in *.
  destruct (h !! c) as [ec|]; [|discriminate H].
  destruct (object.storeLookup (object.store ec) key) as [obj ok].
  destruct (negb ok), (object.outer ec); try assumption.
  apply IH; [assumption|lia].
Qed.

(** [IsKey] answers what [Get] answers in its second result. *)
Lemma IsKey_Get (fuel : nat) (h : list object.Environment) (env : nat) (key : string) :
  object.IsKey fuel h env key
  = match object.Get (S fuel) h env key with
    | go.Ok (_, ok) => go.Ok ok
    | go.Panic why => go.Panic why
    | go.OutOfFuel => go.OutOfFuel
    end.
Proof.
  unfold object.IsKey. simpl. destruct (h !! env) as [e|]; [|reflexivity].
  destruct (object.storeLookup (object.store e) key) as [obj ok].
  destruct (negb ok), (object.outer e); reflexivity.
Qed.

(** Writing [key] in an environment that does not bind it and whose outer
    environment is [o]: a lookup that succeeded before either succeeds with
    the same answer after, or went through that environment and on to [o],
    where it succeeded with less fuel. *)
Lemma Get_after_shadowing_step (h : list object.Environment) (env o : nat)
    (e : object.Environment) (key : string) (val : option object.Object)
    (n c : nat) (r : option object.Object * bool) :
  h !! env = Some e -> object.store e !! key = None -> object.outer e = Some o ->
  object.Get n h c key = go.Ok r ->
  object.Get n
    (<[env := {| object.store := <[key := val]> (object.store e);
                 object.outer := object.outer e |}]> h) c key = go.Ok r
  \/ exists m, m < n /\ object.Get m h o key = go.Ok r.
Proof.
  intros He Hk Ho. revert c. induction n as [|n IH]; intros c H; [discriminate H|].
  destruct (decide (c = env)) as [->|Hne].
  - right. exists n. split; [lia|].
    rewrite (Get_S _ _ _ _ _ He), Hk, Ho in H. exact H.
  - simpl in *. rewrite list_lookup_insert_ne by congruence.
    destruct (h !! c) as [ec|]; [|discriminate H].
    destruct (object.storeLookup (object.store ec) key) as [obj ok].
    destruct (negb ok), (object.outer ec) as [c'|]; try (left; assumption).
    destruct (IH c' H) as [Hl|(m & Hm & Hr)]; [left; assumption|].
    right. exists m. split; [lia|assumption].
Qed.

(** So a lookup from the outer environment is not affected: the outer
    binding is shadowed, not changed. *)
Lemma Get_after_shadowing (h : list object.Environment) (env o : nat)
    (e : object.Environment) (key : string) (val : option object.Object)
    (n : nat) (r : option object.Object * bool) :
  h !! env = Some e -> object.store e !! key = None -> object.outer e = Some o ->
  object.Get n h o key = go.Ok r ->
  object.Get n
    (<[env := {| object.store := <[key := val]> (object.store e);
                 object.outer := object.outer e |}]> h) o key = go.Ok r.
Proof.
  intros He Hk Ho. induction n as [n IH] using lt_wf_ind. intros H.
  destruct (Get_after_shadowing_step h env o e key val n o r He Hk Ho H)
    as [Hl|(m & Hm & Hr)]; [assumption|].
  apply (Get_mono m n); [|lia]. apply IH; assumption.
Qed.

(** After the write the environment itself binds the key. *)
Lemma Get_after_Set (fuel : nat) (h : list object.Environment) (env : nat)
    (e : object.Environment) (key : string) (val : option object.Object) :
  h !! env = Some e ->
  object.Get (S fuel)
    (<[env := {| object.store := <[key := val]> (object.store e);
                 object.outer := object.outer e |}]> h) env key = go.Ok (val, true).
Proof.
  intros He. simpl. rewrite list_lookup_insert_eq by (eapply lookup_lt_Some; eassumption).
  unfold object.storeLookup. simpl. rewrite lookup_insert_eq. reflexivity.
Qed.

Lemma Eval_let (fuel env : nat) (name : string) (value : option ast.Expression)
    (st st1 : object.State) (val : option object.Object) (e : object.Environment) :
  Eval fuel (ast.ofExpression value) env st = go.Ok (val, st1) ->
  evaluator.isError val = false ->
  object.envs st1 !! env = Some e ->
  Eval (S fuel) (ast.NodeStatement (ast.LetStatement name value)) env st
  = go.Ok (None, afterSet st1 env e name val).
Proof.
  intros Hval Herr He. rewrite Eval_S. simpl. unfold go.bind at 1. rewrite Hval, Herr.
  unfold go.bind, object.Set_. rewrite He. reflexivity.
Qed.

Lemma Eval_assignment_bound (fuel env : nat) (name : string) (value : option ast.Expression)
    (st st1 : object.State) (val found : option object.Object) (e : object.Environment) :
  Eval fuel (ast.ofExpression value) env st = go.Ok (val, st1) ->
  evaluator.isError val = false ->
  object.envs st1 !! env = Some e ->
  object.Get (S fuel) (object.envs st1) env name = go.Ok (found, true) ->
  Eval (S fuel) (ast.NodeExpression (ast.AssignmentExpression name value)) env st
  = go.Ok (None, afterSet st1 env e name val).
Proof.
  intros Hval Herr He Hget. rewrite Eval_S. simpl. unfold go.bind at 1. rewrite Hval, Herr.
  unfold go.bind, go.get, go.lift. rewrite IsKey_Get, Hget. simpl.
  unfold object.Set_. rewrite He. reflexivity.
Qed.

Lemma Eval_assignment_unbound (fuel env : nat) (name : string) (value : option ast.Expression)
    (st st1 : object.State) (val notFound : option object.Object) :
  Eval fuel (ast.ofExpression value) env st = go.Ok (val, st1) ->
  evaluator.isError val = false ->
  object.Get (S fuel) (object.envs st1) env name = go.Ok (notFound, false) ->
  Eval (S fuel) (ast.NodeExpression (ast.AssignmentExpression name value)) env st
  = go.Ok (Some (object.Error ("identifier not found `" +:+ name +:+ "`")), st1).
Proof.
  intros Hval Herr Hget. rewrite Eval_S. simpl. unfold go.bind at 1. rewrite Hval, Herr.
  unfold go.bind, go.get, go.lift. rewrite IsKey_Get, Hget. reflexivity.
Qed.

(** C2 (as the code has it): [let] writes to the current scope.  An
    assignment [x = v] evaluated where [x] is bound only in an outer scope
    succeeds and writes the new value to the current scope as well: the
    current scope now binds [x] (shadowing the outer binding), every other
    environment is unchanged, and a lookup from the outer scope still finds
    the old value.  If [x] is bound nowhere in the chain the assignment
    yields the error [identifier not found ] followed by the name between
    backquotes. *)
Theorem C2_assignment_writes_current_scope (fuel env : nat) (name : string)
    (value : option ast.Expression) (st st1 : object.State) (val : option object.Object)
    (e : object.Environment) :
  Eval fuel (ast.ofExpression value) env st = go.Ok (val, st1) ->
  evaluator.isError val = false ->
  object.envs st1 !! env = Some e ->
  Eval (S fuel) (ast.NodeStatement (ast.LetStatement name value)) env st
  = go.Ok (None, afterSet st1 env e name val)
  /\ (forall (o : nat) (old : option object.Object),
        object.store e !! name = None ->
        object.outer e = Some o ->
        object.Get fuel (object.envs st1) o name = go.Ok (old, true) ->
        Eval (S fuel) (ast.NodeExpression (ast.AssignmentExpression name value)) env st
        = go.Ok (None, afterSet st1 env e name val)
        /\ object.Get (S fuel) (object.envs (afterSet st1 env e name val)) env name
           = go.Ok (val, true)
        /\ object.Get fuel (object.envs (afterSet st1 env e name val)) o name
           = go.Ok (old, true)
        /\ (forall env' : nat, env' <> env ->
              object.envs (afterSet st1 env e name val) !! env' = object.envs st1 !! env'))
  /\ (forall notFound : option object.Object,
        object.Get (S fuel) (object.envs st1) env name = go.Ok (notFound, false) ->
        Eval (S fuel) (ast.NodeExpression (ast.AssignmentExpression name value)) env st
        = go.Ok (Some (object.Error ("identifier not found `" +:+ name +:+ "`")), st1)).
Proof.
  intros Hval Herr He. split; [|split].
  - apply Eval_let; assumption.
  - intros o old Hk Ho Hget. split; [|split; [|split]].
    + apply (Eval_assignment_bound _ _ _ _ _ _ _ old); try assumption.
      rewrite (Get_S _ _ _ _ _ He), Hk, Ho. exact Hget.
    + apply Get_after_Set. assumption.
    + apply Get_after_shadowing; assumption.
    + intros env' Hne. simpl. apply list_lookup_insert_ne. congruence.
  - intros notFound Hget. eapply Eval_assignment_unbound; eassumption.
Qed.

(** C10: an assignment whose name resolves yields nil, as a let statement
    does, and leaves the state that [env.Set] leaves after the evaluation of
    the value; a program that ends in such an assignment returns nil.  The
    program [let x = 1; x = 5] has no value. *)
Theorem C10_assignment_yields_nothing (fuel env : nat) (name : string)
    (value : option ast.Expression) (pre : list ast.Statement)
    (st0 st st1 : object.State) (r val found : option object.Object)
    (e : object.Environment) :
  runs (Eval (S (S fuel))) env None pre st0 r st ->
  Eval fuel (ast.ofExpression value) env st = go.Ok (val, st1) ->
  evaluator.isError val = false ->
  object.envs st1 !! env = Some e ->
  object.Get (S fuel) (object.envs st1) env name = go.Ok (found, true) ->
  Eval (S fuel) (ast.NodeExpression (ast.AssignmentExpression name value)) env st
  = go.Ok (None, afterSet st1 env e name val)
  /\ Eval (S fuel) (ast.NodeStatement (ast.LetStatement name value)) env st
     = go.Ok (None, afterSet st1 env e name val)
  /\ Eval (S (S (S fuel)))
       (ast.NodeProgram
          {| ast.Statements :=
               pre ++ [ast.ExpressionStatement (Some (ast.AssignmentExpression name value))] |})
       env st0
     = go.Ok (None, afterSet st1 env e name val)
  /\ evaluatesTo BlockStatement_String mapOrder
       [T token.LET "let"; T token.IDENT "x"; T token.ASSIGN "="; T token.INT "1";
        T token.SEMICOLON ";"; T token.IDENT "x"; T token.ASSIGN "="; T token.INT "5"]
     (Result None).
Proof.
  intros Hpre Hval Herr He Hget.
  pose proof (Eval_assignment_bound _ _ _ _ _ _ _ _ _ Hval Herr He Hget) as Hassign.
  split; [exact Hassign|]. split; [apply Eval_let; assumption|].
  split; [|evaluates 10].
  assert (Eval (S (S fuel))
            (ast.NodeStatement
               (ast.ExpressionStatement (Some (ast.AssignmentExpression name value)))) env st
          = go.Ok (None, afterSet st1 env e name val)) as Hstmt by exact Hassign.
  rewrite Eval_S.
  change (evaluator.evalProgram_loop (Eval (S (S fuel))) None
            (pre ++ [ast.ExpressionStatement (Some (ast.AssignmentExpression name value))])
            env st0 = go.Ok (None, afterSet st1 env e name val)).
  rewrite (evalProgram_loop_runs _ _ _ _ _ _ _ _ Hpre).
  cbn [evaluator.evalProgram_loop]. unfold go.bind. rewrite Hstmt. reflexivity.
Qed.

(** *** Lists of expressions *)

(** When an expression of the list yields an error, the list returned is
    the values of the expressions before it followed by the error. *)
Lemma evalExpressions_loop_error (ev : ast.Node -> nat -> evaluator.E (option object.Object))
    (args : list (option object.Object)) (exp : option ast.Expression)
    (rest : list (option ast.Expression)) (env : nat) (st st' : object.State)
    (err : option object.Object) :
  ev (ast.ofExpression exp) env st = go.Ok (err, st') ->
  evaluator.isError err = true ->
  evaluator.evalExpressions_loop ev args (exp :: rest) env st = go.Ok (args ++ [err], st').
Proof.
  intros Hev Herr. simpl. unfold go.bind. rewrite Hev, Herr. reflexivity.
Qed.

Lemma evalExpressions_loop_value (ev : ast.Node -> nat -> evaluator.E (option object.Object))
    (args : list (option object.Object)) (exp : option ast.Expression)
    (rest : list (option ast.Expression)) (env : nat) (st st' : object.State)
    (v : option object.Object) :
  ev (ast.ofExpression exp) env st = go.Ok (v, st') ->
  evaluator.isError v = false ->
  evaluator.evalExpressions_loop ev args (exp :: rest) env st
  = evaluator.evalExpressions_loop ev (args ++ [v]) rest env st'.
Proof.
  intros Hev Herr. simpl. unfold go.bind. rewrite Hev, Herr. reflexivity.
Qed.

(** C1 (what the code does): the array literal [[1, foobar]], with
    [foobar] unbound, evaluates to an array that holds 1 and the error.
    [evalExpressions] returns the two-element list of the value of [1] and
    the error; the caller only looks for an error in a list of length one.
    In the same way [len(1, foobar)] calls [len] with two arguments, the
    second being the error.  When the error comes from the first expression
    the list has one element and the error is the result. *)
Theorem C1_error_list_keeps_earlier_values :
  evaluator.evalExpressions (Eval 3)
    [Some (ast.IntegerLiteral 1); Some (ast.Identifier "foobar"); Some (ast.IntegerLiteral 2)]
    0 rootOnly
  = go.Ok ([Some (object.Integer 1); Some (object.Error "identifier not found: foobar")],
           rootOnly)
  /\ evaluatesTo BlockStatement_String mapOrder
       [T token.LBRACKET "["; T token.INT "1"; T token.COMMA ","; T token.IDENT "foobar";
        T token.RBRACKET "]"]
     (Result (Some (object.Array 0
                      [Some (object.Integer 1);
                       Some (object.Error "identifier not found: foobar")])))
  /\ evaluatesTo BlockStatement_String mapOrder
       [T token.IDENT "len"; T token.LPAREN "("; T token.INT "1"; T token.COMMA ",";
        T token.IDENT "foobar"; T token.RPAREN ")"]
     (Result (Some (object.Error "wrong number of arguments. got=2, want=1")))
  /\ evaluatesTo BlockStatement_String mapOrder
       [T token.LBRACKET "["; T token.IDENT "foobar"; T token.COMMA ","; T token.INT "1";
        T token.RBRACKET "]"]
     (Result (Some (object.Error "identifier not found: foobar"))).
Proof. split; [vm_compute; reflexivity|]. repeat (split; [evaluates 10|]). evaluates 10. Qed.

End Properties.

Lemma C7_push_allocates_and_preserves_witness :
  evaluator.builtins noRendering insertionOrder !! "push" = Some evaluator.builtin_push
  /\ (exists (b : nat) (st' : object.State),
        evaluator.builtin_push
          [Some (object.Array 0 [Some (object.Integer 1)]); Some (object.Integer 2)]
          {| object.envs := []; object.nextAddr := 1; object.ranges := 0; object.stdout := [] |}
        = go.Ok (Some (object.Array b ([Some (object.Integer 1)] ++ [Some (object.Integer 2)])),
                 st')
        /\ b <> 0
        /\ object.envs st' = []
        /\ object.stdout st' = []
        /\ go.value (evaluator.builtin_len [Some (object.Array 0 [Some (object.Integer 1)])]
             {| object.envs := []; object.nextAddr := 1; object.ranges := 0;
                object.stdout := [] |})
           = go.Ok (Some (object.Integer (Z.of_nat 1)))
        /\ go.value (evaluator.builtin_len [Some (object.Array 0 [Some (object.Integer 1)])] st')
           = go.Ok (Some (object.Integer (Z.of_nat 1)))
        /\ go.value (evaluator.builtin_len
             [Some (object.Array b ([Some (object.Integer 1)] ++ [Some (object.Integer 2)]))] st')
           = go.Ok (Some (object.Integer (Z.of_nat 1 + 1))))
  /\ evaluatesTo noRendering insertionOrder
       [T token.LET "let"; T token.IDENT "a"; T token.ASSIGN "="; T token.LBRACKET "[";
        T token.INT "1"; T token.COMMA ","; T token.INT "2"; T token.COMMA ",";
        T token.INT "3"; T token.COMMA ","; T token.INT "4"; T token.RBRACKET "]";
        T token.SEMICOLON ";";
        T token.LET "let"; T token.IDENT "b"; T token.ASSIGN "="; T token.IDENT "push";
        T token.LPAREN "("; T token.IDENT "a"; T token.COMMA ","; T token.INT "5";
        T token.RPAREN ")"; T token.SEMICOLON ";";
        T token.IDENT "len"; T token.LPAREN "("; T token.IDENT "a"; T token.RPAREN ")";
        T token.PLUS "+";
        T token.IDENT "len"; T token.LPAREN "("; T token.IDENT "b"; T token.RPAREN ")";
        T token.SEMICOLON ";"]
     (Result (Some (object.Integer 9))).
Proof.
  apply (C7_push_allocates_and_preserves noRendering insertionOrder 0 [Some (object.Integer 1)] (Some (object.Integer 2))
           {| object.envs := []; object.nextAddr := 1; object.ranges := 0;
              object.stdout := [] |}).
  simpl. lia.
Defined.

Lemma C8_identifier_resolution_witness :
  object.Get 2 (object.envs rootOnly) 0 "foobar"
  = match object.store {| object.store := ∅; object.outer := None |} !! "foobar" with
    | Some v => go.Ok (v, true)
    | None =>
        match object.outer {| object.store := ∅; object.outer := None |} with
        | Some o => object.Get 1 (object.envs rootOnly) o "foobar"
        | None => go.Ok (None, false)
        end
    end
  /\ evaluator.Eval noRendering insertionOrder 2
       (ast.NodeExpression (ast.Identifier "foobar")) 0 rootOnly
     = go.Ok (if false then None
              else if bool_decide ("foobar" ∈ builtinNames)
                   then Some (object.Builtin "foobar")
                   else Some (object.Error ("identifier not found: " +:+ "foobar")), rootOnly)
  /\ evaluatesTo noRendering insertionOrder [T token.IDENT "foobar"]
     (Result (Some (object.Error "identifier not found: foobar")))
  /\ evaluatesTo noRendering insertionOrder
       [T token.LET "let"; T token.IDENT "len"; T token.ASSIGN "="; T token.INT "3";
        T token.SEMICOLON ";"; T token.IDENT "len"]
     (Result (Some (object.Integer 3))).
Proof.
  apply (C8_identifier_resolution noRendering insertionOrder 1 0 "foobar" rootOnly
           {| object.store := ∅; object.outer := None |} None false); reflexivity.
Defined.

Lemma C9_array_index_witness :
  evaluator.evalIndexExpression
    (Some (object.Array 0 [Some (object.Integer 10); Some (object.Integer 20)]))
    (Some (object.Integer 2)) rootOnly
  = go.Ok (Some evaluator.NULL, rootOnly)
  /\ (exists v : option object.Object,
        [Some (object.Integer 10); Some (object.Integer 20)] !! Z.to_nat 1 = Some v
        /\ evaluator.evalIndexExpression
             (Some (object.Array 0 [Some (object.Integer 10); Some (object.Integer 20)]))
             (Some (object.Integer 1)) rootOnly
           = go.Ok (v, rootOnly))
  /\ evaluator.evalIndexExpression
       (Some (object.Array 0 [Some (object.Integer 10); Some (object.Integer 20)]))
       (Some (object.String "1")) rootOnly
     = go.Ok (Some (object.Error "index operator not supported: ARRAY"), rootOnly).
Proof.
  split; [|split].
  - apply (C9_array_index noRendering insertionOrder 0
             [Some (object.Integer 10); Some (object.Integer 20)] 2 object.Null rootOnly).
    simpl. lia.
  - apply (C9_array_index noRendering insertionOrder 0
             [Some (object.Integer 10); Some (object.Integer 20)] 1 object.Null rootOnly).
    simpl. lia.
  - apply (C9_array_index noRendering insertionOrder 0
             [Some (object.Integer 10); Some (object.Integer 20)] 0 (object.String "1")
             rootOnly).
    simpl. discriminate.
Defined.

Lemma C6_program_unwraps_block_propagates_witness :
  (evaluator.Eval noRendering insertionOrder 4
     (ast.NodeProgram
        {| ast.Statements := [ast.ExpressionStatement (Some (ast.IntegerLiteral 1))] |})
     0 rootOnly
   = go.Ok (Some (object.Integer 1), rootOnly)
   /\ evaluator.Eval noRendering insertionOrder 4
        (ast.NodeBlock (ast.Block [ast.ExpressionStatement (Some (ast.IntegerLiteral 1))]))
        0 rootOnly
      = go.Ok (Some (object.Integer 1), rootOnly))
  /\ (evaluator.Eval noRendering insertionOrder 4
        (ast.NodeProgram
           {| ast.Statements :=
                [ast.ExpressionStatement (Some (ast.IntegerLiteral 1))]
                ++ ast.ReturnStatement (Some (ast.IntegerLiteral 2))
                   :: [ast.ExpressionStatement (Some (ast.IntegerLiteral 3))] |})
        0 rootOnly
      = go.Ok (Some (object.Integer 2),
               {| object.envs := object.envs rootOnly; object.nextAddr := 1;
                  object.ranges := 0; object.stdout := [] |})
      /\ evaluator.Eval noRendering insertionOrder 4
           (ast.NodeBlock
              (ast.Block
                 ([ast.ExpressionStatement (Some (ast.IntegerLiteral 1))]
                  ++ ast.ReturnStatement (Some (ast.IntegerLiteral 2))
                     :: [ast.ExpressionStatement (Some (ast.IntegerLiteral 3))])))
           0 rootOnly
         = go.Ok (Some (object.ReturnValue 0 (Some (object.Integer 2))),
                  {| object.envs := object.envs rootOnly; object.nextAddr := 1;
                     object.ranges := 0; object.stdout := [] |}))
  /\ evaluatesTo noRendering insertionOrder
       [T token.IF "if"; T token.LPAREN "("; T token.INT "10"; T token.GT ">";
        T token.INT "1"; T token.RPAREN ")"; T token.LBRACE "{";
        T token.IF "if"; T token.LPAREN "("; T token.INT "10"; T token.GT ">";
        T token.INT "1"; T token.RPAREN ")"; T token.LBRACE "{";
        T token.RETURN "return"; T token.INT "10"; T token.SEMICOLON ";";
        T token.RBRACE "}";
        T token.RETURN "return"; T token.INT "1"; T token.SEMICOLON ";";
        T token.RBRACE "}"]
     (Result (Some (object.Integer 10))).
Proof.
  apply (C6_program_unwraps_block_propagates noRendering insertionOrder 3 0
           [ast.ExpressionStatement (Some (ast.IntegerLiteral 1))]
           [ast.ExpressionStatement (Some (ast.IntegerLiteral 3))]
           (ast.ReturnStatement (Some (ast.IntegerLiteral 2)))
           rootOnly rootOnly
           {| object.envs := object.envs rootOnly; object.nextAddr := 1;
              object.ranges := 0; object.stdout := [] |}
           (Some (object.Integer 1))
           (Some (object.ReturnValue 0 (Some (object.Integer 2))))).
  - apply (runs_cons _ _ _ (Some (object.Integer 1)) _ _ _ _ rootOnly);
      [reflexivity | exact I | apply runs_nil].
  - reflexivity.
Defined.

Lemma C2_assignment_writes_current_scope_witness :
  evaluator.Eval noRendering insertionOrder 2
    (ast.NodeStatement (ast.LetStatement "x" (Some (ast.IntegerLiteral 5)))) 1 twoScopes
  = go.Ok (None, twoScopesShadowed)
  /\ (evaluator.Eval noRendering insertionOrder 2 (ast.NodeExpression assignX5) 1 twoScopes
      = go.Ok (None, twoScopesShadowed)
      /\ object.Get 2 (object.envs twoScopesShadowed) 1 "x"
         = go.Ok (Some (object.Integer 5), true)
      /\ object.Get 1 (object.envs twoScopesShadowed) 0 "x"
         = go.Ok (Some (object.Integer 1), true)
      /\ (forall env' : nat, env' <> 1 ->
            object.envs twoScopesShadowed !! env' = object.envs twoScopes !! env'))
  /\ evaluator.Eval noRendering insertionOrder 2
       (ast.NodeExpression (ast.AssignmentExpression "y" (Some (ast.IntegerLiteral 5))))
       0 rootOnly
     = go.Ok (Some (object.Error "identifier not found `y`"), rootOnly).
Proof.
  split; [|split].
  - apply (C2_assignment_writes_current_scope noRendering insertionOrder 1 1 "x"
             (Some (ast.IntegerLiteral 5)) twoScopes twoScopes (Some (object.Integer 5))
             {| object.store := ∅; object.outer := Some 0 |}); reflexivity.
  - destruct (C2_assignment_writes_current_scope noRendering insertionOrder 1 1 "x"
                (Some (ast.IntegerLiteral 5)) twoScopes twoScopes (Some (object.Integer 5))
                {| object.store := ∅; object.outer := Some 0 |}
                eq_refl eq_refl eq_refl) as (_ & Hbound & _).
    exact (Hbound 0 (Some (object.Integer 1)) eq_refl eq_refl eq_refl).
  - destruct (C2_assignment_writes_current_scope noRendering insertionOrder 1 0 "y"
                (Some (ast.IntegerLiteral 5)) rootOnly rootOnly (Some (object.Integer 5))
                {| object.store := ∅; object.outer := None |}
                eq_refl eq_refl eq_refl) as (_ & _ & Hunbound).
    exact (Hunbound None eq_refl).
Defined.

(** In [twoScopes] the name [x] is bound only in the outer scope.  The
    assignment [x = 5] evaluated in the inner scope succeeds, and binds [x]
    in the inner scope; the binding of the outer scope is not written: a
    lookup from there still finds 1.  Accordingly [f() + x] is 2 + 1 in
    [let x = 1; let f = fn() { x = 2; x }; f() + x]. *)
Lemma C2_counterexample :
  object.Get 2 (object.envs twoScopes) 1 "x" = go.Ok (Some (object.Integer 1), true)
  /\ object.store {| object.store := ∅; object.outer := Some 0 |} !! "x" = None
  /\ evaluator.Eval noRendering insertionOrder 2 (ast.NodeExpression assignX5) 1 twoScopes
     = go.Ok (None, twoScopesShadowed)
  /\ object.Get 1 (object.envs twoScopesShadowed) 0 "x"
     = go.Ok (Some (object.Integer 1), true)
  /\ object.Get 1 (object.envs twoScopesShadowed) 0 "x"
     <> go.Ok (Some (object.Integer 5), true)
  /\ evaluatesTo noRendering insertionOrder
       [T token.LET "let"; T token.IDENT "x"; T token.ASSIGN "="; T token.INT "1";
        T token.SEMICOLON ";";
        T token.LET "let"; T token.IDENT "f"; T token.ASSIGN "="; T token.FUNCTION "fn";
        T token.LPAREN "("; T token.RPAREN ")"; T token.LBRACE "{";
        T token.IDENT "x"; T token.ASSIGN "="; T token.INT "2"; T token.SEMICOLON ";";
        T token.IDENT "x"; T token.RBRACE "}"; T token.SEMICOLON ";";
        T token.IDENT "f"; T token.LPAREN "("; T token.RPAREN ")"; T token.PLUS "+";
        T token.IDENT "x"]
     (Result (Some (object.Integer 3))).
Proof.
  repeat (split; [vm_compute; reflexivity|]).
  split; [vm_compute; intros H; discriminate H|]. evaluates 20.
Qed.

Lemma C10_assignment_yields_nothing_witness :
  evaluator.Eval noRendering insertionOrder 2 (ast.NodeExpression assignX5) 0 (rootX 1)
  = go.Ok (None,
           afterSet (rootX 1) 0
             {| object.store := <["x" := Some (object.Integer 1)]> ∅; object.outer := None |}
             "x" (Some (object.Integer 5)))
  /\ evaluator.Eval noRendering insertionOrder 2
       (ast.NodeStatement (ast.LetStatement "x" (Some (ast.IntegerLiteral 5)))) 0 (rootX 1)
     = go.Ok (None,
              afterSet (rootX 1) 0
                {| object.store := <["x" := Some (object.Integer 1)]> ∅;
                   object.outer := None |}
                "x" (Some (object.Integer 5)))
  /\ evaluator.Eval noRendering insertionOrder 4
       (ast.NodeProgram
          {| ast.Statements :=
               [ast.LetStatement "x" (Some (ast.IntegerLiteral 1))]
               ++ [ast.ExpressionStatement (Some assignX5)] |})
       0 rootOnly
     = go.Ok (None,
              afterSet (rootX 1) 0
                {| object.store := <["x" := Some (object.Integer 1)]> ∅;
                   object.outer := None |}
                "x" (Some (object.Integer 5)))
  /\ evaluatesTo noRendering insertionOrder
       [T token.LET "let"; T token.IDENT "x"; T token.ASSIGN "="; T token.INT "1";
        T token.SEMICOLON ";"; T token.IDENT "x"; T token.ASSIGN "="; T token.INT "5"]
     (Result None).
Proof.
  apply (C10_assignment_yields_nothing noRendering insertionOrder 1 0 "x"
           (Some (ast.IntegerLiteral 5))
           [ast.LetStatement "x" (Some (ast.IntegerLiteral 1))]
           rootOnly (rootX 1) (rootX 1) None (Some (object.Integer 5))
           (Some (object.Integer 1))
           {| object.store := <["x" := Some (object.Integer 1)]> ∅; object.outer := None |}).
  - apply (runs_cons _ _ _ None _ _ _ _ (rootX 1)); [reflexivity | exact I | apply runs_nil].
  - reflexivity.
  - reflexivity.
  - reflexivity.
  - reflexivity.
Defined.

(* ===================================================================== *)
(** ** More properties of the code                                        *)
(* ===================================================================== *)

(** *** Strings *)

Lemma append_empty (s : string) : s +:+ "" = s.
Proof.
  induction s as [|c s IH]; [reflexivity|].
  change (String c (s +:+ "") = String c s). rewrite IH. reflexivity.
Qed.


(** *** Integer arithmetic *)

Lemma wrapInt64_range (z : Z) : go.isInt64 (go.wrapInt64 z).
Proof.
  unfold go.isInt64, go.wrapInt64, go.two63, go.two64.
  pose proof (Z.mod_pos_bound (z + 9223372036854775808) 18446744073709551616 ltac:(lia)). lia.
Qed.

Lemma wrapInt64_congruent (z : Z) : exists k : Z, go.wrapInt64 z = (z + k * 2 ^ 64)%Z.
Proof.
  unfold go.wrapInt64, go.two63, go.two64.
  exists (- ((z + 9223372036854775808) / 18446744073709551616))%Z.
  pose proof (Z.div_mod (z + 9223372036854775808) 18446744073709551616 ltac:(lia)). lia.
Qed.

Lemma wrapInt64_id (z : Z) : go.isInt64 z -> go.wrapInt64 z = z.
Proof.
  unfold go.isInt64, go.wrapInt64, go.two63, go.two64. intros H.
  rewrite Z.mod_small by lia. lia.
Qed.

(** X1: on two Integers, [+], [-] and [*] never fail: the result is an
    Integer of int64 that differs from the mathematical result by a
    multiple of 2^64, and is the mathematical result whenever that fits in
    int64 (Go's wrap-around on overflow). *)
Theorem integer_arithmetic_wraps_around (a b : Z) (st : object.State) (op : string) (f : Z -> Z -> Z) :
  In (op, f) [("+", Z.add); ("-", Z.sub); ("*", Z.mul)] ->
  exists r : Z,
    evaluator.evalInfixExpression op (Some (object.Integer a)) (Some (object.Integer b)) st
    = go.Ok (Some (object.Integer r), st)
    /\ go.isInt64 r
    /\ (exists k : Z, r = (f a b + k * 2 ^ 64)%Z)
    /\ (go.isInt64 (f a b) -> r = f a b).
Proof.
  intros Hop. exists (go.wrapInt64 (f a b)).
  split; [|split; [apply wrapInt64_range|split; [apply wrapInt64_congruent|apply wrapInt64_id]]].
  simpl in Hop. destruct Hop as [H|[H|[H|[]]]]; injection H as <- <-; reflexivity.
Qed.

Lemma isTruthy_nativeBool (b : bool) :
  evaluator.isTruthy (Some (evaluator.nativeBoolToBooleanObject b)) = b.
Proof. destruct b; reflexivity. Qed.

Lemma isError_nativeBool (b : bool) :
  evaluator.isError (Some (evaluator.nativeBoolToBooleanObject b)) = false.
Proof. destruct b; reflexivity. Qed.

Lemma quot_abs_le (a b : Z) : b <> 0%Z -> (Z.abs (Z.quot a b) <= Z.abs a)%Z.
Proof.
  intros Hb. rewrite <- Z.quot_abs by assumption.
  apply Z.quot_le_upper_bound; [lia|]. assert (1 <= Z.abs b)%Z by lia. nia.
Qed.

Lemma quot_abs_lt (a b : Z) :
  a <> 0%Z -> (1 < Z.abs b)%Z -> (Z.abs (Z.quot a b) < Z.abs a)%Z.
Proof.
  intros Ha Hb. rewrite <- Z.quot_abs by lia. apply Z.quot_lt; lia.
Qed.

Section Operators.

Variable BlockStatement_String : ast.BlockStatement -> string.
Variable mapOrder : nat -> forall X : Type, list X -> list X.

#[local] Abbreviation Eval := (evaluator.Eval BlockStatement_String mapOrder).

(** X4: when the operand evaluates to a value that is not an error, [!e]
    is the Boolean opposite to the operand's truthiness, and [!!e] is the
    Boolean of its truthiness; the state is the one the operand left. *)
Theorem bang_negates_truthiness (fuel env : nat) (e : option ast.Expression)
    (st st1 : object.State) (val : option object.Object) :
  Eval fuel (ast.ofExpression e) env st = go.Ok (val, st1) ->
  evaluator.isError val = false ->
  Eval (S fuel) (ast.NodeExpression (ast.PrefixExpression "!" e)) env st
  = go.Ok (Some (evaluator.nativeBoolToBooleanObject (negb (evaluator.isTruthy val))), st1)
  /\ Eval (S (S fuel))
       (ast.NodeExpression
          (ast.PrefixExpression "!" (Some (ast.PrefixExpression "!" e)))) env st
     = go.Ok (Some (evaluator.nativeBoolToBooleanObject (evaluator.isTruthy val)), st1).
Proof.
  intros Hval Herr.
  assert (Eval (S fuel) (ast.NodeExpression (ast.PrefixExpression "!" e)) env st
          = go.Ok (Some (evaluator.nativeBoolToBooleanObject (negb (evaluator.isTruthy val))),
                   st1)) as Hone.
  { rewrite Eval_S. simpl. unfold go.bind. rewrite Hval, Herr.
    destruct val as [[| [] | | | | | | | | ]|]; reflexivity. }
  split; [exact Hone|].
  rewrite Eval_S.
  change (evaluator.Eval_body BlockStatement_String mapOrder (S fuel) (Eval (S fuel))
            (ast.NodeExpression (ast.PrefixExpression "!" (Some (ast.PrefixExpression "!" e))))
            env st)
    with (go.bind (Eval (S fuel) (ast.NodeExpression (ast.PrefixExpression "!" e)) env)
            (fun right =>
               if evaluator.isError right then go.ret right
               else evaluator.evalPrefixExpression "!" right) st).
  unfold go.bind. rewrite Hone, isError_nativeBool.
  destruct (evaluator.isTruthy val); reflexivity.
Qed.

(** X3: prefix [-] on an Integer of int64 is its opposite, except on
    -2^63, which it returns unchanged; on an object of any other kind it is
    the error [unknown operator: -KIND]. *)
Theorem minus_negates_with_wrap_around (v : Z) (obj : object.Object) (st : object.State) :
  go.isInt64 v ->
  evaluator.evalPrefixExpression "-" (Some (object.Integer v)) st
  = go.Ok (Some (object.Integer (if (v =? - 2 ^ 63)%Z then v else (- v)%Z)), st)
  /\ (object.TypeOf obj <> object.INTEGER_OBJ ->
      evaluator.evalPrefixExpression "-" (Some obj) st
      = go.Ok (Some (object.Error ("unknown operator: -" +:+ object.TypeOf obj)), st)).
Proof.
  intros Hv. split.
  - transitivity (go.Ok (Some (object.Integer (go.wrapInt64 (- v))), st)); [reflexivity|].
    do 4 f_equal.
    unfold go.isInt64, go.two63 in Hv. destruct (Z.eqb_spec v (- 2 ^ 63)) as [->|Hne].
    + reflexivity.
    + apply wrapInt64_id. unfold go.isInt64, go.two63. lia.
  - intros Hkind. destruct obj; try reflexivity. contradiction Hkind. reflexivity.
Qed.

(** X2: [/] on two Integers of int64 panics when the divisor is 0 (the
    Go run-time panic: no error object is returned); otherwise it is the
    quotient truncated toward zero, except that -2^63 / -1 is -2^63.  The
    program [5 / 0] panics. *)
Theorem integer_division_truncates_or_panics (a b : Z) (st : object.State) :
  go.isInt64 a -> go.isInt64 b ->
  evaluator.evalInfixExpression "/" (Some (object.Integer a)) (Some (object.Integer b)) st
  = (if (b =? 0)%Z then go.Panic go.divideByZero
     else go.Ok (Some (object.Integer
                         (if (a =? - 2 ^ 63)%Z && (b =? -1)%Z then (- 2 ^ 63)%Z
                          else Z.quot a b)), st))
  /\ (forall m : nat, 4 <= m ->
        evalTokens BlockStatement_String mapOrder m
          [T token.INT "5"; T token.SLASH "/"; T token.INT "0"]
        = go.Panic go.divideByZero).
Proof.
  intros Ha Hb. split.
  - transitivity
      (if (b =? 0)%Z then go.Panic go.divideByZero
       else go.Ok (Some (object.Integer (go.wrapInt64 (Z.quot a b))), st)).
    { unfold evaluator.evalInfixExpression, go.bind. simpl.
      unfold go.bind, go.lift, go.divInt64. destruct (b =? 0)%Z; reflexivity. }
    destruct (Z.eqb_spec b 0) as [->|Hb0]; [reflexivity|].
    do 4 f_equal.
    unfold go.isInt64, go.two63 in Ha, Hb.
    pose proof (quot_abs_le a b Hb0) as Hle.
    destruct (Z.eqb_spec a (- 2 ^ 63)) as [Ha'|Hna]; simpl.
    + destruct (Z.eqb_spec b (-1)) as [Hb'|Hnb].
      * subst. reflexivity.
      * apply wrapInt64_id. unfold go.isInt64, go.two63.
        destruct (Z.eq_dec b 1%Z) as [->|Hb1]; [rewrite Z.quot_1_r; lia|].
        pose proof (quot_abs_lt a b ltac:(lia) ltac:(lia)). lia.
    + apply wrapInt64_id. unfold go.isInt64, go.two63. lia.
  - intros m Hm.
    destruct (evalTokens_le BlockStatement_String mapOrder 4 m
                [T token.INT "5"; T token.SLASH "/"; T token.INT "0"] Hm) as [H|H].
    + vm_compute in H. discriminate H.
    + rewrite <- H. vm_compute. reflexivity.
Qed.

(** X5: on two Integers, [<], [>], [==] and [!=] compare the values;
    an operator that is none of the eight integer operators gives the error
    [unknown operator: INTEGER op INTEGER]. *)
Theorem integer_comparisons_and_unknown_operators (a b : Z) (operator : string)
    (st : object.State) :
  ~ In operator ["+"; "-"; "*"; "/"; ">"; "<"; "=="; "!="] ->
  evaluator.evalInfixExpression "<" (Some (object.Integer a)) (Some (object.Integer b)) st
  = go.Ok (Some (object.Boolean (a <? b)%Z), st)
  /\ evaluator.evalInfixExpression ">" (Some (object.Integer a)) (Some (object.Integer b)) st
     = go.Ok (Some (object.Boolean (b <? a)%Z), st)
  /\ evaluator.evalInfixExpression "==" (Some (object.Integer a)) (Some (object.Integer b)) st
     = go.Ok (Some (object.Boolean (a =? b)%Z), st)
  /\ evaluator.evalInfixExpression "!=" (Some (object.Integer a)) (Some (object.Integer b)) st
     = go.Ok (Some (object.Boolean (negb (a =? b)%Z)), st)
  /\ evaluator.evalInfixExpression operator
       (Some (object.Integer a)) (Some (object.Integer b)) st
     = go.Ok (Some (object.Error ("unknown operator: INTEGER " +:+ operator +:+ " INTEGER")),
              st).
Proof.
  intros Hop.
  assert (forall c : bool, evaluator.nativeBoolToBooleanObject c = object.Boolean c) as Hb
    by (intros []; reflexivity).
  repeat split;
    try (unfold evaluator.evalInfixExpression, go.bind; simpl; rewrite Hb; reflexivity).
  unfold evaluator.evalInfixExpression, go.bind. simpl.
  unfold evaluator.evalIntegerInfixExpression.
  repeat (rewrite bool_decide_eq_false_2; [|intros ->; apply Hop; simpl; tauto]).
  reflexivity.
Qed.

(** X6: on operands of different kinds, [==] is false and [!=] is true
    (no error), and every other operator gives the error
    [type mismatch: KIND op KIND]. *)
Theorem operands_of_different_kinds (l r : object.Object) (operator : string)
    (st : object.State) :
  object.TypeOf l <> object.TypeOf r ->
  evaluator.evalInfixExpression "==" (Some l) (Some r) st
  = go.Ok (Some evaluator.FALSE, st)
  /\ evaluator.evalInfixExpression "!=" (Some l) (Some r) st
     = go.Ok (Some evaluator.TRUE, st)
  /\ (operator <> "==" -> operator <> "!=" ->
      evaluator.evalInfixExpression operator (Some l) (Some r) st
      = go.Ok (Some (object.Error
                       ("type mismatch: " +:+ object.TypeOf l +:+ " " +:+ operator
                        +:+ " " +:+ object.TypeOf r)), st)).
Proof.
  intros Hkind. split; [|split].
  - destruct l, r; try reflexivity; contradiction Hkind; reflexivity.
  - destruct l, r; try reflexivity; contradiction Hkind; reflexivity.
  - intros H1 H2.
    destruct l, r; try (contradiction Hkind; reflexivity);
      unfold evaluator.evalInfixExpression, go.bind; simpl;
      rewrite !bool_decide_eq_false_2 by assumption; simpl;
      unfold go.ret, evaluator.newError; simpl; rewrite append_empty; reflexivity.
Qed.

(** X7: outside Integers and Strings, [==] compares identities: two
    arrays are equal exactly when they are the same allocation, whatever
    their elements; Booleans and Null are the shared constants.  Any other
    operator on two operands of one such kind gives the error
    [unknown operator: KIND op KIND].  So [[1] == [1]] is false, and
    [let a = [1]; a == a] is true. *)
Theorem equality_is_identity_except_on_integers (a b : nat)
    (elements elements' : list (option object.Object)) (x y : bool)
    (l r : object.Object) (operator : string) (st : object.State) :
  object.TypeOf l = object.TypeOf r ->
  object.TypeOf l <> object.INTEGER_OBJ ->
  object.TypeOf l <> object.STRING_OBJ ->
  operator <> "==" -> operator <> "!=" ->
  evaluator.evalInfixExpression "=="
    (Some (object.Array a elements)) (Some (object.Array b elements')) st
  = go.Ok (Some (object.Boolean (bool_decide (a = b))), st)
  /\ evaluator.evalInfixExpression "==" (Some (object.Boolean x)) (Some (object.Boolean y)) st
     = go.Ok (Some (object.Boolean (bool_decide (x = y))), st)
  /\ evaluator.evalInfixExpression "==" (Some object.Null) (Some object.Null) st
     = go.Ok (Some (object.Boolean true), st)
  /\ evaluator.evalInfixExpression operator (Some l) (Some r) st
     = go.Ok (Some (object.Error
                      ("unknown operator: " +:+ object.TypeOf l +:+ " " +:+ operator
                       +:+ " " +:+ object.TypeOf r)), st)
  /\ evaluatesTo BlockStatement_String mapOrder
       [T token.LBRACKET "["; T token.INT "1"; T token.RBRACKET "]"; T token.EQ "==";
        T token.LBRACKET "["; T token.INT "1"; T token.RBRACKET "]"]
       (Result (Some (object.Boolean false)))
  /\ evaluatesTo BlockStatement_String mapOrder
       [T token.LET "let"; T token.IDENT "a"; T token.ASSIGN "="; T token.LBRACKET "[";
        T token.INT "1"; T token.RBRACKET "]"; T token.SEMICOLON ";";
        T token.IDENT "a"; T token.EQ "=="; T token.IDENT "a"]
       (Result (Some (object.Boolean true))).
Proof.
  intros Hkind Hint Hstr H1 H2.
  split; [|split; [|split; [reflexivity|split; [|split; [evaluates 10|evaluates 10]]]]].
  - unfold evaluator.evalInfixExpression, go.bind. simpl.
    destruct (bool_decide (a = b)); reflexivity.
  - unfold evaluator.evalInfixExpression, go.bind. simpl.
    destruct (bool_decide (x = y)); reflexivity.
  - destruct l, r; try discriminate Hkind;
      try (contradiction Hint; reflexivity); try (contradiction Hstr; reflexivity);
      unfold evaluator.evalInfixExpression, go.bind; simpl;
      rewrite !bool_decide_eq_false_2 by assumption; reflexivity.
Qed.

(** X8: on two Strings [+] concatenates, and every other operator,
    [==] and [!=] included, gives the error
    [unknown operator: STRING op STRING]. *)
Theorem strings_concatenate_and_nothing_else (a b operator : string) (st : object.State) :
  operator <> "+" ->
  evaluator.evalInfixExpression "+" (Some (object.String a)) (Some (object.String b)) st
  = go.Ok (Some (object.String (a +:+ b)), st)
  /\ evaluator.evalInfixExpression operator (Some (object.String a)) (Some (object.String b)) st
     = go.Ok (Some (object.Error ("unknown operator: STRING " +:+ operator +:+ " STRING")), st)
  /\ evaluatesTo BlockStatement_String mapOrder
       [T token.STRING "a"; T token.EQ "=="; T token.STRING "a"]
       (Result (Some (object.Error "unknown operator: STRING == STRING"))).
Proof.
  intros Hop. split; [reflexivity|]. split; [|evaluates 10].
  unfold evaluator.evalInfixExpression, go.bind. simpl.
  unfold evaluator.evalStringInfixExpression.
  rewrite bool_decide_eq_false_2 by assumption. reflexivity.
Qed.

(** *** Conditions and errors *)

(** X9: an [if] whose condition evaluates to a value that is not an
    error takes the alternative exactly when that value is [false] or
    [null], and then yields NULL if there is no alternative; every other
    value (0, the empty string, an array, a nil value) takes the
    consequence.  The branch runs in the state the condition left. *)
Theorem if_takes_the_alternative_only_on_false_and_null (fuel env : nat)
    (condition : option ast.Expression) (consequence alternative : ast.BlockStatement)
    (c : option object.Object) (st st1 : object.State) :
  Eval fuel (ast.ofExpression condition) env st = go.Ok (c, st1) ->
  evaluator.isError c = false ->
  (c = Some object.Null \/ c = Some (object.Boolean false) ->
   Eval (S fuel) (ast.NodeExpression
                    (ast.IfExpression condition consequence (Some alternative))) env st
   = Eval fuel (ast.NodeBlock alternative) env st1
   /\ Eval (S fuel) (ast.NodeExpression (ast.IfExpression condition consequence None)) env st
      = go.Ok (Some evaluator.NULL, st1))
  /\ (c <> Some object.Null -> c <> Some (object.Boolean false) ->
      forall alt : option ast.BlockStatement,
        Eval (S fuel) (ast.NodeExpression (ast.IfExpression condition consequence alt)) env st
        = Eval fuel (ast.NodeBlock consequence) env st1).
Proof.
  intros Hc Herr.
  assert (forall alt : option ast.BlockStatement,
            Eval (S fuel) (ast.NodeExpression (ast.IfExpression condition consequence alt))
              env st
            = if evaluator.isTruthy c then Eval fuel (ast.NodeBlock consequence) env st1
              else match alt with
                   | Some alt => Eval fuel (ast.NodeBlock alt) env st1
                   | None => go.Ok (Some evaluator.NULL, st1)
                   end) as Hif.
  { intros alt. cbn [evaluator.Eval evaluator.Eval_body]. unfold evaluator.evalIfExpression.
    unfold go.bind at 1. rewrite Hc, Herr.
    destruct (evaluator.isTruthy c), alt; reflexivity. }
  split.
  - intros [-> | ->]; rewrite !Hif; split; reflexivity.
  - intros Hnull Hfalse alt. rewrite Hif.
    destruct c as [[| [] | | | | | | | |]|]; try reflexivity; congruence.
Qed.

(** X10: when an expression evaluates to an Error, so does the prefix,
    infix, index, [if], call or assignment expression whose first operand
    (operand, left side, condition, callee, value) it is, and the
    expression, [let] or [return] statement that holds it: with the same
    error, in the state the expression left.  Nothing else is evaluated,
    [let] binds nothing, and [return] does not wrap the error. *)
Theorem an_error_stops_the_enclosing_construct (fuel env : nat) (e : ast.Expression)
    (message operator name : string) (other : option ast.Expression)
    (consequence : ast.BlockStatement) (alternative : option ast.BlockStatement)
    (arguments : list (option ast.Expression)) (st st1 : object.State) :
  Eval fuel (ast.NodeExpression e) env st = go.Ok (Some (object.Error message), st1) ->
  Forall (fun node => Eval (S fuel) node env st = go.Ok (Some (object.Error message), st1))
    [ast.NodeExpression (ast.PrefixExpression operator (Some e));
     ast.NodeExpression (ast.InfixExpression operator (Some e) other);
     ast.NodeExpression (ast.IndexExpression (Some e) other);
     ast.NodeExpression (ast.IfExpression (Some e) consequence alternative);
     ast.NodeExpression (ast.CallExpression (Some e) arguments);
     ast.NodeExpression (ast.AssignmentExpression name (Some e));
     ast.NodeStatement (ast.ExpressionStatement (Some e));
     ast.NodeStatement (ast.LetStatement name (Some e));
     ast.NodeStatement (ast.ReturnStatement (Some e))].
Proof.
  intros He.
  repeat (apply Forall_cons_2 || apply Forall_nil_2);
    cbn [evaluator.Eval evaluator.Eval_body ast.ofExpression];
    unfold evaluator.evalIfExpression; cbn [ast.ofExpression];
    try (unfold go.bind at 1); rewrite He; reflexivity.
Qed.

End Operators.

(** *** Environments and calls *)

Lemma Get_other_key (h : list object.Environment) (env : nat) (e : object.Environment)
    (key key' : string) (val : option object.Object) (n c : nat) :
  h !! env = Some e -> key' <> key ->
  object.Get n
    (<[env := {| object.store := <[key := val]> (object.store e);
                 object.outer := object.outer e |}]> h) c key'
  = object.Get n h c key'.
Proof.
  intros He Hne. revert c. induction n as [|n IH]; intros c; [reflexivity|]. simpl.
  destruct (decide (c = env)) as [->|Hc].
  - rewrite list_lookup_insert_eq by (eapply lookup_lt_Some; eassumption). rewrite He. simpl.
    unfold object.storeLookup. rewrite lookup_insert_ne by congruence.
    destruct (object.store e !! key'); simpl; [reflexivity|].
    destruct (object.outer e); [apply IH|reflexivity].
  - rewrite list_lookup_insert_ne by congruence.
    destruct (h !! c) as [ec|]; [|reflexivity].
    destruct (object.storeLookup (object.store ec) key') as [obj ok].
    destruct (negb ok), (object.outer ec); try reflexivity. apply IH.
Qed.

(** X11: [Set] on an environment returns the value and binds the key
    there: [Get] and [IsKey] of that key from that environment then find
    it; for every other key, [Get] and [IsKey] from every environment
    answer as before; no other environment changes. *)
Theorem Set_binds_one_key_in_one_environment (env : nat) (e : object.Environment)
    (key : string) (val : option object.Object) (st : object.State) :
  object.envs st !! env = Some e ->
  object.Set_ env key val st = go.Ok (val, afterSet st env e key val)
  /\ (forall n : nat,
        object.Get (S n) (object.envs (afterSet st env e key val)) env key = go.Ok (val, true)
        /\ object.IsKey n (object.envs (afterSet st env e key val)) env key = go.Ok true)
  /\ (forall (key' : string) (c n : nat), key' <> key ->
        object.Get n (object.envs (afterSet st env e key val)) c key'
        = object.Get n (object.envs st) c key'
        /\ object.IsKey n (object.envs (afterSet st env e key val)) c key'
           = object.IsKey n (object.envs st) c key')
  /\ (forall c : nat, c <> env ->
        object.envs (afterSet st env e key val) !! c = object.envs st !! c).
Proof.
  intros He. split; [unfold object.Set_; rewrite He; reflexivity|].
  assert (object.envs (afterSet st env e key val)
          = <[env := {| object.store := <[key := val]> (object.store e);
                        object.outer := object.outer e |}]> (object.envs st)) as ->
    by reflexivity.
  split; [|split].
  - intros n. rewrite IsKey_Get, (Get_after_Set _ _ _ _ _ _ He). split; reflexivity.
  - intros key' c n Hne.
    rewrite !IsKey_Get, !(Get_other_key _ _ _ _ _ _ _ _ He Hne). split; reflexivity.
  - intros c Hc. apply list_lookup_insert_ne. congruence.
Qed.

Lemma Get_app (n : nat) (h l : list object.Environment) (c : nat) (key : string)
    (r : option object.Object * bool) :
  object.Get n h c key = go.Ok r -> object.Get n (h ++ l) c key = go.Ok r.
Proof.
  revert c. induction n as [|n IH]; intros c H; [discriminate H|]. simpl in *.
  destruct (h !! c) as [ec|] eqn:Hc; [|discriminate H].
  rewrite (lookup_app_l_Some _ _ _ _ Hc).
  destruct (object.storeLookup (object.store ec) key) as [obj ok].
  destruct (negb ok), (object.outer ec); try assumption. apply IH. assumption.
Qed.

(** X12: [NewEnclosedEnvironment] allocates one environment, empty and
    enclosed in the given one, and changes nothing else; what [Get] finds
    (or fails to find) for a key from the outer environment, it finds from
    the new one, and still from the outer one. *)
Theorem enclosed_environment_falls_through_to_outer (outerEnv : nat) (st : object.State)
    (key : string) (n : nat) (r : option object.Object * bool) :
  object.Get n (object.envs st) outerEnv key = go.Ok r ->
  exists st' : object.State,
    object.NewEnclosedEnvironment (Some outerEnv) st = go.Ok (length (object.envs st), st')
    /\ object.envs st'
       = object.envs st ++ [{| object.store := ∅; object.outer := Some outerEnv |}]
    /\ object.nextAddr st' = object.nextAddr st
    /\ object.stdout st' = object.stdout st
    /\ object.Get (S n) (object.envs st') (length (object.envs st)) key = go.Ok r
    /\ object.Get n (object.envs st') outerEnv key = go.Ok r.
Proof.
  intros Hget.
  exists (object.setEnvs st
            (object.envs st ++ [{| object.store := ∅; object.outer := Some outerEnv |}])).
  split; [|split; [reflexivity|split; [reflexivity|split; [reflexivity|split]]]].
  - unfold object.NewEnclosedEnvironment, object.NewEnvironment, object.setOuter, go.bind.
    simpl. rewrite list_lookup_middle by reflexivity. simpl.
    rewrite insert_app_r_alt by lia. rewrite Nat.sub_diag. reflexivity.
  - simpl. rewrite list_lookup_middle by reflexivity. simpl.
    apply Get_app. assumption.
  - simpl. apply Get_app. assumption.
Qed.

Lemma NewEnclosedEnvironment_Ok (outerEnv : nat) (st : object.State) :
  object.NewEnclosedEnvironment (Some outerEnv) st
  = go.Ok (length (object.envs st),
           object.setEnvs st
             (object.envs st ++ [{| object.store := ∅; object.outer := Some outerEnv |}])).
Proof.
  unfold object.NewEnclosedEnvironment, object.NewEnvironment, object.setOuter, go.bind.
  simpl. rewrite list_lookup_middle by reflexivity. simpl.
  rewrite insert_app_r_alt by lia. rewrite Nat.sub_diag. reflexivity.
Qed.

Lemma extendedFunctionEnv_loop_short (env : nat) (parameters : list string)
    (args : list (option object.Object)) :
  forall (i : nat) (st : object.State) (e : object.Environment),
    object.envs st !! env = Some e -> i <= length args -> length args < i + length parameters ->
    evaluator.extendedFunctionEnv_loop env i parameters args st = go.Panic go.indexOutOfRange.
Proof.
  induction parameters as [|param rest IH]; intros i st e He Hi Hlen; simpl in *; [lia|].
  destruct (args !! i) as [arg|] eqn:Harg; [|reflexivity].
  apply lookup_lt_Some in Harg.
  unfold go.bind, object.Set_. rewrite He.
  eapply IH; [|lia|lia]. simpl.
  apply list_lookup_insert_eq. eapply lookup_lt_Some; eassumption.
Qed.

Lemma extendedFunctionEnv_loop_Ok (env : nat) (parameters : list string)
    (args : list (option object.Object)) :
  forall (i : nat) (st : object.State) (e : object.Environment),
    object.envs st !! env = Some e -> i + length parameters <= length args ->
    evaluator.extendedFunctionEnv_loop env i parameters args st
    = go.Ok (tt, object.setEnvs st
                   (<[env := {| object.store := bindings parameters (drop i args) (object.store e);
                                object.outer := object.outer e |}]> (object.envs st))).
Proof.
  induction parameters as [|param rest IH]; intros i st e He Hlen; simpl in *.
  - unfold go.ret, bindings. simpl. rewrite list_insert_id; [destruct st; reflexivity|].
    rewrite He. destruct e; reflexivity.
  - destruct (args !! i) as [arg|] eqn:Harg; [|apply lookup_ge_None in Harg; lia].
    unfold go.bind, object.Set_. rewrite He.
    erewrite IH; [| |lia].
    2:{ simpl. apply list_lookup_insert_eq. eapply lookup_lt_Some; eassumption. }
    simpl. rewrite list_insert_insert_eq.
    rewrite (drop_S _ _ _ Harg). reflexivity.
Qed.

Lemma bindings_notin (parameters : list string) :
  forall (args : list (option object.Object)) (store : gmap string (option object.Object))
         (p : string),
    p ∉ parameters -> bindings parameters args store !! p = store !! p.
Proof.
  induction parameters as [|q rest IH]; intros args store p Hp; [reflexivity|].
  destruct args as [|a args]; [reflexivity|].
  unfold bindings. simpl. fold (bindings rest args (<[q := a]> store)).
  rewrite IH by (intros ?; apply Hp; right; assumption).
  apply lookup_insert_ne. intros ->. apply Hp. left.
Qed.

Lemma bindings_lookup (parameters : list string) :
  forall (args : list (option object.Object)) (store : gmap string (option object.Object))
         (i : nat) (p : string) (a : option object.Object),
    NoDup parameters -> parameters !! i = Some p -> args !! i = Some a ->
    bindings parameters args store !! p = Some a.
Proof.
  induction parameters as [|q rest IH]; intros args store i p a Hnd Hp Ha; [discriminate Hp|].
  destruct args as [|a0 args]; [discriminate Ha|].
  unfold bindings. simpl. fold (bindings rest args (<[q := a0]> store)).
  apply NoDup_cons in Hnd as [Hq Hnd].
  destruct i as [|i]; simpl in Hp, Ha.
  - injection Hp as ->. injection Ha as ->.
    rewrite bindings_notin by assumption. apply lookup_insert_eq.
  - eapply IH; eassumption.
Qed.

Section Calls.

Variable BlockStatement_String : ast.BlockStatement -> string.
Variable mapOrder : nat -> forall X : Type, list X -> list X.
Variable ev : ast.Node -> nat -> evaluator.E (option object.Object).

(** X13: applying a function to fewer arguments than it has parameters
    panics (index out of range): no error object is returned. *)
Theorem call_with_missing_arguments_panics (addr fnEnv : nat) (parameters : list string)
    (body : ast.BlockStatement) (args : list (option object.Object)) (st : object.State) :
  length args < length parameters ->
  evaluator.applyFunction BlockStatement_String mapOrder ev
    (Some (object.Function addr parameters body fnEnv)) args st
  = go.Panic go.indexOutOfRange.
Proof.
  intros Hlen. unfold evaluator.applyFunction, evaluator.extendedFunctionEnv.
  unfold go.bind at 1. unfold go.bind at 1. rewrite NewEnclosedEnvironment_Ok.
  unfold go.bind at 1.
  erewrite extendedFunctionEnv_loop_short; [reflexivity| |lia|lia].
  simpl. apply list_lookup_middle. reflexivity.
Qed.

(** X14: applying a function to at least as many arguments as it has
    parameters evaluates its body in one new environment, enclosed in the
    environment the function was created in, where (the parameters being
    pairwise distinct) each parameter is bound to the argument at its
    position; arguments beyond the parameters are ignored, and a name that
    is no parameter resolves as it does in the function's environment. *)
Theorem call_binds_parameters_by_position (addr fnEnv : nat) (parameters : list string)
    (body : ast.BlockStatement) (args : list (option object.Object)) (st : object.State)
    (i : nat) (p : string) (a : option object.Object) :
  length parameters <= length args ->
  NoDup parameters ->
  parameters !! i = Some p ->
  args !! i = Some a ->
  exists st' : object.State,
    evaluator.extendedFunctionEnv parameters fnEnv args st
    = go.Ok (length (object.envs st), st')
    /\ evaluator.applyFunction BlockStatement_String mapOrder ev
         (Some (object.Function addr parameters body fnEnv)) args st
       = go.bind (ev (ast.NodeBlock body) (length (object.envs st)))
           (fun evaluated => go.ret (evaluator.unwrapReturnValue evaluated)) st'
    /\ object.envs st'
       = object.envs st
         ++ [{| object.store := bindings parameters args ∅; object.outer := Some fnEnv |}]
    /\ (forall n : nat,
          object.Get (S n) (object.envs st') (length (object.envs st)) p = go.Ok (a, true))
    /\ (forall (q : string) (n : nat) (r : option object.Object * bool),
          q ∉ parameters ->
          object.Get n (object.envs st) fnEnv q = go.Ok r ->
          object.Get (S n) (object.envs st') (length (object.envs st)) q = go.Ok r).
Proof.
  intros Hlen Hnd Hp Ha.
  assert (evaluator.extendedFunctionEnv parameters fnEnv args st
          = go.Ok (length (object.envs st),
                   object.setEnvs st
                     (object.envs st
                      ++ [{| object.store := bindings parameters args ∅;
                             object.outer := Some fnEnv |}]))) as Hext.
  { unfold evaluator.extendedFunctionEnv. unfold go.bind at 1.
    rewrite NewEnclosedEnvironment_Ok. unfold go.bind at 1.
    erewrite extendedFunctionEnv_loop_Ok; [| |simpl; lia].
    2:{ simpl. apply list_lookup_middle. reflexivity. }
    simpl. rewrite insert_app_r_alt by lia. rewrite Nat.sub_diag. reflexivity. }
  eexists. split; [exact Hext|]. split; [|split; [reflexivity|split]].
  - unfold evaluator.applyFunction. unfold go.bind at 1. rewrite Hext. reflexivity.
  - intros n. simpl. rewrite list_lookup_middle by reflexivity. simpl.
    unfold object.storeLookup.
    rewrite (bindings_lookup _ _ _ _ _ _ Hnd Hp Ha). reflexivity.
  - intros q n r Hq Hget. simpl. rewrite list_lookup_middle by reflexivity. simpl.
    unfold object.storeLookup. rewrite bindings_notin by assumption.
    rewrite lookup_empty. simpl. apply Get_app. assumption.
Qed.

End Calls.

(** *** The built-in functions *)

Lemma rest_elements (e : option object.Object) (elements : list (option object.Object)) :
  evaluator.copy (evaluator.make (length (e :: elements) - 1)) (drop 1 (e :: elements))
  = elements.
Proof.
  replace (length (e :: elements) - 1) with (length elements) by (simpl; lia).
  change (drop 1 (e :: elements)) with elements.
  unfold evaluator.copy, evaluator.make.
  rewrite length_replicate, take_ge by lia.
  rewrite drop_replicate, Nat.sub_diag. apply app_nil_r.
Qed.

Lemma builtin_first_array (a : nat) (elements : list (option object.Object))
    (st : object.State) :
  evaluator.builtin_first [Some (object.Array a elements)] st
  = go.Ok (from_option id (Some evaluator.NULL) (head elements), st).
Proof. destruct elements; reflexivity. Qed.

Lemma builtin_last_array (a : nat) (elements : list (option object.Object))
    (st : object.State) :
  evaluator.builtin_last [Some (object.Array a elements)] st
  = go.Ok (from_option id (Some evaluator.NULL) (last elements), st).
Proof.
  destruct (decide (0 < length elements)) as [Hlen|Hlen].
  - assert (exists e, elements !! (length elements - 1) = Some e) as [e He]
      by (apply lookup_lt_is_Some; lia).
    rewrite last_lookup.
    replace (Nat.pred (length elements)) with (length elements - 1) by lia.
    rewrite He. unfold evaluator.builtin_last, evaluator.typeOf, go.bind, go.ret.
    rewrite (bool_decide_true (length _ = 1)) by reflexivity.
    rewrite (bool_decide_true (object.TypeOf _ = _)) by reflexivity.
    rewrite (bool_decide_true (0 < _)) by assumption.
    cbv beta iota zeta delta [negb]. rewrite He. reflexivity.
  - destruct elements; [reflexivity|simpl in Hlen; lia].
Qed.

Lemma builtin_rest_array (a : nat) (elements : list (option object.Object))
    (st : object.State) :
  evaluator.builtin_rest [Some (object.Array a elements)] st
  = match elements with
    | [] => go.Ok (Some evaluator.NULL, st)
    | _ :: others =>
        go.Ok (Some (object.Array (object.nextAddr st) others),
               {| object.envs := object.envs st; object.nextAddr := S (object.nextAddr st);
                  object.ranges := object.ranges st; object.stdout := object.stdout st |})
    end.
Proof.
  destruct elements as [|e others]; [reflexivity|].
  unfold evaluator.builtin_rest. cbn -[evaluator.copy evaluator.make drop length].
  unfold go.bind, go.ret. cbn -[evaluator.copy evaluator.make drop length].
  rewrite bool_decide_true by (simpl; lia).
  unfold object.alloc. rewrite rest_elements. reflexivity.
Qed.


(** X15: on an array, [first] is its first element and [last] its last,
    NULL when it is empty, without any change of state; [rest] is NULL on
    the empty array and otherwise a new array, at a fresh address, of the
    elements after the first. *)
Theorem first_last_rest_of_an_array (a : nat) (elements : list (option object.Object))
    (st : object.State) :
  evaluator.builtin_first [Some (object.Array a elements)] st
  = go.Ok (from_option id (Some evaluator.NULL) (head elements), st)
  /\ evaluator.builtin_last [Some (object.Array a elements)] st
     = go.Ok (from_option id (Some evaluator.NULL) (last elements), st)
  /\ evaluator.builtin_rest [Some (object.Array a elements)] st
     = match elements with
       | [] => go.Ok (Some evaluator.NULL, st)
       | _ :: others =>
           go.Ok (Some (object.Array (object.nextAddr st) others),
                  {| object.envs := object.envs st; object.nextAddr := S (object.nextAddr st);
                     object.ranges := object.ranges st; object.stdout := object.stdout st |})
       end.
Proof.
  split; [apply builtin_first_array|split; [apply builtin_last_array|apply builtin_rest_array]].
Qed.


Lemma wrongNumberOfArguments_message (got want : nat) :
  evaluator.wrongNumberOfArguments got want
  = object.Error ("wrong number of arguments. got=" +:+ pretty (Z.of_nat got)
                  +:+ ", want=" +:+ pretty (Z.of_nat want)).
Proof.
  unfold evaluator.wrongNumberOfArguments, evaluator.newError. f_equal.
  cbn -[pretty]. rewrite append_empty. reflexivity.
Qed.

Section Builtins.

Variable BlockStatement_String : ast.BlockStatement -> string.
Variable mapOrder : nat -> forall X : Type, list X -> list X.

#[local] Abbreviation builtins := (evaluator.builtins BlockStatement_String mapOrder).

(** X17: [len], [first], [last] and [rest] called with a number of
    arguments other than one return the error
    [wrong number of arguments. got=N, want=1], N in decimal; [push] called
    with a number other than two returns [argument to push should be 2].
    The state does not change. *)
Theorem builtins_check_the_argument_count (name : string)
    (fn : list (option object.Object) -> evaluator.E (option object.Object))
    (args : list (option object.Object)) (st : object.State) :
  In (name, fn) [("len", evaluator.builtin_len); ("first", evaluator.builtin_first);
                 ("last", evaluator.builtin_last); ("rest", evaluator.builtin_rest)] ->
  builtins !! name = Some fn
  /\ (length args <> 1 ->
      fn args st
      = go.Ok (Some (object.Error ("wrong number of arguments. got="
                                   +:+ pretty (Z.of_nat (length args)) +:+ ", want=1")), st))
  /\ builtins !! "push" = Some evaluator.builtin_push
  /\ (length args <> 2 ->
      evaluator.builtin_push args st
      = go.Ok (Some (object.Error "argument to push should be 2"), st)).
Proof.
  intros Hin. split; [|split; [|split; [reflexivity|]]].
  - simpl in Hin. destruct Hin as [H|[H|[H|[H|[]]]]]; injection H as <- <-; reflexivity.
  - intros Hlen.
    transitivity (go.Ok (Some (evaluator.wrongNumberOfArguments (length args) 1), st));
      [|rewrite wrongNumberOfArguments_message; reflexivity].
    simpl in Hin. destruct Hin as [H|[H|[H|[H|[]]]]]; injection H as <- <-;
      [unfold evaluator.builtin_len|unfold evaluator.builtin_first
      |unfold evaluator.builtin_last|unfold evaluator.builtin_rest];
      rewrite bool_decide_false by assumption; reflexivity.
  - intros Hlen. unfold evaluator.builtin_push.
    rewrite bool_decide_false by assumption. reflexivity.
Qed.

(** X18: [first], [last] and [rest] on an object that is not an array
    return the error [argument to `name` must be an ARRAY, got=KIND], and
    [push] the same with its own wording; [len] on an object that is
    neither an array nor a string returns
    [argument to `len` not supported, got=KIND].  On a nil argument they
    all panic (nil dereference). *)
Theorem builtins_check_the_argument_kind (name : string)
    (fn : list (option object.Object) -> evaluator.E (option object.Object))
    (arg : object.Object) (x : option object.Object) (st : object.State) :
  In (name, fn) [("first", evaluator.builtin_first); ("last", evaluator.builtin_last);
                 ("rest", evaluator.builtin_rest)] ->
  object.TypeOf arg <> object.ARRAY_OBJ ->
  fn [Some arg] st
  = go.Ok (Some (object.Error ("argument to `" +:+ name +:+ "` must be an ARRAY, got="
                               +:+ object.TypeOf arg)), st)
  /\ fn [None] st = go.Panic go.nilDereference
  /\ evaluator.builtin_push [Some arg; x] st
     = go.Ok (Some (object.Error ("first argument to `push` must be an ARRAY, got="
                                  +:+ object.TypeOf arg)), st)
  /\ evaluator.builtin_push [None; x] st = go.Panic go.nilDereference
  /\ (object.TypeOf arg <> object.STRING_OBJ ->
      evaluator.builtin_len [Some arg] st
      = go.Ok (Some (object.Error ("argument to `len` not supported, got="
                                   +:+ object.TypeOf arg)), st))
  /\ evaluator.builtin_len [None] st = go.Panic go.nilDereference.
Proof.
  intros Hin Hkind.
  split; [|split; [|split; [|split; [reflexivity|split; [|reflexivity]]]]].
  - simpl in Hin. destruct Hin as [H|[H|[H|[]]]]; injection H as <- <-;
      [unfold evaluator.builtin_first|unfold evaluator.builtin_last
      |unfold evaluator.builtin_rest];
      unfold evaluator.typeOf, go.bind, go.ret;
      rewrite (bool_decide_true (length _ = 1)) by reflexivity;
      rewrite (bool_decide_false (object.TypeOf _ = _)) by assumption;
      cbv beta iota zeta delta [negb]; unfold evaluator.newError;
      cbn -[object.TypeOf]; rewrite append_empty; reflexivity.
  - simpl in Hin. destruct Hin as [H|[H|[H|[]]]]; injection H as <- <-; reflexivity.
  - unfold evaluator.builtin_push, evaluator.typeOf, go.bind, go.ret.
    rewrite (bool_decide_true (length _ = 2)) by reflexivity.
    rewrite (bool_decide_false (object.TypeOf _ = _)) by assumption.
    cbv beta iota zeta delta [negb]. unfold evaluator.newError.
    cbn -[object.TypeOf]. rewrite append_empty. reflexivity.
  - intros Hstring. destruct arg; try reflexivity; exfalso; [apply Hstring|apply Hkind];
      reflexivity.
Qed.



End Builtins.

(** *** Indexing a hash *)

Lemma pairsLookup_insert (k : object.HashKey) (p : object.HashPair)
    (pairs : list (object.HashKey * object.HashPair)) :
  object.pairsLookup k (object.pairsInsert k p pairs) = Some p.
Proof.
  induction pairs as [|[k' p'] rest IH]; simpl.
  - rewrite decide_True by reflexivity. reflexivity.
  - destruct (decide (k = k')) as [Heq|Hne]; simpl.
    + rewrite decide_True by reflexivity. reflexivity.
    + rewrite decide_False by assumption. exact IH.
Qed.

Lemma pairsLookup_insert_ne (k k' : object.HashKey) (p : object.HashPair)
    (pairs : list (object.HashKey * object.HashPair)) :
  k' <> k ->
  object.pairsLookup k' (object.pairsInsert k p pairs) = object.pairsLookup k' pairs.
Proof.
  intros Hne. induction pairs as [|[k0 p0] rest IH]; simpl.
  - rewrite decide_False by assumption. reflexivity.
  - destruct (decide (k = k0)) as [<-|Hk0]; simpl.
    + rewrite !decide_False by assumption. reflexivity.
    + destruct (decide (k' = k0)); [reflexivity|exact IH].
Qed.

Lemma evalIndexExpression_hash (a : nat) (pairs : list (object.HashKey * object.HashPair))
    (index : object.Object) (k : object.HashKey) (st : object.State) :
  object.Hashable (Some index) = Some k ->
  evaluator.evalIndexExpression (Some (object.Hash a pairs)) (Some index) st
  = go.Ok (from_option object.PairValue (Some evaluator.NULL) (object.pairsLookup k pairs), st).
Proof.
  intros Hk. unfold evaluator.evalIndexExpression, evaluator.evalHashIndexExpression.
  cbn -[object.Hashable]. unfold go.bind, go.ret. cbn -[object.Hashable]. rewrite Hk.
  destruct (object.pairsLookup k pairs); reflexivity.
Qed.

(** X20: indexing a hash with a hashable object looks its hash key up:
    the result is the value stored under that key, NULL if there is none,
    so two indexes with the same hash key give the same result.  After a
    pair is stored under a key, indexing with that key gives its value and
    indexing with another key gives what it gave before.  An index that is
    not hashable gives the error [unusable as hash key: KIND]; a nil index
    panics. *)
Theorem hash_index_looks_up_by_hash_key (a : nat)
    (pairs : list (object.HashKey * object.HashPair)) (index : object.Object)
    (k : object.HashKey) (key val : option object.Object) (st : object.State) :
  object.Hashable (Some index) = Some k ->
  evaluator.evalIndexExpression (Some (object.Hash a pairs)) (Some index) st
  = go.Ok (from_option object.PairValue (Some evaluator.NULL) (object.pairsLookup k pairs), st)
  /\ evaluator.evalIndexExpression
       (Some (object.Hash a (object.pairsInsert k (key, val) pairs))) (Some index) st
     = go.Ok (val, st)
  /\ (forall (other : object.Object) (k' : object.HashKey),
        object.Hashable (Some other) = Some k' -> k' <> k ->
        evaluator.evalIndexExpression
          (Some (object.Hash a (object.pairsInsert k (key, val) pairs))) (Some other) st
        = evaluator.evalIndexExpression (Some (object.Hash a pairs)) (Some other) st)
  /\ (forall other : object.Object,
        object.Hashable (Some other) = Some k ->
        evaluator.evalIndexExpression (Some (object.Hash a pairs)) (Some other) st
        = evaluator.evalIndexExpression (Some (object.Hash a pairs)) (Some index) st)
  /\ (forall other : object.Object,
        object.Hashable (Some other) = None ->
        evaluator.evalIndexExpression (Some (object.Hash a pairs)) (Some other) st
        = go.Ok (Some (object.Error ("unusable as hash key: " +:+ object.TypeOf other)), st))
  /\ evaluator.evalIndexExpression (Some (object.Hash a pairs)) None st
     = go.Panic go.nilDereference.
Proof.
  intros Hk. split; [|split; [|split; [|split; [|split]]]].
  - apply evalIndexExpression_hash. assumption.
  - rewrite (evalIndexExpression_hash _ _ _ _ _ Hk), pairsLookup_insert. reflexivity.
  - intros other k' Hk' Hne. rewrite !(evalIndexExpression_hash _ _ _ _ _ Hk').
    rewrite pairsLookup_insert_ne by assumption. reflexivity.
  - intros other Hother. rewrite (evalIndexExpression_hash _ _ _ _ _ Hk).
    apply evalIndexExpression_hash. assumption.
  - intros other Hother.
    unfold evaluator.evalIndexExpression, evaluator.evalHashIndexExpression.
    cbn -[object.Hashable]. unfold go.bind, go.ret. cbn -[object.Hashable]. rewrite Hother.
    unfold evaluator.newError. cbn -[object.TypeOf]. rewrite append_empty. reflexivity.
  - reflexivity.
Qed.

(** *** Hash literals *)

Lemma storeAll_app (pairs entries more : list (object.HashKey * object.HashPair)) :
  storeAll pairs (entries ++ more) = storeAll (storeAll pairs entries) more.
Proof. unfold storeAll. apply foldl_app. Qed.

Lemma evalHashLiteral_loop_pairsRun
    (ev : ast.Node -> nat -> evaluator.E (option object.Object)) (env : nat)
    (nodePairs rest : list (option ast.Expression * option ast.Expression))
    (st st' : object.State) (entries : list (object.HashKey * object.HashPair)) :
  pairsRun ev env nodePairs st entries st' ->
  forall pairs : list (object.HashKey * object.HashPair),
    evaluator.evalHashLiteral_loop ev pairs (nodePairs ++ rest) env st
    = evaluator.evalHashLiteral_loop ev (storeAll pairs entries) rest env st'.
Proof.
  induction 1 as [st|k v more st st1 st2 st' key val hashKey entries Hk Hke Hh Hv Hve _ IH];
    intros pairs; [reflexivity|].
  simpl. unfold go.bind at 1. rewrite Hk, Hke, Hh.
  unfold go.bind at 1. rewrite Hv, Hve. apply IH.
Qed.

Lemma pairsLookup_storeAll (k : object.HashKey)
    (entries : list (object.HashKey * object.HashPair)) :
  forall pairs : list (object.HashKey * object.HashPair),
    object.pairsLookup k (storeAll pairs entries)
    = match lastStored k entries with
      | Some p => Some p
      | None => object.pairsLookup k pairs
      end.
Proof.
  induction entries as [|[k' p] rest IH]; intros pairs; [reflexivity|].
  unfold storeAll. simpl. fold (storeAll (object.pairsInsert k' p pairs) rest).
  rewrite IH. destruct (lastStored k rest); [reflexivity|].
  destruct (decide (k = k')) as [->|Hne].
  - apply pairsLookup_insert.
  - apply pairsLookup_insert_ne. assumption.
Qed.

Section HashLiterals.

Variable mapOrder : nat -> forall X : Type, list X -> list X.
Variable ev : ast.Node -> nat -> evaluator.E (option object.Object).

(** X28: when every key and value of a hash literal evaluates, in the
    order in which Go ranges over the literal's pairs, to something that is
    not an error, and every key is hashable, the literal evaluates to a new
    hash in which each hash key holds the pair evaluated last under it: an
    index with that hash key yields that pair's value, and NULL if no pair
    has that key.  With a key written twice, the value found depends on
    the range order. *)
Theorem a_hash_literal_keeps_the_pair_evaluated_last (env : nat)
    (nodePairs : list (option ast.Expression * option ast.Expression))
    (st st' st'' : object.State) (entries : list (object.HashKey * object.HashPair))
    (index : object.Object) (k : object.HashKey) :
  pairsRun ev env (mapOrder (object.ranges st) _ nodePairs)
    {| object.envs := object.envs st; object.nextAddr := S (object.nextAddr st);
       object.ranges := S (object.ranges st); object.stdout := object.stdout st |}
    entries st' ->
  object.Hashable (Some index) = Some k ->
  evaluator.evalHashLiteral mapOrder ev nodePairs env st
  = go.Ok (Some (object.Hash (object.nextAddr st) (storeAll [] entries)), st')
  /\ evaluator.evalIndexExpression
       (Some (object.Hash (object.nextAddr st) (storeAll [] entries))) (Some index) st''
     = go.Ok (from_option object.PairValue (Some evaluator.NULL) (lastStored k entries), st'').
Proof.
  intros Hrun Hk. split.
  - unfold evaluator.evalHashLiteral. unfold go.bind at 1. unfold object.alloc at 1.
    unfold go.bind at 1. unfold object.nextRange at 1. cbn [object.ranges].
    unfold go.bind at 1.
    rewrite <- (app_nil_r (mapOrder _ _ nodePairs)).
    rewrite (evalHashLiteral_loop_pairsRun _ _ _ [] _ _ _ Hrun). reflexivity.
  - rewrite (evalIndexExpression_hash _ _ _ _ _ Hk), pairsLookup_storeAll.
    destruct (lastStored k entries); reflexivity.
Qed.
(** X29: a hash literal stops at the first key, in the range order, that
    evaluates to an object that is neither an error nor hashable: its value
    is the error [unusable as hash key KIND] (no colon, unlike the error of
    an index expression), the value of that pair and the pairs after it are
    not evaluated. *)
Theorem a_hash_literal_stops_at_an_unusable_key (env : nat)
    (nodePairs before rest : list (option ast.Expression * option ast.Expression))
    (k v : option ast.Expression) (st st1 st2 : object.State)
    (entries : list (object.HashKey * object.HashPair)) (key : object.Object) :
  mapOrder (object.ranges st) _ nodePairs = before ++ (k, v) :: rest ->
  pairsRun ev env before
    {| object.envs := object.envs st; object.nextAddr := S (object.nextAddr st);
       object.ranges := S (object.ranges st); object.stdout := object.stdout st |}
    entries st1 ->
  ev (ast.ofExpression k) env st1 = go.Ok (Some key, st2) ->
  evaluator.isError (Some key) = false ->
  object.Hashable (Some key) = None ->
  evaluator.evalHashLiteral mapOrder ev nodePairs env st
  = go.Ok (Some (object.Error ("unusable as hash key " +:+ object.TypeOf key)), st2).
Proof.
  intros Horder Hrun Hk Herr Hhash.
  unfold evaluator.evalHashLiteral. unfold go.bind at 1. unfold object.alloc at 1.
  unfold go.bind at 1. unfold object.nextRange at 1. cbn [object.ranges].
  unfold go.bind at 1. rewrite Horder.
  rewrite (evalHashLiteral_loop_pairsRun _ _ _ _ _ _ _ Hrun).
  cbn [evaluator.evalHashLiteral_loop]. unfold go.bind at 1. rewrite Hk, Herr, Hhash.
  unfold evaluator.typeOf, go.bind, go.ret, evaluator.newError.
  cbn -[object.TypeOf]. rewrite append_empty. reflexivity.
Qed.
End HashLiterals.

(** *** Integer literals *)

Section Literals.

Variable BlockStatement_String : ast.BlockStatement -> string.
Variable mapOrder : nat -> forall X : Type, list X -> list X.

#[local] Open Scope Z_scope.




Lemma digitValue_pretty_N_char (d : N) :
  (d < 10)%N -> go.digitValue (pretty_N_char d) = Some (Z.of_N d).
Proof.
  intros Hd.
  assert (d = 0 \/ d = 1 \/ d = 2 \/ d = 3 \/ d = 4 \/ d = 5 \/ d = 6 \/ d = 7 \/ d = 8
          \/ d = 9)%N as H by lia.
  repeat (destruct H as [->|H]; [reflexivity|]). subst d. reflexivity.
Qed.

Lemma digits_pretty_N_go (x : N) :
  forall s : string, exists n : Z,
    0 <= n /\ forall acc : Z,
      go.digits 10 acc (pretty_N_go x s) = go.digits 10 (acc * 10 ^ n + Z.of_N x) s.
Proof.
  induction (N.lt_wf_0 x) as [x _ IH]. intros s.
  destruct (decide (x = 0%N)) as [->|Hx].
  - exists 0. split; [lia|]. intros acc. rewrite pretty_N_go_0. f_equal. lia.
  - rewrite pretty_N_go_step by lia.
    assert (N.div x 10 < x)%N as Hdiv by (apply N.div_lt; lia).
    destruct (IH (N.div x 10) Hdiv (String (pretty_N_char (N.modulo x 10)) s))
      as (n & Hn & Hdigits).
    exists (n + 1). split; [lia|]. intros acc. rewrite Hdigits. simpl.
    rewrite digitValue_pretty_N_char by (apply N.mod_lt; lia).
    assert ((Z.of_N (N.modulo x 10) <? 10) = true) as ->.
    { apply Z.ltb_lt. pose proof (N.mod_lt x 10 ltac:(lia)). lia. }
    f_equal. rewrite Z.pow_add_r by lia.
    rewrite (N.div_mod x 10) at 3 by lia. rewrite N2Z.inj_add, N2Z.inj_mul. simpl Z.of_N at 3.
    lia.
Qed.

Lemma pretty_N_go_leading (x : N) :
  forall s : string, (0 < x)%N ->
    exists (c : ascii) (rest : string),
      pretty_N_go x s = String c rest /\ Ascii.eqb c "0" = false.
Proof.
  induction (N.lt_wf_0 x) as [x _ IH]. intros s Hx.
  rewrite pretty_N_go_step by assumption.
  destruct (decide (x < 10)%N) as [Hlt|Hge].
  - rewrite N.div_small by assumption. rewrite pretty_N_go_0.
    rewrite N.mod_small by assumption.
    exists (pretty_N_char x), s. split; [reflexivity|].
    assert (x = 1 \/ x = 2 \/ x = 3 \/ x = 4 \/ x = 5 \/ x = 6 \/ x = 7 \/ x = 8 \/ x = 9)%N
      as H by lia.
    repeat (destruct H as [->|H]; [reflexivity|]). subst x. reflexivity.
  - apply IH; [apply N.div_lt; lia|]. apply N.div_str_pos. lia.
Qed.

Lemma ParseInt_pretty (v : Z) :
  go.ParseInt (pretty v) = if (0 <=? v) && (v <? 2 ^ 63) then Some v else None.
Proof.
  destruct v as [|p|p]; [reflexivity| |].
  - change (pretty (Z.pos p)) with (pretty (N.pos p)).
    unfold pretty, pretty_N. rewrite decide_False by discriminate.
    destruct (pretty_N_go_leading (N.pos p) "" ltac:(lia)) as (c & rest & Heq & Hc).
    destruct (digits_pretty_N_go (N.pos p) "") as (n & _ & Hdigits).
    unfold go.ParseInt. rewrite Heq, Hc. simpl andb. cbv iota.
    rewrite <- Heq, Hdigits.
    replace (0 * 10 ^ n + Z.of_N (N.pos p)) with (Z.pos p) by lia.
    cbn [go.digits]. reflexivity.
  - reflexivity.
Qed.

(** X21: for an int64 [v] that is not negative, the decimal rendering
    of [v] is parsed by [parseIntegerLiteral] to the literal [v], without
    an error; the literal evaluates to the Integer [v], and [Inspect] of
    that Integer is the decimal rendering again. *)
Theorem integer_literals_round_trip (v : Z) (p : parser.Parser) (fuel env : nat)
    (st : object.State) (order : forall X : Type, list X -> list X) :
  0 <= v < 2 ^ 63 ->
  token.Literal (parser.currToken p) = pretty v ->
  parser.parseIntegerLiteral p = go.Ok (Some (ast.IntegerLiteral v), p)
  /\ evaluator.Eval BlockStatement_String mapOrder (S fuel)
       (ast.NodeExpression (ast.IntegerLiteral v)) env st
     = go.Ok (Some (object.Integer v), st)
  /\ object.Inspect BlockStatement_String order (object.Integer v) = go.Ok (pretty v).
Proof.
  intros Hv Hliteral. split; [|split; [reflexivity|]].
  2:{ cbn -[pretty]. rewrite append_empty. reflexivity. }
  unfold parser.parseIntegerLiteral, parser.currLiteral, go.bind, go.get, go.ret.
  rewrite Hliteral, ParseInt_pretty.
  assert ((0 <=? v) && (v <? 2 ^ 63) = true) as ->; [|reflexivity].
  apply andb_true_intro. split; [apply Z.leb_le|apply Z.ltb_lt]; lia.
Qed.


End Literals.

(** *** Precedence and keywords *)

Lemma parse_fuel (n m : nat) (tokens : list token.Token) (r : ast.Program * list string) :
  parser.parse n tokens = go.Ok r -> n <= m -> parser.parse m tokens = go.Ok r.
Proof.
  intros H Hle. destruct (parse_le n m tokens Hle) as [H'|H']; congruence.
Qed.

(** X23: for any two binary operators, [a op1 b op2 c] parses, without
    errors, as [a op1 (b op2 c)] when [op2] has a higher precedence than
    [op1], and as [(a op1 b) op2 c] otherwise: operators of one precedence
    group to the left. *)
Theorem binary_operators_group_by_precedence (t1 t2 : token.TokenType) (p1 p2 : Z)
    (o1 o2 a b c : string) :
  In (t1, p1) binaryOperators ->
  In (t2, p2) binaryOperators ->
  parser.precedences !! t1 = Some p1
  /\ parser.precedences !! t2 = Some p2
  /\ exists n : nat, forall m : nat, n <= m ->
       parser.parse m [T token.IDENT a; T t1 o1; T token.IDENT b; T t2 o2; T token.IDENT c]
       = go.Ok ({| ast.Statements :=
                     [ast.ExpressionStatement
                        (Some (if (p1 <? p2)%Z
                               then ast.InfixExpression o1 (Some (ast.Identifier a))
                                      (Some (ast.InfixExpression o2 (Some (ast.Identifier b))
                                               (Some (ast.Identifier c))))
                               else ast.InfixExpression o2
                                      (Some (ast.InfixExpression o1 (Some (ast.Identifier a))
                                               (Some (ast.Identifier b))))
                                      (Some (ast.Identifier c))))] |}, []).
Proof.
  intros H1 H2. unfold binaryOperators in H1, H2. simpl in H1, H2.
  repeat (destruct H1 as [H1|H1]; [injection H1 as <- <-|]); try contradiction;
    (repeat (destruct H2 as [H2|H2]; [injection H2 as <- <-|]); try contradiction);
    (split; [reflexivity|split; [reflexivity|]]; exists 6; intros m Hm;
     apply (parse_fuel 6); [vm_compute; reflexivity|assumption]).
Qed.

(** X24: the prefix operators, calls and index expressions bind tighter
    than every binary operator: [-a op b] parses as [(-a) op b], and
    [a op b(c)] and [a op b[c]] as [a op (b(c))] and [a op (b[c])]. *)
Theorem prefix_call_and_index_bind_tighter (t : token.TokenType) (p : Z)
    (o prefixOp a b c : string) (prefixToken : token.TokenType) :
  In (t, p) binaryOperators ->
  In prefixToken [token.BANG; token.MINUS] ->
  exists n : nat, forall m : nat, n <= m ->
    parser.parse m [T prefixToken prefixOp; T token.IDENT a; T t o; T token.IDENT b]
    = go.Ok ({| ast.Statements :=
                  [ast.ExpressionStatement
                     (Some (ast.InfixExpression o
                              (Some (ast.PrefixExpression prefixOp (Some (ast.Identifier a))))
                              (Some (ast.Identifier b))))] |}, [])
    /\ parser.parse m [T token.IDENT a; T t o; T token.IDENT b; T token.LPAREN "(";
                       T token.IDENT c; T token.RPAREN ")"]
       = go.Ok ({| ast.Statements :=
                     [ast.ExpressionStatement
                        (Some (ast.InfixExpression o (Some (ast.Identifier a))
                                 (Some (ast.CallExpression (Some (ast.Identifier b))
                                          [Some (ast.Identifier c)]))))] |}, [])
    /\ parser.parse m [T token.IDENT a; T t o; T token.IDENT b; T token.LBRACKET "[";
                       T token.IDENT c; T token.RBRACKET "]"]
       = go.Ok ({| ast.Statements :=
                     [ast.ExpressionStatement
                        (Some (ast.InfixExpression o (Some (ast.Identifier a))
                                 (Some (ast.IndexExpression (Some (ast.Identifier b))
                                          (Some (ast.Identifier c))))))] |}, []).
Proof.
  intros H1 H2. unfold binaryOperators in H1. simpl in H1, H2.
  repeat (destruct H1 as [H1|H1]; [injection H1 as <- <-|]); try contradiction;
    (destruct H2 as [<-|[<-|[]]]);
    (exists 6; intros m Hm; split; [|split];
     (apply (parse_fuel 6); [vm_compute; reflexivity|assumption])).
Qed.

(** X25: [LookupIdent] answers [IDENT] for every string except the
    seven keywords, which it maps to seven different token types. *)
Theorem only_the_seven_keywords_are_not_identifiers (ident : string) :
  (token.LookupIdent ident = token.IDENT <-> ~ In ident keywordList)
  /\ map token.LookupIdent keywordList
     = [token.FUNCTION; token.LET; token.TRUE; token.FALSE; token.IF; token.ELSE; token.RETURN]
  /\ NoDup (map token.LookupIdent keywordList).
Proof.
  split; [|split; [reflexivity|]].
  - unfold token.LookupIdent, token.keywords, keywordList.
    rewrite !lookup_insert, lookup_empty.
    repeat (case_decide;
            [subst ident; split; [discriminate|intros Hnot; exfalso; apply Hnot; simpl; tauto]|]).
    split; [|reflexivity]. intros _. simpl. intuition congruence.
  - apply (bool_decide_unpack _). vm_compute. reflexivity.
Qed.

(** *** What the parser keeps *)

Lemma completeExpression_Call (function : option ast.Expression)
    (arguments : list (option ast.Expression)) :
  present function -> Forall present arguments ->
  completeExpression (ast.CallExpression function arguments).
Proof.
  intros Hf Hargs. split; [exact Hf|].
  induction Hargs as [|c l Hc _ IH]; [exact I|split; assumption].
Qed.

Lemma completeExpression_Array (elements : list (option ast.Expression)) :
  Forall present elements -> completeExpression (ast.ArrayLiteral elements).
Proof.
  intros Hels. simpl. induction Hels as [|c l Hc _ IH]; [exact I|split; assumption].
Qed.

Lemma completeExpression_Hash (pairs : list (option ast.Expression * option ast.Expression)) :
  Forall presentPair pairs -> completeExpression (ast.HashLiteral pairs).
Proof.
  intros Hpairs. simpl.
  induction Hpairs as [|[k v] l [Hk Hv] _ IH]; [exact I|]. split; [|split]; assumption.
Qed.

Lemma completeBlock_Block (statements : list ast.Statement) :
  Forall completeStatement statements -> completeBlock (ast.Block statements).
Proof.
  intros Hs. simpl. induction Hs as [|s l Hs _ IH]; [exact I|split; assumption].
Qed.

Lemma pairsInsert_present (k v : option ast.Expression)
    (pairs : list (option ast.Expression * option ast.Expression)) :
  present k -> present v -> Forall presentPair pairs ->
  Forall presentPair (ast.pairsInsert k v pairs).
Proof.
  intros Hk Hv Hpairs. induction Hpairs as [|[k' v'] l Hkv _ IH]; simpl.
  - constructor; [split; assumption|constructor].
  - destruct k, k'; try (constructor; assumption). destruct Hk.
Qed.

Lemma keeps_bind {A B : Type} (m : parser.P A) (k : A -> parser.P B)
    (R : A -> Prop) (R' : B -> Prop) :
  keeps m R -> (forall a : A, keeps (k a) (fun b => R a -> R' b)) ->
  keeps (go.bind m k) R'.
Proof.
  intros Hm Hk p b p' H. unfold go.bind in H.
  destruct (m p) as [[a p1]| |] eqn:E; try discriminate H.
  destruct (Hm _ _ _ E) as [Hp1 HR]. destruct (Hk a _ _ _ H) as [Hp2 HR'].
  split; [etrans; eassumption|]. intros Heq.
  assert (parser.errors p1 = parser.errors p) as Heq1.
  { symmetry. apply prefix_length_eq; [assumption|].
    apply prefix_length in Hp2. rewrite Heq in Hp2. assumption. }
  apply HR'; [congruence|]. apply HR. assumption.
Qed.

Lemma keeps_ret {A : Type} (a : A) (R : A -> Prop) : R a -> keeps (go.ret a) R.
Proof. intros HR p a' p' H. injection H as <- <-. split; [reflexivity|intros _; exact HR]. Qed.

Lemma keeps_ret_eq {A : Type} (a : A) : keeps (go.ret a) (fun b => b = a).
Proof. apply keeps_ret. reflexivity. Qed.

Lemma keeps_weaken {A : Type} (m : parser.P A) (R R' : A -> Prop) :
  keeps m R -> (forall a : A, R a -> R' a) -> keeps m R'.
Proof. intros Hm HR p a p' H. destruct (Hm _ _ _ H) as [H1 H2]. split; auto. Qed.

Lemma keeps_panic {A : Type} (why : string) (R : A -> Prop) : keeps (go.panic why) R.
Proof. intros p a p' H. discriminate H. Qed.

Lemma keeps_outOfFuel {A : Type} (R : A -> Prop) : keeps go.outOfFuel R.
Proof. intros p a p' H. discriminate H. Qed.

Lemma keeps_get : keeps go.get (fun _ : parser.Parser => True).
Proof. intros p a p' H. injection H as <- <-. split; [reflexivity|intros _; exact I]. Qed.

Lemma keeps_peekTokenIs (t : token.TokenType) :
  keeps (parser.peekTokenIs t) (fun _ => True).
Proof. intros p a p' H. injection H as <- <-. split; [reflexivity|intros _; exact I]. Qed.

Lemma keeps_curTokenIs (t : token.TokenType) :
  keeps (parser.curTokenIs t) (fun _ => True).
Proof. intros p a p' H. injection H as <- <-. split; [reflexivity|intros _; exact I]. Qed.

Lemma keeps_nextToken : keeps parser.nextToken (fun _ => True).
Proof.
  intros p a p' H. unfold parser.nextToken in H.
  destruct (parser.NextToken (parser.lex p)) as [tok lex']. injection H as <- <-.
  split; [reflexivity|intros _; exact I].
Qed.

Lemma keeps_appendError (msg : string) : keeps (parser.appendError msg) (fun _ => False).
Proof.
  intros p a p' H. unfold parser.appendError in H. injection H as Ha Hp. subst a p'. simpl.
  split; [apply prefix_app_r; reflexivity|]. intros Heq.
  apply (f_equal length) in Heq. rewrite length_app in Heq. simpl in Heq. lia.
Qed.

Lemma keeps_expectPeek (t : token.TokenType) :
  keeps (parser.expectPeek t) (fun ok => ok = true).
Proof.
  unfold parser.expectPeek. eapply keeps_bind; [apply keeps_peekTokenIs|]. intros found.
  destruct found.
  - eapply keeps_bind; [apply keeps_nextToken|]. intros u. apply keeps_ret. auto.
  - apply keeps_bind with (R := fun _ => False).
    + unfold parser.peekError. eapply keeps_bind; [apply keeps_get|]. intros q.
      eapply keeps_weaken; [apply keeps_appendError|]. intros u H _. exact H.
    + intros u. apply keeps_ret. intros [].
Qed.

Lemma keeps_currLiteral : keeps parser.currLiteral (fun _ => True).
Proof. intros p a p' H. injection H as <- <-. split; [reflexivity|intros _; exact I]. Qed.

Lemma keeps_peekPrecedence : keeps parser.peekPrecedence (fun _ => True).
Proof.
  intros p a p' H. unfold parser.peekPrecedence, go.bind, go.get in H.
  destruct (parser.precedences !! _); injection H as <- <-;
    (split; [reflexivity|intros _; exact I]).
Qed.

Lemma keeps_currPrecedence : keeps parser.currPrecedence (fun _ => True).
Proof.
  intros p a p' H. unfold parser.currPrecedence, go.bind, go.get in H.
  destruct (parser.precedences !! _); injection H as <- <-;
    (split; [reflexivity|intros _; exact I]).
Qed.

Lemma keeps_noPrefixParseFnError (t : token.Token) :
  keeps (parser.noPrefixParseFnError t) (fun _ => False).
Proof. apply keeps_appendError. Qed.

Ltac keeps_prim :=
  first [ apply keeps_peekTokenIs | apply keeps_curTokenIs | apply keeps_nextToken
        | apply keeps_expectPeek | apply keeps_currLiteral | apply keeps_peekPrecedence
        | apply keeps_currPrecedence | apply keeps_get | apply keeps_noPrefixParseFnError
        | apply keeps_appendError | apply keeps_ret_eq
        | match goal with H : forall x, keeps (?f x) _ |- keeps (?f _) _ => apply H end
        | match goal with H : keeps ?f _ |- keeps ?f _ => apply H end ].

Ltac keeps_leaf :=
  apply keeps_ret; cbn beta; intros;
  repeat match goal with
         | H : _ /\ _ |- _ => destruct H
         | H : False |- _ => destruct H
         | H : false = true |- _ => discriminate H
         | H : true = false |- _ => discriminate H
         end;
  cbn [present];
  first [ solve [eauto using completeExpression_Call, completeExpression_Array,
                   completeExpression_Hash, completeBlock_Block, pairsInsert_present,
                   Forall_nil_2, Forall_cons_2]
        | simpl; solve [auto] ].

Ltac keeps_go :=
  repeat first
    [ apply keeps_panic
    | apply keeps_outOfFuel
    | match goal with
      | |- keeps (go.bind (if negb ?x then _ else _) _) _ => destruct x; cbn [negb]
      | |- keeps (go.bind (if ?x then _ else _) _) _ => destruct x
      | |- keeps (if negb ?x then _ else _) _ => destruct x; cbn [negb]
      | |- keeps (if ?x then _ else _) _ => destruct x
      | |- keeps (match ?x with _ => _ end) _ => destruct x
      end
    | eapply keeps_bind; [solve [keeps_prim]|intros ?; cbn beta]
    | solve [keeps_leaf] ].

Section ParserKeeps.

Variable pe : Z -> parser.P (option ast.Expression).
Variable ps : parser.P (option ast.Statement).
Variable f : nat.
Hypothesis Hpe : forall prec : Z, keeps (pe prec) present.
Hypothesis Hps :
  keeps ps (fun s => match s with Some s => completeStatement s | None => True end).

Lemma keeps_parseLetStatement : keeps (parser.parseLetStatement pe) completeStatement.
Proof. unfold parser.parseLetStatement. keeps_go. Qed.

Lemma keeps_parseReturnStatement : keeps (parser.parseReturnStatement pe) completeStatement.
Proof. unfold parser.parseReturnStatement. keeps_go. Qed.

Lemma keeps_parseExpressionStatement :
  keeps (parser.parseExpressionStatement pe) completeStatement.
Proof. unfold parser.parseExpressionStatement. keeps_go. Qed.

Lemma keeps_parseStatement_body :
  keeps (parser.parseStatement_body pe)
    (fun s => match s with Some s => completeStatement s | None => True end).
Proof.
  pose proof keeps_parseLetStatement. pose proof keeps_parseReturnStatement.
  pose proof keeps_parseExpressionStatement.
  unfold parser.parseStatement_body. keeps_go.
Qed.

Lemma keeps_parseBlockStatement_loop (n : nat) :
  forall statements : list ast.Statement,
    keeps (parser.parseBlockStatement_loop ps n statements)
      (fun r => Forall completeStatement statements -> Forall completeStatement r).
Proof.
  induction n as [|n IH]; intros statements; [apply keeps_outOfFuel|].
  cbn [parser.parseBlockStatement_loop].
  eapply keeps_bind; [keeps_prim|intros rbrace; cbn beta].
  eapply keeps_bind; [keeps_prim|intros eof; cbn beta].
  destruct (negb rbrace && negb eof); [|keeps_go].
  eapply keeps_bind; [keeps_prim|intros stmt; cbn beta].
  eapply keeps_bind; [keeps_prim|intros u; cbn beta].
  eapply keeps_weaken; [apply IH|]. cbn beta. intros r Hr _ Hstmt _ _ Hstatements.
  apply Hr. destruct stmt as [stmt|]; [|assumption].
  apply Forall_app. split; [assumption|]. constructor; [assumption|constructor].
Qed.

Lemma keeps_parseBlockStatement : keeps (parser.parseBlockStatement f ps) completeBlock.
Proof.
  unfold parser.parseBlockStatement.
  eapply keeps_bind; [keeps_prim|intros u; cbn beta].
  eapply keeps_bind; [apply keeps_parseBlockStatement_loop|intros statements; cbn beta].
  keeps_leaf.
Qed.

Lemma keeps_parseFunctionParameters_loop (n : nat) :
  forall idents : list string,
    keeps (parser.parseFunctionParameters_loop n idents) (fun _ => True).
Proof.
  induction n as [|n IH]; intros idents; [apply keeps_outOfFuel|].
  cbn [parser.parseFunctionParameters_loop].
  eapply keeps_bind; [keeps_prim|intros comma; cbn beta].
  destruct comma; [|keeps_go].
  eapply keeps_bind; [keeps_prim|intros u; cbn beta].
  eapply keeps_bind; [keeps_prim|intros u'; cbn beta].
  eapply keeps_bind; [keeps_prim|intros ident; cbn beta].
  eapply keeps_weaken; [apply IH|]. auto.
Qed.

Lemma keeps_parseFunctionParameters :
  keeps (parser.parseFunctionParameters f) (fun _ => True).
Proof.
  pose proof (keeps_parseFunctionParameters_loop f).
  unfold parser.parseFunctionParameters. keeps_go.
Qed.

Lemma keeps_parseExpressionList_loop (n : nat) :
  forall elements : list (option ast.Expression),
    keeps (parser.parseExpressionList_loop pe n elements)
      (fun r => Forall present elements -> Forall present r).
Proof.
  induction n as [|n IH]; intros elements; [apply keeps_outOfFuel|].
  cbn [parser.parseExpressionList_loop].
  eapply keeps_bind; [keeps_prim|intros comma; cbn beta].
  destruct comma; [|keeps_go].
  eapply keeps_bind; [keeps_prim|intros u; cbn beta].
  eapply keeps_bind; [keeps_prim|intros u'; cbn beta].
  eapply keeps_bind; [keeps_prim|intros e; cbn beta].
  eapply keeps_weaken; [apply IH|]. cbn beta. intros r Hr He _ _ _ Hels.
  apply Hr. apply Forall_app. split; [assumption|]. constructor; [assumption|constructor].
Qed.

Lemma keeps_parseExpressionList (endToken : token.TokenType) :
  keeps (parser.parseExpressionList f pe endToken) (Forall present).
Proof.
  unfold parser.parseExpressionList.
  eapply keeps_bind; [keeps_prim|intros isEnd; cbn beta].
  destruct isEnd; [keeps_go|].
  eapply keeps_bind; [keeps_prim|intros u; cbn beta].
  eapply keeps_bind; [keeps_prim|intros e; cbn beta].
  eapply keeps_bind; [apply keeps_parseExpressionList_loop|intros elements; cbn beta].
  eapply keeps_bind; [keeps_prim|intros ok; cbn beta].
  destruct ok; cbn [negb]; keeps_leaf.
Qed.

Lemma keeps_parseHashLiteral_loop (n : nat) :
  forall pairs : list (option ast.Expression * option ast.Expression),
    keeps (parser.parseHashLiteral_loop pe n pairs)
      (fun r => Forall presentPair pairs ->
                match r with Some pairs' => Forall presentPair pairs' | None => False end).
Proof.
  induction n as [|n IH]; intros pairs; [apply keeps_outOfFuel|].
  cbn [parser.parseHashLiteral_loop].
  eapply keeps_bind; [keeps_prim|intros rbrace; cbn beta].
  destruct rbrace; cbn [negb]; [keeps_go|].
  eapply keeps_bind; [keeps_prim|intros u; cbn beta].
  eapply keeps_bind; [keeps_prim|intros hashKey; cbn beta].
  eapply keeps_bind; [keeps_prim|intros ok; cbn beta].
  destruct ok; cbn [negb]; [|keeps_go].
  eapply keeps_bind; [keeps_prim|intros u'; cbn beta].
  eapply keeps_bind; [keeps_prim|intros hashVal; cbn beta].
  eapply keeps_bind; [keeps_prim|intros rbrace; cbn beta].
  destruct rbrace; cbn [negb].
  - eapply keeps_bind; [keeps_prim|intros ok; cbn beta].
    destruct ok; cbn [negb]; [|keeps_go].
    eapply keeps_weaken; [apply IH|]. cbn beta. intros r Hr; intros.
    apply Hr. apply pairsInsert_present; assumption.
  - eapply keeps_bind; [keeps_prim|intros ok; cbn beta].
    destruct ok; cbn [negb]; [|keeps_go].
    eapply keeps_weaken; [apply IH|]. cbn beta. intros r Hr; intros.
    apply Hr. apply pairsInsert_present; assumption.
Qed.

Lemma keeps_prefixParseFns (t : token.TokenType) (prefix : parser.prefixParseFn) :
  parser.prefixParseFns f pe ps !! t = Some prefix -> keeps prefix present.
Proof.
  pose proof keeps_parseBlockStatement. pose proof keeps_parseFunctionParameters.
  pose proof keeps_parseExpressionList. pose proof (keeps_parseHashLiteral_loop f).
  unfold parser.prefixParseFns, parser.registerPrefix. intros Hfn.
  repeat (apply lookup_insert_Some in Hfn as [[_ <-]|[_ Hfn]]);
    [..|rewrite lookup_empty in Hfn; discriminate Hfn].
  all: unfold parser.parseHashLiteral, parser.parseArrayLiteral, parser.parseStringLiteral,
    parser.parseFunctionLiteral, parser.parseIfExpression, parser.parseGroupedExpression,
    parser.parseBoolean, parser.parsePrefixExpression, parser.parseIntegerLiteral,
    parser.parseIdentifier.
  all: keeps_go.
Qed.

Lemma keeps_infixParseFns (t : token.TokenType) (infix : parser.infixParseFn) :
  parser.infixParseFns f pe !! t = Some infix ->
  forall leftExp : option ast.Expression,
    keeps (infix leftExp) (fun r => present leftExp -> present r).
Proof.
  pose proof keeps_parseExpressionList.
  unfold parser.infixParseFns, parser.registerInfix. intros Hfn leftExp.
  repeat (apply lookup_insert_Some in Hfn as [[_ <-]|[_ Hfn]]);
    [..|rewrite lookup_empty in Hfn; discriminate Hfn].
  all: unfold parser.parseIndexExpression, parser.parseCallExpression,
    parser.parseInfixExpression, parser.parseAssignExpression.
  all: keeps_go.
Qed.

Lemma keeps_parseExpression_loop (n : nat) (precedence : Z) :
  forall leftExp : option ast.Expression,
    keeps (parser.parseExpression_loop f pe n precedence leftExp)
      (fun r => present leftExp -> present r).
Proof.
  induction n as [|n IH]; intros leftExp; [apply keeps_outOfFuel|].
  cbn [parser.parseExpression_loop].
  eapply keeps_bind; [keeps_prim|intros semi; cbn beta].
  eapply keeps_bind; [keeps_prim|intros peekPrec; cbn beta].
  destruct (negb semi && (precedence <? peekPrec)%Z); [|keeps_go].
  eapply keeps_bind; [keeps_prim|intros q; cbn beta].
  destruct (parser.infixParseFns f pe !! token.Type_ (parser.peekToken q))
    as [infix|] eqn:Hfn; [|keeps_go].
  eapply keeps_bind; [keeps_prim|intros u; cbn beta].
  eapply keeps_bind; [apply (keeps_infixParseFns _ _ Hfn)|intros leftExp'; cbn beta].
  eapply keeps_weaken; [apply IH|]. cbn beta. auto.
Qed.

Lemma keeps_parseExpression_body (precedence : Z) :
  keeps (parser.parseExpression_body f pe ps precedence) present.
Proof.
  unfold parser.parseExpression_body.
  eapply keeps_bind; [keeps_prim|intros q; cbn beta].
  destruct (parser.prefixParseFns f pe ps !! token.Type_ (parser.currToken q))
    as [prefix|] eqn:Hfn; [|keeps_go].
  eapply keeps_bind; [apply (keeps_prefixParseFns _ _ Hfn)|intros leftExp; cbn beta].
  eapply keeps_weaken; [apply keeps_parseExpression_loop|]. cbn beta. auto.
Qed.

End ParserKeeps.

Lemma keeps_parseExpression (fuel : nat) :
  forall precedence : Z, keeps (parser.parseExpression fuel precedence) present.
Proof.
  induction fuel as [|fuel IH]; intros precedence; [apply keeps_outOfFuel|].
  cbn [parser.parseExpression]. apply keeps_parseExpression_body; [exact IH|].
  apply keeps_parseStatement_body. exact IH.
Qed.

Lemma keeps_parseStatement (fuel : nat) :
  keeps (parser.parseStatement fuel)
    (fun s => match s with Some s => completeStatement s | None => True end).
Proof. apply keeps_parseStatement_body, keeps_parseExpression. Qed.

Lemma keeps_ParseProgram_loop (fuel n : nat) :
  forall statements : list ast.Statement,
    keeps (parser.ParseProgram_loop fuel n statements)
      (fun r => Forall completeStatement statements -> Forall completeStatement r).
Proof.
  induction n as [|n IH]; intros statements; [apply keeps_outOfFuel|].
  cbn [parser.ParseProgram_loop].
  eapply keeps_bind; [keeps_prim|intros eof; cbn beta].
  destruct eof; cbn [negb]; [keeps_go|].
  eapply keeps_bind; [apply keeps_parseStatement|intros stmt; cbn beta].
  eapply keeps_bind; [keeps_prim|intros u; cbn beta].
  eapply keeps_weaken; [apply IH|]. cbn beta. intros r Hr _ Hstmt _ Hstatements.
  apply Hr. destruct stmt as [stmt|]; [|assumption].
  apply Forall_app. split; [assumption|]. constructor; [assumption|constructor].
Qed.

Lemma New_errors (lex : parser.Lexer) (p : parser.Parser) :
  parser.New lex = go.Ok p -> parser.errors p = [].
Proof.
  unfold parser.New, go.bind, parser.nextToken. cbn [parser.lex parser.errors parser.peekToken].
  destruct (parser.NextToken lex) as [tok1 lex1]. cbn [parser.lex parser.errors].
  destruct (parser.NextToken lex1) as [tok2 lex2]. intros H. injection H as <-. reflexivity.
Qed.

(** X26: a program that the parser returns without reporting an error
    has no nil node: every child expression of every statement and
    expression is present, and no statement is a nil [LetStatement]. *)
Theorem a_parse_without_errors_has_no_nil_node (fuel : nat) (tokens : list token.Token)
    (program : ast.Program) :
  parser.parse fuel tokens = go.Ok (program, []) ->
  Forall completeStatement (ast.Statements program).
Proof.
  unfold parser.parse.
  destruct (parser.New tokens) as [p| |] eqn:Hnew; try discriminate.
  apply New_errors in Hnew.
  unfold parser.ParseProgram, go.bind.
  destruct (parser.ParseProgram_loop fuel fuel [] p) as [[statements p']| |] eqn:Hloop;
    try discriminate.
  unfold go.ret, parser.Errors. intros H. injection H as <- Herrors.
  destruct (keeps_ParseProgram_loop _ _ _ _ _ _ Hloop) as [_ Hcomplete].
  apply Hcomplete; [congruence|constructor].
Qed.

(** X27: [parseExpression] and [parseStatement] only append to the
    parser's errors; when [parseExpression] returns nil, or
    [parseStatement] a nil [LetStatement], at least one error has been
    appended. *)
Theorem the_parser_only_adds_errors (fuel : nat) (precedence : Z) (p p' : parser.Parser)
    (e : option ast.Expression) (s : option ast.Statement) :
  (parser.parseExpression fuel precedence p = go.Ok (e, p') ->
   parser.errors p `prefix_of` parser.errors p'
   /\ (e = None -> parser.errors p' <> parser.errors p))
  /\ (parser.parseStatement fuel p = go.Ok (s, p') ->
      parser.errors p `prefix_of` parser.errors p'
      /\ (s = Some ast.NilLetStatement -> parser.errors p' <> parser.errors p)).
Proof.
  split; intros H.
  - destruct (keeps_parseExpression _ _ _ _ _ H) as [Hprefix Hpresent].
    split; [assumption|]. intros -> Heq. exact (Hpresent Heq).
  - destruct (keeps_parseStatement _ _ _ _ H) as [Hprefix Hcomplete].
    split; [assumption|]. intros -> Heq. exact (Hcomplete Heq).
Qed.

(** *** Instances of the properties above *)

Lemma integer_arithmetic_wraps_around_witness :
  exists r : Z,
    evaluator.evalInfixExpression "+" (Some (object.Integer 9223372036854775807))
      (Some (object.Integer 1)) rootOnly
    = go.Ok (Some (object.Integer r), rootOnly)
    /\ go.isInt64 r
    /\ (exists k : Z, r = (9223372036854775807 + 1 + k * 2 ^ 64)%Z)
    /\ (go.isInt64 (9223372036854775807 + 1) -> r = (9223372036854775807 + 1)%Z).
Proof.
  apply (integer_arithmetic_wraps_around 9223372036854775807 1 rootOnly "+" Z.add).
  simpl. left. reflexivity.
Defined.

Lemma integer_division_truncates_or_panics_witness :
  evaluator.evalInfixExpression "/" (Some (object.Integer 7)) (Some (object.Integer (-2)))
    rootOnly
  = go.Ok (Some (object.Integer (-3)), rootOnly).
Proof.
  assert (go.isInt64 7) as H7 by (unfold go.isInt64, go.two63; lia).
  assert (go.isInt64 (-2)) as H2 by (unfold go.isInt64, go.two63; lia).
  destruct (integer_division_truncates_or_panics noRendering insertionOrder 7 (-2) rootOnly
              H7 H2) as [H _].
  exact H.
Defined.

Lemma minus_negates_with_wrap_around_witness :
  evaluator.evalPrefixExpression "-" (Some (object.Integer (-9223372036854775808))) rootOnly
  = go.Ok (Some (object.Integer (-9223372036854775808)), rootOnly)
  /\ evaluator.evalPrefixExpression "-" (Some (object.String "a")) rootOnly
     = go.Ok (Some (object.Error "unknown operator: -STRING"), rootOnly).
Proof.
  assert (go.isInt64 (-9223372036854775808)) as Hv by (unfold go.isInt64, go.two63; lia).
  destruct (minus_negates_with_wrap_around (-9223372036854775808) (object.String "a")
              rootOnly Hv) as [Hminus Hkind].
  split; [exact Hminus|]. apply Hkind. discriminate.
Defined.

Lemma bang_negates_truthiness_witness :
  evaluator.Eval noRendering insertionOrder 2
    (ast.NodeExpression (ast.PrefixExpression "!" (Some (ast.IntegerLiteral 0)))) 0 rootOnly
  = go.Ok (Some (object.Boolean false), rootOnly)
  /\ evaluator.Eval noRendering insertionOrder 3
       (ast.NodeExpression
          (ast.PrefixExpression "!"
             (Some (ast.PrefixExpression "!" (Some (ast.IntegerLiteral 0)))))) 0 rootOnly
     = go.Ok (Some (object.Boolean true), rootOnly).
Proof.
  exact (bang_negates_truthiness noRendering insertionOrder 1 0
           (Some (ast.IntegerLiteral 0)) rootOnly rootOnly (Some (object.Integer 0))
           eq_refl eq_refl).
Defined.

Lemma integer_comparisons_and_unknown_operators_witness :
  evaluator.evalInfixExpression "<" (Some (object.Integer 1)) (Some (object.Integer 2)) rootOnly
  = go.Ok (Some (object.Boolean true), rootOnly)
  /\ evaluator.evalInfixExpression "%" (Some (object.Integer 1)) (Some (object.Integer 2))
       rootOnly
     = go.Ok (Some (object.Error "unknown operator: INTEGER % INTEGER"), rootOnly).
Proof.
  assert (~ In "%" ["+"; "-"; "*"; "/"; ">"; "<"; "=="; "!="]) as Hop
    by (simpl; intuition discriminate).
  destruct (integer_comparisons_and_unknown_operators 1 2 "%" rootOnly Hop)
    as (Hlt & _ & _ & _ & Hunknown).
  split; [exact Hlt|exact Hunknown].
Defined.

Lemma operands_of_different_kinds_witness :
  evaluator.evalInfixExpression "==" (Some (object.Integer 1)) (Some (object.Boolean true))
    rootOnly
  = go.Ok (Some (object.Boolean false), rootOnly)
  /\ evaluator.evalInfixExpression "+" (Some (object.Integer 1)) (Some (object.Boolean true))
       rootOnly
     = go.Ok (Some (object.Error "type mismatch: INTEGER + BOOLEAN"), rootOnly).
Proof.
  assert (object.TypeOf (object.Integer 1) <> object.TypeOf (object.Boolean true)) as Hkind
    by discriminate.
  destruct (operands_of_different_kinds (object.Integer 1) (object.Boolean true) "+" rootOnly
              Hkind) as (Heq & _ & Hother).
  split; [exact Heq|]. apply Hother; discriminate.
Defined.

Lemma equality_is_identity_except_on_integers_witness :
  evaluator.evalInfixExpression "=="
    (Some (object.Array 0 [Some (object.Integer 1)]))
    (Some (object.Array 1 [Some (object.Integer 1)])) rootOnly
  = go.Ok (Some (object.Boolean false), rootOnly)
  /\ evaluator.evalInfixExpression "+" (Some (object.Boolean true)) (Some (object.Boolean true))
       rootOnly
     = go.Ok (Some (object.Error "unknown operator: BOOLEAN + BOOLEAN"), rootOnly).
Proof.
  assert (object.TypeOf (object.Boolean true) <> object.INTEGER_OBJ) as Hint by discriminate.
  assert (object.TypeOf (object.Boolean true) <> object.STRING_OBJ) as Hstr by discriminate.
  assert ("+" <> "==") as H1 by discriminate.
  assert ("+" <> "!=") as H2 by discriminate.
  destruct (equality_is_identity_except_on_integers noRendering insertionOrder 0 1
              [Some (object.Integer 1)] [Some (object.Integer 1)] true true
              (object.Boolean true) (object.Boolean true) "+" rootOnly
              eq_refl Hint Hstr H1 H2) as (Harrays & _ & _ & Hunknown & _).
  split; [exact Harrays|exact Hunknown].
Defined.

Lemma strings_concatenate_and_nothing_else_witness :
  evaluator.evalInfixExpression "+" (Some (object.String "ab")) (Some (object.String "c"))
    rootOnly
  = go.Ok (Some (object.String "abc"), rootOnly)
  /\ evaluator.evalInfixExpression "-" (Some (object.String "ab")) (Some (object.String "c"))
       rootOnly
     = go.Ok (Some (object.Error "unknown operator: STRING - STRING"), rootOnly).
Proof.
  assert ("-" <> "+") as Hop by discriminate.
  destruct (strings_concatenate_and_nothing_else noRendering insertionOrder "ab" "c" "-"
              rootOnly Hop) as (Hplus & Hother & _).
  split; [exact Hplus|exact Hother].
Defined.

Lemma if_takes_the_alternative_only_on_false_and_null_witness :
  evaluator.Eval noRendering insertionOrder 4
    (ast.NodeExpression
       (ast.IfExpression (Some (ast.IntegerLiteral 0))
          (ast.Block [ast.ExpressionStatement (Some (ast.IntegerLiteral 1))])
          (Some (ast.Block [ast.ExpressionStatement (Some (ast.IntegerLiteral 2))]))))
    0 rootOnly
  = go.Ok (Some (object.Integer 1), rootOnly).
Proof.
  destruct (if_takes_the_alternative_only_on_false_and_null noRendering insertionOrder 3 0
              (Some (ast.IntegerLiteral 0))
              (ast.Block [ast.ExpressionStatement (Some (ast.IntegerLiteral 1))])
              (ast.Block [ast.ExpressionStatement (Some (ast.IntegerLiteral 2))])
              (Some (object.Integer 0)) rootOnly rootOnly eq_refl eq_refl) as [_ Htruthy].
  rewrite Htruthy; [reflexivity|discriminate|discriminate].
Defined.

Lemma an_error_stops_the_enclosing_construct_witness :
  Forall (fun node =>
            evaluator.Eval noRendering insertionOrder 3 node 0 rootOnly
            = go.Ok (Some (object.Error "identifier not found: y"), rootOnly))
    [ast.NodeExpression (ast.PrefixExpression "-" (Some (ast.Identifier "y")));
     ast.NodeExpression (ast.InfixExpression "-" (Some (ast.Identifier "y")) None);
     ast.NodeExpression (ast.IndexExpression (Some (ast.Identifier "y")) None);
     ast.NodeExpression (ast.IfExpression (Some (ast.Identifier "y")) (ast.Block []) None);
     ast.NodeExpression (ast.CallExpression (Some (ast.Identifier "y")) []);
     ast.NodeExpression (ast.AssignmentExpression "x" (Some (ast.Identifier "y")));
     ast.NodeStatement (ast.ExpressionStatement (Some (ast.Identifier "y")));
     ast.NodeStatement (ast.LetStatement "x" (Some (ast.Identifier "y")));
     ast.NodeStatement (ast.ReturnStatement (Some (ast.Identifier "y")))].
Proof.
  exact (an_error_stops_the_enclosing_construct noRendering insertionOrder 2 0
           (ast.Identifier "y") "identifier not found: y" "-" "x" None (ast.Block []) None []
           rootOnly rootOnly eq_refl).
Defined.

Lemma Set_binds_one_key_in_one_environment_witness :
  object.Set_ 0 "x" (Some (object.Integer 1)) rootOnly
  = go.Ok (Some (object.Integer 1), rootX 1)
  /\ object.Get 1 (object.envs (rootX 1)) 0 "x" = go.Ok (Some (object.Integer 1), true).
Proof.
  destruct (Set_binds_one_key_in_one_environment 0
              {| object.store := ∅; object.outer := None |} "x" (Some (object.Integer 1))
              rootOnly eq_refl) as (Hset & Hget & _).
  split; [exact Hset|exact (proj1 (Hget 0))].
Defined.

Lemma enclosed_environment_falls_through_to_outer_witness :
  exists st' : object.State,
    object.NewEnclosedEnvironment (Some 0) (rootX 1) = go.Ok (1, st')
    /\ object.Get 2 (object.envs st') 1 "x" = go.Ok (Some (object.Integer 1), true).
Proof.
  destruct (enclosed_environment_falls_through_to_outer 0 (rootX 1) "x" 1
              (Some (object.Integer 1), true) eq_refl)
    as (st' & Hnew & _ & _ & _ & Hget & _).
  exists st'. split; [exact Hnew|exact Hget].
Defined.

Lemma call_with_missing_arguments_panics_witness :
  evaluator.applyFunction noRendering insertionOrder
    (evaluator.Eval noRendering insertionOrder 1)
    (Some (object.Function 0 ["a"] (ast.Block []) 0)) [] rootOnly
  = go.Panic go.indexOutOfRange.
Proof.
  apply (call_with_missing_arguments_panics noRendering insertionOrder
           (evaluator.Eval noRendering insertionOrder 1) 0 0 ["a"] (ast.Block []) []
           rootOnly).
  simpl. lia.
Defined.

Lemma call_binds_parameters_by_position_witness :
  exists st' : object.State,
    evaluator.extendedFunctionEnv ["a"; "b"] 0
      [Some (object.Integer 1); Some (object.Integer 2); Some (object.Integer 3)] rootOnly
    = go.Ok (1, st')
    /\ object.Get 1 (object.envs st') 1 "b" = go.Ok (Some (object.Integer 2), true).
Proof.
  assert (length ["a"; "b"]
          <= length [Some (object.Integer 1); Some (object.Integer 2);
                     Some (object.Integer 3)]) as Hlen by (simpl; lia).
  assert (NoDup ["a"; "b"]) as Hnodup by (apply (bool_decide_unpack _); reflexivity).
  destruct (call_binds_parameters_by_position noRendering insertionOrder
              (evaluator.Eval noRendering insertionOrder 1) 0 0 ["a"; "b"] (ast.Block [])
              [Some (object.Integer 1); Some (object.Integer 2); Some (object.Integer 3)]
              rootOnly 1 "b" (Some (object.Integer 2)) Hlen Hnodup eq_refl eq_refl)
    as (st' & Hext & _ & _ & Hget & _).
  exists st'. split; [exact Hext|exact (Hget 0)].
Defined.

Lemma builtins_check_the_argument_count_witness :
  evaluator.builtin_len [] rootOnly
  = go.Ok (Some (object.Error "wrong number of arguments. got=0, want=1"), rootOnly)
  /\ evaluator.builtin_push [] rootOnly
     = go.Ok (Some (object.Error "argument to push should be 2"), rootOnly).
Proof.
  assert (In ("len", evaluator.builtin_len)
            [("len", evaluator.builtin_len); ("first", evaluator.builtin_first);
             ("last", evaluator.builtin_last); ("rest", evaluator.builtin_rest)]) as Hin
    by (simpl; left; reflexivity).
  destruct (builtins_check_the_argument_count noRendering insertionOrder "len"
              evaluator.builtin_len [] rootOnly Hin) as (_ & Hone & _ & Htwo).
  split; [apply Hone|apply Htwo]; simpl; lia.
Defined.

Lemma builtins_check_the_argument_kind_witness :
  evaluator.builtin_first [Some (object.Integer 1)] rootOnly
  = go.Ok (Some (object.Error "argument to `first` must be an ARRAY, got=INTEGER"), rootOnly)
  /\ evaluator.builtin_first [None] rootOnly = go.Panic go.nilDereference.
Proof.
  assert (In ("first", evaluator.builtin_first)
            [("first", evaluator.builtin_first); ("last", evaluator.builtin_last);
             ("rest", evaluator.builtin_rest)]) as Hin by (simpl; left; reflexivity).
  assert (object.TypeOf (object.Integer 1) <> object.ARRAY_OBJ) as Hkind by discriminate.
  destruct (builtins_check_the_argument_kind "first" evaluator.builtin_first
              (object.Integer 1) None rootOnly Hin Hkind) as (Herror & Hnil & _).
  split; [exact Herror|exact Hnil].
Defined.


Lemma hash_index_looks_up_by_hash_key_witness :
  evaluator.evalIndexExpression (Some (object.Hash 0 [])) (Some (object.String "aaade0bb0xad"))
    rootOnly
  = go.Ok (Some evaluator.NULL, rootOnly)
  /\ evaluator.evalIndexExpression
       (Some (object.Hash 0
                (object.pairsInsert (object.String_HashKey "aaade0bb0xad")
                   (Some (object.String "aaade0bb0xad"), Some (object.Integer 1)) [])))
       (Some (object.String "dnwZwdWjoxvY")) rootOnly
     = go.Ok (Some (object.Integer 1), rootOnly).
Proof.
  assert (object.Hashable (Some (object.String "dnwZwdWjoxvY"))
          = Some (object.String_HashKey "aaade0bb0xad")) as Hother
    by (vm_compute; reflexivity).
  destruct (hash_index_looks_up_by_hash_key 0 [] (object.String "aaade0bb0xad")
              (object.String_HashKey "aaade0bb0xad")
              (Some (object.String "aaade0bb0xad")) (Some (object.Integer 1)) rootOnly
              eq_refl) as (Hmissing & Hstored & _).
  destruct (hash_index_looks_up_by_hash_key 0
              (object.pairsInsert (object.String_HashKey "aaade0bb0xad")
                 (Some (object.String "aaade0bb0xad"), Some (object.Integer 1)) [])
              (object.String "aaade0bb0xad") (object.String_HashKey "aaade0bb0xad")
              (Some (object.String "aaade0bb0xad")) (Some (object.Integer 1)) rootOnly
              eq_refl) as (_ & _ & _ & Hsame & _).
  split; [exact Hmissing|]. rewrite (Hsame _ Hother). exact Hstored.
Defined.

Lemma integer_literals_round_trip_witness :
  parser.parseIntegerLiteral (atToken token.INT "9223372036854775807")
  = go.Ok (Some (ast.IntegerLiteral 9223372036854775807),
           atToken token.INT "9223372036854775807")
  /\ object.Inspect noRendering (insertionOrder 0) (object.Integer 9223372036854775807)
     = go.Ok "9223372036854775807".
Proof.
  assert (0 <= 9223372036854775807 < 2 ^ 63)%Z as Hv by lia.
  destruct (integer_literals_round_trip noRendering insertionOrder 9223372036854775807
              (atToken token.INT "9223372036854775807") 0 0 rootOnly (insertionOrder 0)
              Hv eq_refl) as (Hparse & _ & Hinspect).
  split; [exact Hparse|exact Hinspect].
Defined.

Lemma binary_operators_group_by_precedence_witness :
  exists n : nat, forall m : nat, n <= m ->
    parser.parse m [T token.IDENT "a"; T token.PLUS "+"; T token.IDENT "b";
                    T token.ASTERISK "*"; T token.IDENT "c"]
    = go.Ok ({| ast.Statements :=
                  [ast.ExpressionStatement
                     (Some (ast.InfixExpression "+" (Some (ast.Identifier "a"))
                              (Some (ast.InfixExpression "*" (Some (ast.Identifier "b"))
                                       (Some (ast.Identifier "c"))))))] |}, []).
Proof.
  assert (In (token.PLUS, parser.SUM) binaryOperators) as H1
    by (unfold binaryOperators; simpl; tauto).
  assert (In (token.ASTERISK, parser.PRODUCT) binaryOperators) as H2
    by (unfold binaryOperators; simpl; tauto).
  destruct (binary_operators_group_by_precedence token.PLUS token.ASTERISK
              parser.SUM parser.PRODUCT "+" "*" "a" "b" "c" H1 H2) as (_ & _ & Hparse).
  exact Hparse.
Defined.

Lemma prefix_call_and_index_bind_tighter_witness :
  exists n : nat, forall m : nat, n <= m ->
    parser.parse m [T token.MINUS "-"; T token.IDENT "a"; T token.ASTERISK "*";
                    T token.IDENT "b"]
    = go.Ok ({| ast.Statements :=
                  [ast.ExpressionStatement
                     (Some (ast.InfixExpression "*"
                              (Some (ast.PrefixExpression "-" (Some (ast.Identifier "a"))))
                              (Some (ast.Identifier "b"))))] |}, [])
    /\ parser.parse m [T token.IDENT "a"; T token.ASTERISK "*"; T token.IDENT "b";
                       T token.LPAREN "("; T token.IDENT "c"; T token.RPAREN ")"]
       = go.Ok ({| ast.Statements :=
                     [ast.ExpressionStatement
                        (Some (ast.InfixExpression "*" (Some (ast.Identifier "a"))
                                 (Some (ast.CallExpression (Some (ast.Identifier "b"))
                                          [Some (ast.Identifier "c")]))))] |}, [])
    /\ parser.parse m [T token.IDENT "a"; T token.ASTERISK "*"; T token.IDENT "b";
                       T token.LBRACKET "["; T token.IDENT "c"; T token.RBRACKET "]"]
       = go.Ok ({| ast.Statements :=
                     [ast.ExpressionStatement
                        (Some (ast.InfixExpression "*" (Some (ast.Identifier "a"))
                                 (Some (ast.IndexExpression (Some (ast.Identifier "b"))
                                          (Some (ast.Identifier "c"))))))] |}, []).
Proof.
  apply (prefix_call_and_index_bind_tighter token.ASTERISK parser.PRODUCT "*" "-" "a" "b" "c"
           token.MINUS).
  - unfold binaryOperators. simpl. tauto.
  - simpl. tauto.
Defined.

Lemma a_parse_without_errors_has_no_nil_node_witness :
  Forall completeStatement
    [ast.LetStatement "x"
       (Some (ast.InfixExpression "+" (Some (ast.IntegerLiteral 1))
                (Some (ast.IntegerLiteral 2))))].
Proof.
  apply (a_parse_without_errors_has_no_nil_node 6
           [T token.LET "let"; T token.IDENT "x"; T token.ASSIGN "="; T token.INT "1";
            T token.PLUS "+"; T token.INT "2"; T token.SEMICOLON ";"]
           {| ast.Statements :=
                [ast.LetStatement "x"
                   (Some (ast.InfixExpression "+" (Some (ast.IntegerLiteral 1))
                            (Some (ast.IntegerLiteral 2))))] |}).
  vm_compute. reflexivity.
Defined.

Lemma a_hash_literal_keeps_the_pair_evaluated_last_witness :
  evaluator.evalHashLiteral reverseOrder (evaluator.Eval noRendering reverseOrder 2)
    [(Some (ast.Boolean true), Some (ast.StringLiteral "a"));
     (Some (ast.Boolean true), Some (ast.StringLiteral "b"))] 0 rootOnly
  = go.Ok (Some (object.Hash 0
                   [(object.Boolean_HashKey true,
                     (Some (object.Boolean true), Some (object.String "a")))]),
           {| object.envs := object.envs rootOnly; object.nextAddr := 1;
              object.ranges := 1; object.stdout := [] |})
  /\ evaluator.evalIndexExpression
       (Some (object.Hash 0
                [(object.Boolean_HashKey true,
                  (Some (object.Boolean true), Some (object.String "a")))]))
       (Some (object.Boolean true)) rootOnly
     = go.Ok (Some (object.String "a"), rootOnly).
Proof.
  apply (a_hash_literal_keeps_the_pair_evaluated_last reverseOrder
           (evaluator.Eval noRendering reverseOrder 2) 0
           [(Some (ast.Boolean true), Some (ast.StringLiteral "a"));
            (Some (ast.Boolean true), Some (ast.StringLiteral "b"))]
           rootOnly
           {| object.envs := object.envs rootOnly; object.nextAddr := 1;
              object.ranges := 1; object.stdout := [] |}
           rootOnly
           [(object.Boolean_HashKey true,
             (Some (object.Boolean true), Some (object.String "b")));
            (object.Boolean_HashKey true,
             (Some (object.Boolean true), Some (object.String "a")))]
           (object.Boolean true) (object.Boolean_HashKey true)).
  - eapply pairsRun_cons; [reflexivity|reflexivity|reflexivity|reflexivity|reflexivity|].
    eapply pairsRun_cons; [reflexivity|reflexivity|reflexivity|reflexivity|reflexivity|].
    apply pairsRun_nil.
  - reflexivity.
Defined.

Lemma a_hash_literal_stops_at_an_unusable_key_witness :
  evaluator.evalHashLiteral insertionOrder (evaluator.Eval noRendering insertionOrder 2)
    [(Some (ast.ArrayLiteral []), Some (ast.IntegerLiteral 1))] 0 rootOnly
  = go.Ok (Some (object.Error "unusable as hash key ARRAY"),
           {| object.envs := object.envs rootOnly; object.nextAddr := 2;
              object.ranges := 1; object.stdout := [] |}).
Proof.
  apply (a_hash_literal_stops_at_an_unusable_key insertionOrder
           (evaluator.Eval noRendering insertionOrder 2) 0
           [(Some (ast.ArrayLiteral []), Some (ast.IntegerLiteral 1))] [] []
           (Some (ast.ArrayLiteral [])) (Some (ast.IntegerLiteral 1)) rootOnly
           {| object.envs := object.envs rootOnly; object.nextAddr := 1;
              object.ranges := 1; object.stdout := [] |}
           {| object.envs := object.envs rootOnly; object.nextAddr := 2;
              object.ranges := 1; object.stdout := [] |}
           [] (object.Array 1 [])).
  - reflexivity.
  - apply pairsRun_nil.
  - reflexivity.
  - reflexivity.
  - reflexivity.
Defined.

